(** * StorageBucket: a debounced, file-backed key/value store

    A shallow embedding of [src/app/src/app/storage/StorageBucket.js] and of
    the parts of the JavaScript runtime that the class relies on.

    - JavaScript strings are sequences of UTF-16 code units, here [list N].
    - JavaScript values are the values of the JSON data model plus
      [undefined].  Arrays are what they are in the language: objects whose
      property table is keyed by array indices and that carry a [length].
    - A property table is an association list in the order in which
      [Object.keys] enumerates it: array indices first, in ascending numeric
      order, then the other keys in the order of their creation.
    - A value that is an object is the table of its own properties.  The
      members that every object inherits from [Object.prototype]
      ([constructor], [toString], [__proto__], ...) are functions, and the
      prototype itself, which are no values here: a read finds own
      properties only.  So a theorem on the read of a key that the object
      does not have says that the key is none of these names ([inherited]),
      and a theorem on the string form of a value that no property of the
      value hides the methods that make it ([stringable]).  An assignment
      knows of the one inherited member that it meets as a setter,
      [__proto__] ([tbl_assign]).
    - Numbers are kept abstract (class [JSNumber]): the development never
      computes with IEEE doubles, it only moves them around.
    - The content of a file is the string that [fs.readFileSync (_, 'utf8')]
      returns for it; the UTF-8 layer below is not modelled.
    - Time is discrete.  The event loop is a function [tick]; how late a timer
      fires and how long a write takes are given by oracles, over which the
      theorems quantify.
    - The event of a request over IPC is a record of what the class does to
      it: the value that it returns and the messages that it sends.  A
      listener takes the event and returns it.
    - [measurePerformance] reads the clock of the world; the time that a call
      takes is given by a stopwatch, a third oracle.  Its parameter is a
      natural number or undefined; [_handleIPCMeasurePerformance], which
      passes a value of any type to it, is not modelled. *)

From Stdlib Require Import NArith Ascii DecimalString Lia.
From stdpp Require Import base option list gmap strings.

#[local] Set Warnings "-register-all".

Abbreviation jsstring := (list N).

(** A string literal of the source, as a sequence of code units. *)
Definition js (s : string) : jsstring :=
  map N_of_ascii (String.list_ascii_of_string s).
Arguments js _%_string.

(** ** Exceptions *)

Inductive exn :=
| TypeError
| RangeError
| SyntaxError
| ENOENT
| EACCES
| EEXIST.

Inductive outcome (A : Type) :=
| Ok (a : A)
| Throw (e : exn).
Arguments Ok {A} a.
Arguments Throw {A} e.

Definition obind {A B} (m : outcome A) (f : A → outcome B) : outcome B :=
  match m with
  | Ok a => f a
  | Throw e => Throw e
  end.

#[global] Instance outcome_ret : MRet outcome := λ A a, Ok a.
#[global] Instance outcome_bind : MBind outcome := λ A B f m, obind m f.

(** ** Numbers

    The operations of the language on Number values that the program reaches. *)
Class JSNumber := {
  number : Type;
  (** the Number value of a natural number (a length) *)
  num_of_N : N → number;
  (** ToBoolean: false for +0, -0 and NaN *)
  num_truthy : number → bool;
  (** Number::toString *)
  num_to_string : number → jsstring;
  (** the Number value of a JSON number literal *)
  num_of_literal : jsstring → number;
  (** false for NaN and the infinities *)
  num_finite : number → bool;
  (** ArraySetLength on a string: [Some n] when ToNumber of the string is
      the integer [n] below 2^32, [None] (a RangeError) otherwise *)
  array_length_of_string : jsstring → option N
}.

Module JS.
Section Values.
Context {NUM : JSNumber}.
Local Open Scope N_scope.

(** ** Values *)

Inductive objclass :=
| Plain
| Arr (len : N).

Inductive jsval :=
| JUndefined
| JNull
| JBool (b : bool)
| JNumber (n : number)
| JString (s : jsstring)
| JObject (c : objclass) (props : list (jsstring * jsval)).

Abbreviation table := (list (jsstring * jsval)).

(** ToBoolean *)
Definition truthy (v : jsval) : bool :=
  match v with
  | JUndefined | JNull => false
  | JBool b => b
  | JNumber n => num_truthy n
  | JString s => match s with [] => false | _ => true end
  | JObject _ _ => true
  end.

(** [a || b] *)
Definition js_or (a b : jsval) : jsval := if truthy a then a else b.

Definition is_string (v : jsval) : bool :=
  match v with JString _ => true | _ => false end.

(** ** Property tables *)

Definition digit_of (c : N) : option N :=
  if (48 <=? c) && (c <=? 57) then Some (c - 48) else None.

Fixpoint digits_value (acc : N) (s : jsstring) : option N :=
  match s with
  | [] => Some acc
  | c :: r => match digit_of c with
              | Some d => digits_value (acc * 10 + d) r
              | None => None
              end
  end.

(** ToString of an array index *)
Definition index_key (n : N) : jsstring :=
  js (NilEmpty.string_of_uint (N.to_uint n)).

(** A key [k] is an array index when [ToString (ToUint32 k) = k] and the
    number is not 2^32 - 1. *)
Definition is_index (k : jsstring) : option N :=
  match k with
  | [] => None
  | _ => match digits_value 0 k with
         | Some n => if (n <? 4294967295) && bool_decide (index_key n = k)
                     then Some n else None
         | None => None
         end
  end.

(** [key_before k k']: a new key [k] is enumerated before the existing [k']. *)
Definition key_before (k k' : jsstring) : bool :=
  match is_index k, is_index k' with
  | Some i, Some j => i <? j
  | Some _, None => true
  | None, _ => false
  end.

Fixpoint tbl_get {A} (t : list (jsstring * A)) (k : jsstring) : option A :=
  match t with
  | [] => None
  | (k', v) :: r => if decide (k = k') then Some v else tbl_get r k
  end.

(** CreateDataProperty / [[Set]] on an ordinary object: an existing property
    keeps its place, a new one takes the place its key has in the order. *)
Fixpoint tbl_put (t : table) (k : jsstring) (v : jsval) : table :=
  match t with
  | [] => [(k, v)]
  | (k', v') :: r =>
      if decide (k = k') then (k', v) :: r
      else if key_before k k' then (k, v) :: (k', v') :: r
      else (k', v') :: tbl_put r k v
  end.

Fixpoint tbl_delete (t : table) (k : jsstring) : table :=
  match t with
  | [] => []
  | (k', v') :: r => if decide (k = k') then r else (k', v') :: tbl_delete r k
  end.

Definition tbl_keys (t : table) : list jsstring := map fst t.

(** The names of the members of [Object.prototype], which every object
    inherits. *)
Definition Object_prototype : list jsstring :=
  [js "constructor"; js "toString"; js "toLocaleString"; js "valueOf";
   js "hasOwnProperty"; js "isPrototypeOf"; js "propertyIsEnumerable";
   js "__proto__"; js "__defineGetter__"; js "__defineSetter__";
   js "__lookupGetter__"; js "__lookupSetter__"].

Definition inherited (k : jsstring) : bool := bool_decide (k ∈ Object_prototype).

(** [o[k] = v], the [[Set]] of an object: as [tbl_put], but for the key
    [__proto__].  An object that has no property of this name inherits an
    accessor, whose setter is called: it defines no property, and leaves the
    object as it is when [v] is a primitive value (when [v] is an object or
    null it changes the prototype, which a table does not record).  An object
    that has the property ([JSON.parse] defines it as any other) is assigned
    to as for any other key. *)
Definition tbl_assign (t : table) (k : jsstring) (v : jsval) : table :=
  if decide (k = js "__proto__") then
    match tbl_get t k with
    | Some _ => tbl_put t k v
    | None => t
    end
  else tbl_put t k v.

(** The indices below a length. *)
Definition indices (len : N) : list N :=
  map N.of_nat (seq 0 (N.to_nat len)).

(** ** Property access on a value: [o[k]], [o[k] = v], [delete o[k]], [Object.keys] *)

(** The read of an own property: what [o[k]] is when [o] has the property
    [k], and when it has not and inherits none of that name; for a map the
    names that it inherits are those of [Object_prototype]. *)
Definition js_get (o : jsval) (k : jsstring) : outcome jsval :=
  match o with
  | JUndefined | JNull => Throw TypeError
  | JBool _ | JNumber _ => Ok JUndefined
  | JString s =>
      if decide (k = js "length") then Ok (JNumber (num_of_N (N.of_nat (length s))))
      else match is_index k with
           | Some i => match s !! N.to_nat i with
                       | Some c => Ok (JString [c])
                       | None => Ok JUndefined
                       end
           | None => Ok JUndefined
           end
  | JObject c t =>
      match c with
      | Arr len =>
          if decide (k = js "length") then Ok (JNumber (num_of_N len))
          else Ok (default JUndefined (tbl_get t k))
      | Plain => Ok (default JUndefined (tbl_get t k))
      end
  end.

(** Assignment of a string, in strict mode (the body of a class is strict).
    On a primitive value it throws, but for the key [__proto__], where the
    inherited setter is called and does nothing. *)
Definition js_put_string (o : jsval) (k : jsstring) (s : jsstring) : outcome jsval :=
  match o with
  | JObject Plain t => Ok (JObject Plain (tbl_assign t k (JString s)))
  | JObject (Arr len) t =>
      if decide (k = js "length") then
        match array_length_of_string s with
        | Some n =>
            Ok (JObject (Arr n)
                  (List.filter (λ p, match is_index p.1 with
                                     | Some i => i <? n
                                     | None => true
                                     end) t))
        | None => Throw RangeError
        end
      else match is_index k with
           | Some i => Ok (JObject (Arr (N.max len (i + 1))) (tbl_put t k (JString s)))
           | None => Ok (JObject (Arr len) (tbl_assign t k (JString s)))
           end
  | JBool _ | JNumber _ | JString _ =>
      if decide (k = js "__proto__") then Ok o else Throw TypeError
  | JUndefined | JNull => Throw TypeError
  end.

(** [delete o[k]] in strict mode. *)
Definition js_delete (o : jsval) (k : jsstring) : outcome jsval :=
  match o with
  | JUndefined | JNull => Throw TypeError
  | JBool _ | JNumber _ => Ok o
  | JString s =>
      if decide (k = js "length") then Throw TypeError
      else match is_index k with
           | Some i => if i <? N.of_nat (length s) then Throw TypeError else Ok o
           | None => Ok o
           end
  | JObject Plain t => Ok (JObject Plain (tbl_delete t k))
  | JObject (Arr len) t =>
      if decide (k = js "length") then Throw TypeError
      else Ok (JObject (Arr len) (tbl_delete t k))
  end.

(** [Object.keys] *)
Definition js_keys (o : jsval) : outcome (list jsstring) :=
  match o with
  | JUndefined | JNull => Throw TypeError
  | JBool _ | JNumber _ => Ok []
  | JString s => Ok (map index_key (indices (N.of_nat (length s))))
  | JObject _ t => Ok (tbl_keys t)
  end.

(** ** ToString *)

Fixpoint join_with (sep : N) (l : list jsstring) : jsstring :=
  match l with
  | [] => []
  | [a] => a
  | a :: r => a ++ sep :: join_with sep r
  end.

(** ToString of a value; for an array this is [Array.prototype.join].  It is
    the string form of the values that are [stringable], below. *)
Fixpoint ToString (v : jsval) : jsstring :=
  match v with
  | JUndefined => js "undefined"
  | JNull => js "null"
  | JBool b => if b then js "true" else js "false"
  | JNumber n => num_to_string n
  | JString s => s
  | JObject Plain _ => js "[object Object]"
  | JObject (Arr len) t =>
      let parts :=
        (fix go (l : table) : list (jsstring * jsstring) :=
           match l with
           | [] => []
           | (k, x) :: r =>
               (k, match x with
                   | JUndefined | JNull => []
                   | _ => ToString x
                   end) :: go r
           end) t in
      join_with 44 (map (λ i, default [] (tbl_get parts (index_key i))) (indices len))
  end.

(** ToString, and ToPropertyKey, of an object call the methods [toString]
    and [valueOf] that it has or inherits, and throw a TypeError when none
    gives a primitive value.  The inherited [toString] does; an own property
    [toString] hides it, and is no function here.  For an array the inherited
    [toString] calls [join], which an own property [join] hides, and which
    asks for the string form of each member. *)
Fixpoint stringable (v : jsval) : bool :=
  match v with
  | JObject Plain t =>
      match tbl_get t (js "toString") with Some _ => false | None => true end
  | JObject (Arr len) t =>
      match tbl_get t (js "toString"), tbl_get t (js "join") with
      | None, None =>
          (fix go (l : table) : bool :=
             match l with
             | [] => true
             | (_, x) :: r => stringable x && go r
             end) t
      | _, _ => false
      end
  | _ => true
  end.

(** [o.length] *)
Definition js_length (o : jsval) : outcome jsval := js_get o (js "length").

(** ** JSON.stringify *)

Definition hex_digit (n : N) : N := if n <? 10 then 48 + n else 87 + n.

(** QuoteJSONString, one code unit.  A surrogate is left as it is; one that
    stands alone is escaped by the engines since ES2019, and was not before:
    the theorems on the text of a file take strings that have none
    ([well_formed_utf16]). *)
Definition quote_char (c : N) : jsstring :=
  if c =? 34 then [92; 34]                  (* the double quote *)
  else if c =? 92 then [92; 92]             (* the backslash *)
  else if c =? 8 then [92; 98]              (* \b *)
  else if c =? 12 then [92; 102]            (* \f *)
  else if c =? 10 then [92; 110]            (* \n *)
  else if c =? 13 then [92; 114]            (* \r *)
  else if c =? 9 then [92; 116]             (* \t *)
  else if c <? 32 then [92; 117; 48; 48; hex_digit (c / 16); hex_digit (c mod 16)]
  else [c].

Definition QuoteJSONString (s : jsstring) : jsstring :=
  34 :: flat_map quote_char s ++ [34].

Definition json_member (p : jsstring * option jsstring) : option jsstring :=
  match p.2 with
  | Some t => Some (QuoteJSONString p.1 ++ 58 :: t)
  | None => None
  end.

Definition json_element (parts : list (jsstring * option jsstring)) (i : N) : jsstring :=
  match tbl_get parts (index_key i) with
  | Some (Some t) => t
  | _ => js "null"
  end.

(** SerializeJSONProperty without indentation; [None] stands for [undefined]. *)
Fixpoint JSON_stringify (v : jsval) : option jsstring :=
  match v with
  | JUndefined => None
  | JNull => Some (js "null")
  | JBool b => Some (if b then js "true" else js "false")
  | JNumber n => Some (if num_finite n then num_to_string n else js "null")
  | JString s => Some (QuoteJSONString s)
  | JObject c t =>
      let parts :=
        (fix go (l : table) : list (jsstring * option jsstring) :=
           match l with
           | [] => []
           | (k, x) :: r => (k, JSON_stringify x) :: go r
           end) t in
      match c with
      | Plain => Some (123 :: join_with 44 (omap json_member parts) ++ [125])
      | Arr len => Some (91 :: join_with 44 (map (json_element parts) (indices len)) ++ [93])
      end
  end.

(** ** JSON.parse *)

Definition is_ws (c : N) : bool :=
  (c =? 32) || (c =? 9) || (c =? 10) || (c =? 13).

Fixpoint skip_ws (s : jsstring) : jsstring :=
  match s with
  | c :: r => if is_ws c then skip_ws r else s
  | [] => []
  end.

Definition hex_value (c : N) : option N :=
  if (48 <=? c) && (c <=? 57) then Some (c - 48)
  else if (97 <=? c) && (c <=? 102) then Some (c - 87)
  else if (65 <=? c) && (c <=? 70) then Some (c - 55)
  else None.

Definition hex4 (a b c d : N) : option N :=
  x ← hex_value a; y ← hex_value b; z ← hex_value c; w ← hex_value d;
  Some (((x * 16 + y) * 16 + z) * 16 + w).

Definition unescape (e : N) : option N :=
  if e =? 34 then Some 34
  else if e =? 92 then Some 92
  else if e =? 47 then Some 47
  else if e =? 98 then Some 8
  else if e =? 102 then Some 12
  else if e =? 110 then Some 10
  else if e =? 114 then Some 13
  else if e =? 116 then Some 9
  else None.

Definition cons_char (c : N) (p : jsstring * jsstring) : jsstring * jsstring :=
  (c :: p.1, p.2).

(** The characters of a string literal after its opening quote, up to and
    including the closing quote: the string and the rest of the text. *)
Fixpoint parse_string_chars (s : jsstring) : option (jsstring * jsstring) :=
  match s with
  | [] => None
  | c :: r =>
      if c =? 34 then Some ([], r)
      else if c =? 92 then
        match r with
        | [] => None
        | e :: r' =>
            if e =? 117 then
              match r' with
              | h1 :: h2 :: h3 :: h4 :: r'' =>
                  match hex4 h1 h2 h3 h4 with
                  | Some u => cons_char u <$> parse_string_chars r''
                  | None => None
                  end
              | _ => None
              end
            else
              match unescape e with
              | Some u => cons_char u <$> parse_string_chars r'
              | None => None
              end
        end
      else if c <? 32 then None
      else cons_char c <$> parse_string_chars r
  end.

Definition is_digit (c : N) : bool := (48 <=? c) && (c <=? 57).

Fixpoint span_digits (s : jsstring) : jsstring * jsstring :=
  match s with
  | c :: r => if is_digit c then cons_char c (span_digits r) else ([], s)
  | [] => ([], [])
  end.

(** One or more digits. *)
Definition digits1 (s : jsstring) : option (jsstring * jsstring) :=
  match span_digits s with
  | ([], _) => None
  | p => Some p
  end.

(** A JSON number literal: the literal and the rest of the text. *)
Definition parse_number (s : jsstring) : option (jsstring * jsstring) :=
  let '(sign, s1) := match s with
                     | 45 :: r => ([45], r)
                     | _ => ([], s)
                     end in
  '(int, s2) ← match s1 with
               | c :: r =>
                   if c =? 48 then Some ([48], r)
                   else if is_digit c then Some (cons_char c (span_digits r))
                   else None
               | [] => None
               end;
  '(frac, s3) ← match s2 with
                | 46 :: r => '(ds, r') ← digits1 r; Some (46 :: ds, r')
                | _ => Some ([], s2)
                end;
  '(ex, s4) ← match s3 with
              | e :: r =>
                  if (e =? 101) || (e =? 69) then
                    let '(sg, r1) := match r with
                                     | 43 :: r1 => ([43], r1)
                                     | 45 :: r1 => ([45], r1)
                                     | _ => ([], r)
                                     end in
                    '(ds, r') ← digits1 r1; Some (e :: sg ++ ds, r')
                  else Some ([], s3)
              | [] => Some ([], s3)
              end;
  Some (sign ++ int ++ frac ++ ex, s4).

(** [strip_prefix p s]: the rest of [s] after the literal [p]. *)
Fixpoint strip_prefix (p s : jsstring) : option jsstring :=
  match p, s with
  | [], _ => Some s
  | a :: p', b :: s' => if a =? b then strip_prefix p' s' else None
  | _ :: _, [] => None
  end.

(** An array is an object whose table is keyed by the indices. *)
Fixpoint index_table (i : N) (vs : list jsval) : table :=
  match vs with
  | [] => []
  | v :: r => (index_key i, v) :: index_table (i + 1) r
  end.

Definition make_array (vs : list jsval) : jsval :=
  JObject (Arr (N.of_nat (length vs))) (index_table 0 vs).

(** Members are defined in the order of the text; a repeated key keeps its
    first place and its last value. *)
Definition make_object (ms : list (jsstring * jsval)) : jsval :=
  JObject Plain (fold_left (λ t m, tbl_put t m.1 m.2) ms []).

(** [expect c s]: the rest of [s] after the character [c]. *)
Definition expect (c : N) (s : jsstring) : option jsstring :=
  match s with
  | c' :: r => if c' =? c then Some r else None
  | [] => None
  end.

(** The grammar of JSON values, by recursive descent.  The text given to
    [parse_value], [parse_members] and [parse_elements] starts at a token. *)
Fixpoint parse_value (fuel : nat) (s : jsstring) : option (jsval * jsstring) :=
  match fuel with
  | O => None
  | S fuel' =>
      match s with
      | [] => None
      | c :: r =>
          if c =? 123 then
            match expect 125 (skip_ws r) with
            | Some r' => Some (JObject Plain [], r')
            | None => '(ms, r') ← parse_members fuel' (skip_ws r); Some (make_object ms, r')
            end
          else if c =? 91 then
            match expect 93 (skip_ws r) with
            | Some r' => Some (make_array [], r')
            | None => '(vs, r') ← parse_elements fuel' (skip_ws r); Some (make_array vs, r')
            end
          else if c =? 34 then
            '(str, r') ← parse_string_chars r; Some (JString str, r')
          else if c =? 116 then
            r' ← strip_prefix (js "true") s; Some (JBool true, r')
          else if c =? 102 then
            r' ← strip_prefix (js "false") s; Some (JBool false, r')
          else if c =? 110 then
            r' ← strip_prefix (js "null") s; Some (JNull, r')
          else
            '(lit, r') ← parse_number s; Some (JNumber (num_of_literal lit), r')
      end
  end
with parse_members (fuel : nat) (s : jsstring) : option (list (jsstring * jsval) * jsstring) :=
  match fuel with
  | O => None
  | S fuel' =>
      r ← expect 34 s;
      '(k, r1) ← parse_string_chars r;
      r2 ← expect 58 (skip_ws r1);
      '(v, r3) ← parse_value fuel' (skip_ws r2);
      match expect 44 (skip_ws r3) with
      | Some r4 => '(ms, r5) ← parse_members fuel' (skip_ws r4); Some ((k, v) :: ms, r5)
      | None => r4 ← expect 125 (skip_ws r3); Some ([(k, v)], r4)
      end
  end
with parse_elements (fuel : nat) (s : jsstring) : option (list jsval * jsstring) :=
  match fuel with
  | O => None
  | S fuel' =>
      '(v, r1) ← parse_value fuel' s;
      match expect 44 (skip_ws r1) with
      | Some r2 => '(vs, r3) ← parse_elements fuel' (skip_ws r2); Some (v :: vs, r3)
      | None => r2 ← expect 93 (skip_ws r1); Some ([v], r2)
      end
  end.

(** [JSON.parse text]; [None] stands for a SyntaxError.  The fuel is the
    length of the text: a level of nesting costs two units of fuel and two
    characters, the opening and the closing one. *)
Definition JSON_parse (text : jsstring) : option jsval :=
  match parse_value (S (length text)) (skip_ws text) with
  | Some (v, r) => match skip_ws r with
                   | [] => Some v
                   | _ => None
                   end
  | None => None
  end.

(** ** Objects whose values are strings *)

(** [key_precedes k k']: in the order of enumeration, [k] may stand before
    [k'] in one table. *)
Definition key_precedes (k k' : jsstring) : bool :=
  match is_index k, is_index k' with
  | Some i, Some j => i <? j
  | Some _, None => true
  | None, Some _ => false
  | None, None => bool_decide (k ≠ k')
  end.

(** The keys of an object, as [Object.keys] lists them: no key twice, the
    array indices first and ascending. *)
Fixpoint canonical (keys : list jsstring) : bool :=
  match keys with
  | [] => true
  | k :: r => forallb (key_precedes k) r && canonical r
  end.

(** The table of an object that maps string keys to string values. *)
Definition string_table (M : list (jsstring * jsstring)) : table :=
  map (λ p, (p.1, JString p.2)) M.

Definition all_strings (t : table) : bool := forallb (λ p, is_string p.2) t.

(** The keys of a value that is a map are as [Object.keys] lists them. *)
Definition keys_canonical (v : jsval) : bool :=
  match v with
  | JObject Plain t => canonical (tbl_keys t)
  | _ => true
  end.

(** No surrogate stands alone: the strings that UTF-8 encodes and decodes
    without loss, so that a file gives back the text that was written. *)
Fixpoint well_formed_utf16 (s : jsstring) : bool :=
  match s with
  | [] => true
  | c :: r =>
      if (55296 <=? c) && (c <? 56320) then
        match r with
        | d :: r' => (56320 <=? d) && (d <? 57344) && well_formed_utf16 r'
        | [] => false
        end
      else negb ((56320 <=? c) && (c <? 57344)) && well_formed_utf16 r
  end.

(** ToPropertyKey, the key that [o[k]] reads or writes: on the values that
    are [stringable] it is ToString. *)
Definition ToPropertyKey (k : jsval) : jsstring := ToString k.

(** The text of one member of such an object. *)
Definition member_text (p : jsstring * jsstring) : jsstring :=
  QuoteJSONString p.1 ++ 58 :: QuoteJSONString p.2.

End Values.
End JS.

(** ** The host: what the class takes from outside its file *)

Class Host := {
  (** [parseInt (pkg.version.split ('.')[0])]; [None] is NaN *)
  pkg_major : option N;
  (** [process.platform] *)
  platform : jsstring;
  (** [new AppDirectory ({ appName: pkg.name, useRoaming: true }).userData ()] *)
  dbPath : jsstring;
  (** [new AppDirectory (pkg.name).userData ()] *)
  oldDbPath : jsstring;
  (** [path.join] *)
  path_join : jsstring → jsstring → jsstring;
  (** the constant of [shared/constants], in ticks of the clock *)
  DB_WRITE_DELAY_MS : nat;
  (** how much later than asked the timer with a given handle fires *)
  timer_lateness : nat → nat;
  (** how long the n-th call of [writeFileAtomic] takes beyond one tick *)
  write_duration : nat → nat
}.

Module StorageBucket.
Import JS.
Section Bucket.
Context {NUM : JSNumber} {HOST : Host}.

Abbreviation table := (list (jsstring * jsval)).

(** ** The file system *)

Record fsys := {
  files : gmap jsstring jsstring;   (* path to content *)
  denied : gset jsstring            (* paths on which reads and writes fail *)
}.

(** A call of [writeFileAtomic] that has not called back yet. *)
Record pending_write := {
  w_due : nat;
  w_path : jsstring;
  w_text : option jsstring
}.

(** ** The object and the world around it *)

Record bucket := {
  __path__ : jsstring;
  __writeHold__ : option nat;       (* null or the handle of a timer *)
  __writeLock__ : bool;
  __data__ : jsval;
  __ipcReplyChannel__ : jsstring
}.

Record world := {
  clock : nat;
  timers : list (nat * nat);        (* armed timers: handle and firing time *)
  next_timer : nat;
  inflight : list pending_write;
  fs : fsys;
  console : list jsstring;
  emitted : list (jsstring * jsval);
  ipc_channels : list jsstring;
  (* the calls of [writeFileAtomic], latest first: time, path, text *)
  write_log : list (nat * jsstring * option jsstring)
}.

Record sys := {
  this : bucket;
  host : world
}.

Definition with_this (f : bucket → bucket) (s : sys) : sys :=
  {| this := f (this s); host := host s |}.

Definition with_host (f : world → world) (s : sys) : sys :=
  {| this := this s; host := f (host s) |}.

Definition set_writeHold (h : option nat) (b : bucket) : bucket :=
  {| __path__ := __path__ b; __writeHold__ := h; __writeLock__ := __writeLock__ b;
     __data__ := __data__ b; __ipcReplyChannel__ := __ipcReplyChannel__ b |}.

Definition set_writeLock (l : bool) (b : bucket) : bucket :=
  {| __path__ := __path__ b; __writeHold__ := __writeHold__ b; __writeLock__ := l;
     __data__ := __data__ b; __ipcReplyChannel__ := __ipcReplyChannel__ b |}.

Definition set_data (d : jsval) (b : bucket) : bucket :=
  {| __path__ := __path__ b; __writeHold__ := __writeHold__ b;
     __writeLock__ := __writeLock__ b; __data__ := d;
     __ipcReplyChannel__ := __ipcReplyChannel__ b |}.

Definition set_clock (c : nat) (w : world) : world :=
  {| clock := c; timers := timers w; next_timer := next_timer w; inflight := inflight w;
     fs := fs w; console := console w; emitted := emitted w;
     ipc_channels := ipc_channels w; write_log := write_log w |}.

Definition set_timers (t : list (nat * nat)) (n : nat) (w : world) : world :=
  {| clock := clock w; timers := t; next_timer := n; inflight := inflight w;
     fs := fs w; console := console w; emitted := emitted w;
     ipc_channels := ipc_channels w; write_log := write_log w |}.

Definition set_inflight (i : list pending_write) (w : world) : world :=
  {| clock := clock w; timers := timers w; next_timer := next_timer w; inflight := i;
     fs := fs w; console := console w; emitted := emitted w;
     ipc_channels := ipc_channels w; write_log := write_log w |}.

Definition set_fs (f : fsys) (w : world) : world :=
  {| clock := clock w; timers := timers w; next_timer := next_timer w;
     inflight := inflight w; fs := f; console := console w; emitted := emitted w;
     ipc_channels := ipc_channels w; write_log := write_log w |}.

Definition set_console (c : list jsstring) (w : world) : world :=
  {| clock := clock w; timers := timers w; next_timer := next_timer w;
     inflight := inflight w; fs := fs w; console := c; emitted := emitted w;
     ipc_channels := ipc_channels w; write_log := write_log w |}.

Definition set_emitted (e : list (jsstring * jsval)) (w : world) : world :=
  {| clock := clock w; timers := timers w; next_timer := next_timer w;
     inflight := inflight w; fs := fs w; console := console w; emitted := e;
     ipc_channels := ipc_channels w; write_log := write_log w |}.

Definition set_ipc_channels (c : list jsstring) (w : world) : world :=
  {| clock := clock w; timers := timers w; next_timer := next_timer w;
     inflight := inflight w; fs := fs w; console := console w; emitted := emitted w;
     ipc_channels := c; write_log := write_log w |}.

Definition set_write_log (l : list (nat * jsstring * option jsstring)) (w : world) : world :=
  {| clock := clock w; timers := timers w; next_timer := next_timer w;
     inflight := inflight w; fs := fs w; console := console w; emitted := emitted w;
     ipc_channels := ipc_channels w; write_log := l |}.

(** ** Statements: state and exceptions *)

Definition M (A : Type) : Type := sys → outcome A * sys.

Definition ret {A} (a : A) : M A := λ s, (Ok a, s).

Definition bind {A B} (m : M A) (f : A → M B) : M B :=
  λ s, match m s with
       | (Ok a, s') => f a s'
       | (Throw e, s') => (Throw e, s')
       end.

Definition throw {A} (e : exn) : M A := λ s, (Throw e, s).

(** [try { m } catch (ex) { h ex }] *)
Definition try_catch {A} (m : M A) (h : exn → M A) : M A :=
  λ s, match m s with
       | (Throw e, s') => h e s'
       | r => r
       end.

Definition lift {A} (o : outcome A) : M A := λ s, (o, s).

Definition gets {A} (f : sys → A) : M A := λ s, (Ok (f s), s).

Definition modify (f : sys → sys) : M unit := λ s, (Ok (), f s).

#[global] Instance M_ret : MRet M := @ret.
#[global] Instance M_bind : MBind M := λ A B f m, bind m f.

Notation "x <- y ; z" := (bind y (λ x, z))
  (at level 20, y at level 100, z at level 200, only parsing).

(** ** Node: console, fs, timers, events *)

Definition console_warn (msg : jsstring) : M unit :=
  modify (with_host (λ w, set_console (console w ++ [msg]) w)).

Definition existsSync (p : jsstring) : M bool :=
  gets (λ s, bool_decide (is_Some (files (fs (host s)) !! p))).

Definition readFileSync (p : jsstring) : M jsstring :=
  f <- gets (λ s, fs (host s));
  if bool_decide (p ∈ denied f) then throw EACCES
  else match files f !! p with
       | Some text => ret text
       | None => throw ENOENT
       end.

(** [fs.moveSync] of fs-extra, which does not overwrite. *)
Definition moveSync (src dst : jsstring) : M unit :=
  f <- gets (λ s, fs (host s));
  if bool_decide (src ∈ denied f) || bool_decide (dst ∈ denied f) then throw EACCES
  else match files f !! src with
       | None => throw ENOENT
       | Some text =>
           match files f !! dst with
           | Some _ => throw EEXIST
           | None =>
               modify (with_host (set_fs {| files := <[dst := text]> (delete src (files f));
                                            denied := denied f |}))
           end
       end.

(** The number of bytes of a string in UTF-8. *)
Fixpoint utf8_length (s : jsstring) : N :=
  match s with
  | [] => 0
  | c :: r =>
      (if c <? 128 then 1 + utf8_length r
       else if c <? 2048 then 2 + utf8_length r
       else if (55296 <=? c) && (c <? 56320) then
         match r with
         | d :: r' => if (56320 <=? d) && (d <? 57344) then 4 + utf8_length r'
                      else 3 + utf8_length r
         | [] => 3
         end
       else 3 + utf8_length r)%N
  end.

(** [fs.statSync (p).size] *)
Definition statSync_size (p : jsstring) : M N :=
  f <- gets (λ s, fs (host s));
  match files f !! p with
  | Some text => ret (utf8_length text)
  | None => throw ENOENT
  end.

(** [setTimeout (callback, delay)]: the handle of the new timer.  The class
    has one callback, [on_timer] below, so a timer is its handle and its time. *)
Definition setTimeout (delay : nat) : M nat :=
  w <- gets host;
  let id := next_timer w in
  modify (with_host (set_timers (timers w ++ [(id, clock w + delay + timer_lateness id)])
                                (S id)));;
  ret id.

Definition clearTimeout (h : option nat) : M unit :=
  match h with
  | None => ret ()
  | Some id =>
      modify (with_host (λ w, set_timers (List.filter (λ t, negb (t.1 =? id)) (timers w))
                                         (next_timer w) w))
  end.

(** [writeFileAtomic (path, text, callback)]: the write is started; it ends,
    and calls back, at a later tick. *)
Definition writeFileAtomic (p : jsstring) (text : option jsstring) : M unit :=
  modify (with_host (λ w,
    set_write_log ((clock w, p, text) :: write_log w)
      (set_inflight (inflight w ++ [{| w_due := clock w + S (write_duration (length (write_log w)));
                                       w_path := p; w_text := text |}]) w))).

(** [this.emit (name, payload)]: the event is recorded.  Its listeners are
    not of the class; they are taken to return. *)
Definition emit (name : jsstring) (payload : jsval) : M unit :=
  modify (with_host (λ w, set_emitted (emitted w ++ [(name, payload)]) w)).

Definition ipcMain_on (channel : jsstring) : M unit :=
  modify (with_host (λ w, set_ipc_channels (ipc_channels w ++ [channel]) w)).

(** ** The class *)

Definition db_file (bucketName : jsstring) : jsstring := bucketName ++ js "_db.json".

(** [_migrateFrom3v1v3] *)
Definition _migrateFrom3v1v3 (bucketName : jsstring) : M unit :=
  try_catch
    ((match pkg_major with
      | Some v => if (4 <=? v)%N
                  then console_warn (js "Deprication Warning. Remove _migrateFrom3v1v3")
                  else ret ()
      | None => ret ()
      end);;
     if bool_decide (platform ≠ js "win32") then ret ()
     else
       p <- gets (λ s, __path__ (this s));
       present <- existsSync p;
       if negb present then
         let oldPath := path_join oldDbPath (db_file bucketName) in
         legacy <- existsSync oldPath;
         if legacy then moveSync oldPath p else ret ()
       else ret ())
    (λ ex, console_warn (js "3.1.3 Migration failed")).

(** [_loadFromDiskSync] *)
Definition _loadFromDiskSync : M unit :=
  p <- gets (λ s, __path__ (this s));
  data <- try_catch (readFileSync p) (λ ex, ret (js "{}"));
  try_catch
    (match JSON_parse data with
     | Some v => modify (with_this (set_data v))
     | None => throw SyntaxError
     end)
    (λ ex, modify (with_this (set_data (JObject Plain [])))).

(** [_writeToDisk]: the pending timer is cleared and a new one is armed. *)
Definition _writeToDisk : M unit :=
  h <- gets (λ s, __writeHold__ (this s));
  clearTimeout h;;
  id <- setTimeout DB_WRITE_DELAY_MS;
  modify (with_this (set_writeHold (Some id))).

(** The callback that [_writeToDisk] gives to [setTimeout]. *)
Definition on_timer : M unit :=
  lock <- gets (λ s, __writeLock__ (this s));
  if lock then _writeToDisk
  else
    modify (with_this (set_writeLock true));;
    b <- gets this;
    writeFileAtomic (__path__ b) (JSON_stringify (__data__ b)).

(** The callback that [on_timer] gives to [writeFileAtomic]. *)
Definition on_written : M unit :=
  modify (with_this (set_writeLock false)).

(** [getItem (k, d)] *)
Definition getItem (k : jsstring) (d : jsval) : M jsval :=
  data <- gets (λ s, __data__ (this s));
  json <- lift (js_get data k);
  ret (js_or json d).

(** [getJSONItem (k, d)] *)
Definition getJSONItem (k : jsstring) (d : jsval) : M jsval :=
  item <- getItem k JUndefined;
  try_catch
    (if truthy item then
       match JSON_parse (ToString item) with
       | Some v => ret v
       | None => throw SyntaxError
       end
     else ret d)
    (λ ex, ret (JObject Plain [])).

(** [allKeys ()] *)
Definition allKeys : M (list jsstring) :=
  data <- gets (λ s, __data__ (this s));
  lift (js_keys data).

(** [keys.reduce ((acc, key) => ..., {})] *)
Fixpoint reduce (f : table → jsstring → M table) (keys : list jsstring) (acc : table)
  : M table :=
  match keys with
  | [] => ret acc
  | key :: r => acc' <- f acc key; reduce f r acc'
  end.

(** [allItems ()] *)
Definition allItems : M jsval :=
  keys <- allKeys;
  acc <- reduce (λ acc key, v <- getItem key JUndefined; ret (tbl_assign acc key v)) keys [];
  ret (JObject Plain acc).

(** [allJSONItems ()] *)
Definition allJSONItems : M jsval :=
  keys <- allKeys;
  acc <- reduce (λ acc key, v <- getJSONItem key JUndefined; ret (tbl_assign acc key v)) keys [];
  ret (JObject Plain acc).

(** [getFileSize ()] *)
Definition getFileSize : M jsval :=
  p <- gets (λ s, __path__ (this s));
  n <- statSync_size p;
  ret (JNumber (num_of_N n)).

(** [getKeyLengths ()]; first the function that it reduces with. *)
Definition getKeyLengths_reducer (acc : table) (key : jsstring) : M table :=
  item <- getItem key JUndefined;
  if truthy item then
    len <- lift (js_length item);
    ret (tbl_assign acc key len)
  else ret acc.

Definition getKeyLengths : M jsval :=
  keys <- allKeys;
  acc <- reduce getKeyLengths_reducer keys [];
  ret (JObject Plain acc).

(** [getStats ()] *)
Definition getStats : M jsval :=
  filesize <- getFileSize;
  keyLengths <- getKeyLengths;
  data <- gets (λ s, __data__ (this s));
  dataSize <- match JSON_stringify data with
             | Some text => ret (JNumber (num_of_N (N.of_nat (length text))))
             | None => throw TypeError
             end;
  ret (JObject Plain [(js "filesize", filesize); (js "keyLengths", keyLengths);
                      (js "dataSize", dataSize)]).

(** [_setItem (k, v)] *)
Definition _setItem (k : jsstring) (v : jsval) : M jsval :=
  data <- gets (λ s, __data__ (this s));
  data' <- lift (js_put_string data k (ToString v));
  modify (with_this (set_data data'));;
  _writeToDisk;;
  emit (js "changed") (JObject Plain [(js "type", JString (js "setItem")); (js "key", JString k)]);;
  emit (js "changed:" ++ k) (JObject Plain []);;
  ret v.

(** [_removeItem (k)] *)
Definition _removeItem (k : jsstring) : M jsval :=
  data <- gets (λ s, __data__ (this s));
  data' <- lift (js_delete data k);
  modify (with_this (set_data data'));;
  _writeToDisk;;
  emit (js "changed")
       (JObject Plain [(js "type", JString (js "removeItem")); (js "key", JString k)]);;
  emit (js "changed:" ++ k) (JObject Plain []);;
  ret JUndefined.

Definition ipc_channel (bucketName : jsstring) (op : string) : jsstring :=
  js "storageBucket:" ++ bucketName ++ js ":" ++ js op.

(** [new StorageBucket (bucketName)] in a world [w]. *)
Definition constructor (bucketName : jsstring) (w : world) : outcome unit * sys :=
  (_migrateFrom3v1v3 bucketName;;
   _loadFromDiskSync;;
   ipcMain_on (ipc_channel bucketName "setItem");;
   ipcMain_on (ipc_channel bucketName "removeItem");;
   ipcMain_on (ipc_channel bucketName "getItem");;
   ipcMain_on (ipc_channel bucketName "allKeys");;
   ipcMain_on (ipc_channel bucketName "allItems");;
   ipcMain_on (ipc_channel bucketName "getStats");;
   ipcMain_on (ipc_channel bucketName "measurePerformance"))
    {| this := {| __path__ := path_join dbPath (db_file bucketName);
                  __writeHold__ := None;
                  __writeLock__ := false;
                  __data__ := JUndefined;
                  __ipcReplyChannel__ := ipc_channel bucketName "reply" |};
       host := w |}.

(** ** The event loop *)

(** The file system after a write has ended: the file has the text, unless
    the write failed. *)
Definition written (pw : pending_write) (f : fsys) : fsys :=
  match w_text pw with
  | Some text =>
      if bool_decide (w_path pw ∈ denied f) then f
      else {| files := <[w_path pw := text]> (files f); denied := denied f |}
  | None => f
  end.

(** A write ends, and its callback runs. *)
Definition complete_write (pw : pending_write) : M unit :=
  modify (with_host (λ w, set_fs (written pw (fs w)) w));;
  on_written.

(** A timer that is still armed and due fires: it leaves the table and its
    callback runs. *)
Definition run_timer (t : nat * nat) : M unit :=
  w <- gets host;
  if existsb (λ t', t'.1 =? t.1) (timers w) && (t.2 <=? clock w) then
    modify (with_host (set_timers (List.filter (λ t', negb (t'.1 =? t.1)) (timers w))
                                  (next_timer w)));;
    on_timer
  else ret ().

Fixpoint for_each {A} (f : A → M unit) (l : list A) : M unit :=
  match l with
  | [] => ret ()
  | a :: r => f a;; for_each f r
  end.

(** One turn of the loop: the clock advances, the writes that have ended call
    back, then the timers that are due fire. *)
Definition turn : M unit :=
  modify (with_host (λ w, set_clock (S (clock w)) w));;
  w <- gets host;
  let ended := List.filter (λ pw, w_due pw <=? clock w) (inflight w) in
  modify (with_host (set_inflight (List.filter (λ pw, negb (w_due pw <=? clock w)) (inflight w))));;
  for_each complete_write ended;;
  w' <- gets host;
  for_each run_timer (timers w').

Definition tick (s : sys) : sys := (turn s).2.

Fixpoint ticks (n : nat) (s : sys) : sys :=
  match n with
  | O => s
  | S n' => ticks n' (tick s)
  end.

(** ** Histories *)

Inductive mutation :=
| SetItem (k : jsstring) (v : jsval)
| RemoveItem (k : jsstring).

Definition mutate (m : mutation) : M jsval :=
  match m with
  | SetItem k v => _setItem k v
  | RemoveItem k => _removeItem k
  end.

(** A burst: each mutation comes a number of ticks after the one before. *)
Fixpoint burst (l : list (nat * mutation)) (s : sys) : sys :=
  match l with
  | [] => s
  | (gap, m) :: r => burst r (mutate m (ticks gap s)).2
  end.

(** What holds of the timer and of the lock between two events: the only
    timer that can be armed is the one [__writeHold__] names, and the lock is
    held exactly while one write is under way. *)
Definition well_formed (s : sys) : bool :=
  match timers (host s) with
  | [] => true
  | [t] => bool_decide (__writeHold__ (this s) = Some t.1)
  | _ => false
  end
  && match inflight (host s) with
     | [] => negb (__writeLock__ (this s))
     | [_] => __writeLock__ (this s)
     | _ => false
     end.

(** The data is an object used as a map. *)
Definition plain_data (s : sys) : option table :=
  match __data__ (this s) with
  | JObject Plain t => Some t
  | _ => None
  end.

(** The content that a read of a file finds. *)
Definition file_text (f : fsys) (p : jsstring) : option jsstring :=
  if bool_decide (p ∈ denied f) then None else files f !! p.

(** What happens to a bucket after its construction: a mutation, or a turn
    of the event loop. *)
Inductive event :=
| Mutate (m : mutation)
| Turn.

Definition react (e : event) (s : sys) : sys :=
  match e with
  | Mutate m => (mutate m s).2
  | Turn => tick s
  end.

Definition run (l : list event) (s : sys) : sys := fold_left (λ s e, react e s) l s.

(** The value that the event stores, if it stores one, has a string form. *)
Definition stringable_event (e : event) : bool :=
  match e with
  | Mutate (SetItem _ v) => stringable v
  | _ => true
  end.

(** The data is an object whose values are all strings. *)
Definition strings_only (v : jsval) : bool :=
  match v with
  | JObject Plain t => all_strings t
  | _ => false
  end.

(** A statement keeps a property of the state, whether it returns or throws. *)
Definition preserves {A} (P : sys → Prop) (m : M A) : Prop :=
  ∀ s, P s → P (m s).2.

(** From state [s] on, and with no further mutation, one write is started,
    [T] ticks later: up to then the log of the writes is that of [s], from
    then on it has one more entry, the write of the data of [s]. *)
Definition one_write_after (s : sys) (T : nat) : Prop :=
  (∀ n, n < T → write_log (host (ticks n s)) = write_log (host s))
  ∧ (∀ n, T ≤ n →
       write_log (host (ticks n s))
       = (clock (host s) + T, __path__ (this s), JSON_stringify (__data__ (this s)))
         :: write_log (host s)).

(** The write is started at the [T]-th tick after [s], not before, and
    leaves no timer armed. *)
Definition flush_at (s : sys) (T : nat) : Prop :=
  (∀ n, n < T → write_log (host (ticks n s)) = write_log (host s))
  ∧ write_log (host (ticks T s))
    = (clock (host s) + T, __path__ (this s), JSON_stringify (__data__ (this s)))
      :: write_log (host s)
  ∧ timers (host (ticks T s)) = []
  ∧ well_formed (ticks T s) = true.

(** The state after a mutation that has stored [d] as the data: the timer is
    armed again and the two events are emitted. *)
Definition mutated (d : jsval) (events : list (jsstring * jsval)) (s : sys) : sys :=
  with_host (λ w, set_emitted (emitted w ++ events) w)
            (_writeToDisk (with_this (set_data d) s)).2.

(** The table that a mutation makes of a table. *)
Definition mutated_table (m : mutation) (t : table) : table :=
  match m with
  | SetItem k v => tbl_assign t k (JString (ToString v))
  | RemoveItem k => tbl_delete t k
  end.

(** One step of the reduction in [getKeyLengths]. *)
Definition key_lengths_step (t : table) (acc : table) (key : jsstring) : table :=
  match tbl_get t key with
  | Some v => if truthy v
              then match js_length v with
                   | Ok len => tbl_assign acc key len
                   | Throw _ => acc
                   end
              else acc
  | None => acc
  end.


(** ** The two steps of the construction, as functions of the file system *)

(** The file system that [_migrateFrom3v1v3] leaves. *)
Definition migrated (bucketName : jsstring) (f : fsys) : fsys :=
  let p := path_join dbPath (db_file bucketName) in
  let old := path_join oldDbPath (db_file bucketName) in
  if bool_decide (platform = js "win32") then
    match files f !! p, files f !! old with
    | None, Some text =>
        if bool_decide (old ∈ denied f) || bool_decide (p ∈ denied f) then f
        else {| files := <[p := text]> (delete old (files f)); denied := denied f |}
    | _, _ => f
    end
  else f.

(** What [_migrateFrom3v1v3] writes to the console. *)
Definition migration_warnings (bucketName : jsstring) (f : fsys) : list jsstring :=
  let p := path_join dbPath (db_file bucketName) in
  let old := path_join oldDbPath (db_file bucketName) in
  match pkg_major with
  | Some v => if (4 <=? v)%N then [js "Deprication Warning. Remove _migrateFrom3v1v3"]
              else []
  | None => []
  end
  ++ if bool_decide (platform = js "win32") then
       match files f !! p, files f !! old with
       | None, Some _ =>
           if bool_decide (old ∈ denied f) || bool_decide (p ∈ denied f)
           then [js "3.1.3 Migration failed"] else []
       | _, _ => []
       end
     else [].

(** The data that [_loadFromDiskSync] finds at a path. *)
Definition loaded (f : fsys) (p : jsstring) : jsval :=
  match file_text f p with
  | Some text => default (JObject Plain []) (JSON_parse text)
  | None => JObject Plain []
  end.

(** ** The requests over IPC *)

(** [_setItem (k, v)] and [_removeItem (k)] for a key that is any value, as a
    request gives it: the property has the string form of the key, the event
    [changed] carries the key as it came. *)
Definition _setItem_any (k v : jsval) : M jsval :=
  data <- gets (λ s, __data__ (this s));
  data' <- lift (js_put_string data (ToPropertyKey k) (ToString v));
  modify (with_this (set_data data'));;
  _writeToDisk;;
  emit (js "changed") (JObject Plain [(js "type", JString (js "setItem")); (js "key", k)]);;
  emit (js "changed:" ++ ToString k) (JObject Plain []);;
  ret v.

Definition _removeItem_any (k : jsval) : M jsval :=
  data <- gets (λ s, __data__ (this s));
  data' <- lift (js_delete data (ToPropertyKey k));
  modify (with_this (set_data data'));;
  _writeToDisk;;
  emit (js "changed") (JObject Plain [(js "type", JString (js "removeItem")); (js "key", k)]);;
  emit (js "changed:" ++ ToString k) (JObject Plain []);;
  ret JUndefined.

(** The event that [ipcMain] gives to a listener, as far as the class uses
    it: [returnValue], which answers a synchronous request, and the messages
    that [sender.send] has been given, the channel first. *)
Record ipc_event := {
  returnValue : jsval;
  sent : list (jsstring * jsval)
}.

(** [_sendIPCResponse (evt, response, sendSync = false)]; [evt.sender.send]
    is taken to return. *)
Definition _sendIPCResponse (evt : ipc_event) (response sendSync : jsval) : M ipc_event :=
  if truthy sendSync then
    ret {| returnValue := response; sent := sent evt |}
  else
    channel <- gets (λ s, __ipcReplyChannel__ (this s));
    ret {| returnValue := returnValue evt; sent := sent evt ++ [(channel, response)] |}.

(** [_handleIPCSetItem (evt, body)] *)
Definition _handleIPCSetItem (evt : ipc_event) (body : jsval) : M ipc_event :=
  key <- lift (js_get body (js "key"));
  value <- lift (js_get body (js "value"));
  _setItem_any key value;;
  id <- lift (js_get body (js "id"));
  sync <- lift (js_get body (js "sync"));
  _sendIPCResponse evt (JObject Plain [(js "id", id); (js "response", JNull)]) sync.

(** [_handleIPCRemoveItem (evt, body)] *)
Definition _handleIPCRemoveItem (evt : ipc_event) (body : jsval) : M ipc_event :=
  key <- lift (js_get body (js "key"));
  _removeItem_any key;;
  id <- lift (js_get body (js "id"));
  sync <- lift (js_get body (js "sync"));
  _sendIPCResponse evt (JObject Plain [(js "id", id); (js "response", JNull)]) sync.

(** [_handleIPCGetItem (evt, body)] *)
Definition _handleIPCGetItem (evt : ipc_event) (body : jsval) : M ipc_event :=
  id <- lift (js_get body (js "id"));
  key <- lift (js_get body (js "key"));
  response <- getItem (ToPropertyKey key) JUndefined;
  sync <- lift (js_get body (js "sync"));
  _sendIPCResponse evt (JObject Plain [(js "id", id); (js "response", response)]) sync.

(** [_handleIPCAllKeys (evt, body)]; the keys are sent as an array. *)
Definition _handleIPCAllKeys (evt : ipc_event) (body : jsval) : M ipc_event :=
  id <- lift (js_get body (js "id"));
  keys <- allKeys;
  sync <- lift (js_get body (js "sync"));
  _sendIPCResponse evt
    (JObject Plain [(js "id", id); (js "response", make_array (map JString keys))]) sync.

(** [_handleIPCAllItems (evt, body)] *)
Definition _handleIPCAllItems (evt : ipc_event) (body : jsval) : M ipc_event :=
  id <- lift (js_get body (js "id"));
  response <- allItems;
  sync <- lift (js_get body (js "sync"));
  _sendIPCResponse evt (JObject Plain [(js "id", id); (js "response", response)]) sync.

(** [_handleIPCGetStats (evt, body)] *)
Definition _handleIPCGetStats (evt : ipc_event) (body : jsval) : M ipc_event :=
  id <- lift (js_get body (js "id"));
  response <- getStats;
  sync <- lift (js_get body (js "sync"));
  _sendIPCResponse evt (JObject Plain [(js "id", id); (js "response", response)]) sync.

(** The requests that the constructor listens to, and the listener of each. *)
Inductive request :=
| SetItemRequest
| RemoveItemRequest
| GetItemRequest
| AllKeysRequest
| AllItemsRequest
| GetStatsRequest.

Definition listener (r : request) : ipc_event → jsval → M ipc_event :=
  match r with
  | SetItemRequest => _handleIPCSetItem
  | RemoveItemRequest => _handleIPCRemoveItem
  | GetItemRequest => _handleIPCGetItem
  | AllKeysRequest => _handleIPCAllKeys
  | AllItemsRequest => _handleIPCAllItems
  | GetStatsRequest => _handleIPCGetStats
  end.

(** The answer to a request: set as the value of a synchronous one, sent on
    the channel of the replies otherwise. *)
Definition answered (evt : ipc_event) (channel : jsstring) (sync reply : jsval)
  : ipc_event :=
  if truthy sync then {| returnValue := reply; sent := sent evt |}
  else {| returnValue := returnValue evt; sent := sent evt ++ [(channel, reply)] |}.

(** ** What a mutation adds to the events *)

Definition changed_events (m : mutation) : list (jsstring * jsval) :=
  match m with
  | SetItem k v =>
      [(js "changed", JObject Plain [(js "type", JString (js "setItem"));
                                     (js "key", JString k)]);
       (js "changed:" ++ k, JObject Plain [])]
  | RemoveItem k =>
      [(js "changed", JObject Plain [(js "type", JString (js "removeItem"));
                                     (js "key", JString k)]);
       (js "changed:" ++ k, JObject Plain [])]
  end.

(** The table that a history makes of a table: the mutations, in their
    order; the turns of the loop do not count. *)
Definition replay (l : list event) (t : table) : table :=
  fold_left (λ t e, match e with
                    | Mutate m => mutated_table m t
                    | Turn => t
                    end) l t.

(** The entry of [allItems ()] and of [allJSONItems ()] for a stored value. *)
Definition item_of (v : jsval) : jsval := if truthy v then v else JUndefined.

Definition json_item_of (v : jsval) : jsval :=
  if truthy v then default (JObject Plain []) (JSON_parse (ToString v)) else JUndefined.

End Bucket.

(** ** Measures

    [measurePerformance] reads the clock before and after a call.  How long a
    call takes is given by an oracle, as a function of the time at which it
    starts. *)
Class Stopwatch := {
  (** the time that a call of [JSON.stringify] takes *)
  stringify_ms : nat → nat;
  (** the time that a call of [writeFileAtomic.sync] takes *)
  write_sync_ms : nat → nat
}.

Section Performance.
Context {NUM : JSNumber} {HOST : Host} {WATCH : Stopwatch}.

Notation "x <- y ; z" := (bind y (λ x, z))
  (at level 20, y at level 100, z at level 200, only parsing).

(** [new Date ().getTime ()] *)
Definition Date_getTime : M nat := gets (λ s, clock (host s)).

Definition elapse (d : nat) : M unit :=
  modify (with_host (λ w, set_clock (clock w + d) w)).

(** [JSON.stringify (v)], with the time that it takes. *)
Definition timed_stringify (v : jsval) : M (option jsstring) :=
  now <- Date_getTime;
  elapse (stringify_ms now);;
  ret (JSON_stringify v).

(** [writeFileAtomic.sync (p, text)]: the file has the text when the call
    returns; the call throws when the file cannot be written, and when the
    text is undefined. *)
Definition writeFileAtomic_sync (p : jsstring) (text : option jsstring) : M unit :=
  now <- Date_getTime;
  elapse (write_sync_ms now);;
  f <- gets (λ s, fs (host s));
  match text with
  | None => throw TypeError
  | Some t =>
      if bool_decide (p ∈ denied f) then throw EACCES
      else modify (with_host (set_fs {| files := <[p := t]> (files f); denied := denied f |}))
  end.

(** [for (let i = 0; i < n; i++) { results.push (body) }] *)
Fixpoint collect (n : nat) (body : M jsval) : M (list jsval) :=
  match n with
  | O => ret []
  | S n' => r <- body; rs <- collect n' body; ret (r :: rs)
  end.

(** [finish - start] *)
Definition elapsed (start finish : nat) : jsval :=
  JNumber (num_of_N (N.of_nat (finish - start))).

(** What [JSON.stringify] has returned, as a value. *)
Definition text_value (text : option jsstring) : jsval :=
  match text with
  | Some t => JString t
  | None => JUndefined
  end.

Definition measure_serialize : M jsval :=
  start <- Date_getTime;
  d <- gets (λ s, __data__ (this s));
  timed_stringify d;;
  finish <- Date_getTime;
  ret (elapsed start finish).

Definition measure_flush : M jsval :=
  d <- gets (λ s, __data__ (this s));
  data <- timed_stringify d;
  p <- gets (λ s, __path__ (this s));
  let testPath := p ++ js ".measure" in
  start <- Date_getTime;
  text <- timed_stringify (text_value data);
  writeFileAtomic_sync testPath text;;
  finish <- Date_getTime;
  ret (elapsed start finish).

Definition measure_both : M jsval :=
  p <- gets (λ s, __path__ (this s));
  let testPath := p ++ js ".measure" in
  start <- Date_getTime;
  d <- gets (λ s, __data__ (this s));
  text <- timed_stringify d;
  writeFileAtomic_sync testPath text;;
  finish <- Date_getTime;
  ret (elapsed start finish).

(** [measurePerformance (runs = 20)], for [runs] undefined ([None]) or a
    natural number. *)
Definition measurePerformance (runs : option nat) : M jsval :=
  let runs := default 20 runs in
  serialize <- collect runs measure_serialize;
  flush <- collect runs measure_flush;
  both <- collect runs measure_both;
  ret (JObject Plain [(js "serialize", make_array serialize);
                      (js "flush", make_array flush);
                      (js "both", make_array both)]).

(** What a measure leaves as it was: the bucket, the timers, the writes
    under way and their log, the events, the console and the permissions. *)
Definition same_but_clock_and_files (s s' : sys) : Prop :=
  this s' = this s
  ∧ timers (host s') = timers (host s)
  ∧ next_timer (host s') = next_timer (host s)
  ∧ inflight (host s') = inflight (host s)
  ∧ write_log (host s') = write_log (host s)
  ∧ emitted (host s') = emitted (host s)
  ∧ console (host s') = console (host s)
  ∧ ipc_channels (host s') = ipc_channels (host s)
  ∧ denied (fs (host s')) = denied (fs (host s)).

End Performance.

End StorageBucket.

(** * Scenarios

    The theorems below hold for every model of Number and for every host.
    The scenarios run the definitions on one of each. *)

Module Scenario.
Import JS StorageBucket.

(** The integers as a model of Number: exact on lengths and on the integer
    literals below 2^53, which is all that the scenarios use; the fraction and
    the exponent of a literal are dropped. *)
Definition integers : JSNumber := {|
  number := Z;
  num_of_N := Z.of_N;
  num_truthy z := negb (z =? 0)%Z;
  num_to_string z := js (NilZero.string_of_int (Z.to_int z));
  num_of_literal lit :=
    match lit with
    | 45%N :: r => (- Z.of_N (default 0%N (digits_value 0 (span_digits r).1)))%Z
    | _ => Z.of_N (default 0%N (digits_value 0 (span_digits lit).1))
    end;
  num_finite _ := true;
  array_length_of_string s := match s with [] => None | _ => digits_value 0 s end
|}.

(** Two hosts, with a delay of 5 ticks, timers that fire on time and writes
    that take 13 ticks. *)
Definition windows : Host := {|
  pkg_major := Some 3%N;
  platform := js "win32";
  dbPath := js "C:/Users/me/AppData/Roaming/wavebox";
  oldDbPath := js "C:/Users/me/AppData/Local/wavebox";
  path_join a b := a ++ js "/" ++ b;
  DB_WRITE_DELAY_MS := 5;
  timer_lateness _ := 0;
  write_duration _ := 12
|}.

Definition linux : Host := {|
  pkg_major := Some 3%N;
  platform := js "linux";
  dbPath := js "/home/me/.config/wavebox";
  oldDbPath := js "/home/me/.wavebox";
  path_join a b := a ++ js "/" ++ b;
  DB_WRITE_DELAY_MS := 5;
  timer_lateness _ := 0;
  write_duration _ := 12
|}.

(** A JSON text, written with apostrophes for its double quotes. *)
Definition json (s : string) : jsstring :=
  map (λ c, if (c =? 39)%N then 34%N else c) (js s).

(** A world at rest with one file. *)
Definition world_with (path text : jsstring) : @world integers :=
  {| clock := 0; timers := []; next_timer := 1; inflight := [];
     fs := {| files := {[ path := text ]}; denied := ∅ |};
     console := []; emitted := []; ipc_channels := []; write_log := [] |}.

Definition user_db : jsstring := js "/home/me/.config/wavebox/user_db.json".
Definition old_user_db : jsstring := js "/home/me/.wavebox/user_db.json".
Definition roaming_db : jsstring := js "C:/Users/me/AppData/Roaming/wavebox/user_db.json".
Definition local_db : jsstring := js "C:/Users/me/AppData/Local/wavebox/user_db.json".

(** The bucket [user] on linux, over a file with the given text. *)
Definition user_bucket (text : string) : @sys integers :=
  (@constructor integers linux (js "user") (world_with user_db (json text))).2.

(** A burst: [theme] is set, [zoom] is set 3 ticks later, and [theme] is
    removed 4 ticks after that. *)
Definition first_mutation : @mutation integers :=
  SetItem (js "theme") (JString (js "dark")).

Definition later_mutations : list (nat * @mutation integers) :=
  [(3, SetItem (js "zoom") (@JNumber integers 2%Z)); (4, RemoveItem (js "theme"))].

(** A state in which the timer is due at the next tick while a write is under
    way: [a] is set at time 0 and written from time 5 to time 18; [b] is set
    at time 5, so that its timer is due at time 10; the clock shows 9. *)
Definition busy_state : @sys integers :=
  @ticks integers linux 4
    (@_setItem integers linux (js "b") (JString (js "2"))
       (@ticks integers linux 5
          (@_setItem integers linux (js "a") (JString (js "1")) (user_bucket "{}")).2)).2.

Definition write_under_way : pending_write :=
  {| w_due := 18; w_path := user_db; w_text := Some (json "{'a':'1'}") |}.

(** The empty bucket after [theme] has been set: the timer is armed for
    time 5. *)
Definition theme_set : @sys integers :=
  (@_setItem integers linux (js "theme") (JString (js "dark")) (user_bucket "{}")).2.

(** A history: a key is set and written, and removed during the write. *)
Definition history : list (@event integers) :=
  Mutate first_mutation :: repeat Turn 6 ++ Mutate (RemoveItem (js "theme")) :: repeat Turn 6.

(** The bucket of the statistics, and its table. *)
Definition stats_bucket : @sys integers := user_bucket "{'a':'1','bb':'22','e':''}".

Definition stats_table : list (jsstring * @jsval integers) :=
  [(js "a", JString (js "1")); (js "bb", JString (js "22")); (js "e", JString [])].

(** A bucket whose values are a JSON text, a text that is not JSON, and the
    empty string. *)
Definition texts_bucket : @sys integers := user_bucket "{'a':'[1]','b':'oops','e':''}".

Definition texts_table : list (jsstring * @jsval integers) :=
  [(js "a", JString (js "[1]")); (js "b", JString (js "oops")); (js "e", JString [])].

(** A world at rest with two files. *)
Definition world_with_both (path text path' text' : jsstring) : @world integers :=
  {| clock := 0; timers := []; next_timer := 1; inflight := [];
     fs := {| files := <[path' := text']> {[ path := text ]}; denied := ∅ |};
     console := []; emitted := []; ipc_channels := []; write_log := [] |}.

(** A world at rest whose disk is empty and refuses one path. *)
Definition world_refusing (path : jsstring) : @world integers :=
  {| clock := 0; timers := []; next_timer := 1; inflight := [];
     fs := {| files := ∅; denied := {[ path ]} |};
     console := []; emitted := []; ipc_channels := []; write_log := [] |}.

(** The bucket [user] on linux, when its file cannot be written, and when
    the file of its measures cannot. *)
Definition refused_bucket : @sys integers :=
  (@constructor integers linux (js "user") (world_refusing user_db)).2.

Definition unmeasured_bucket : @sys integers :=
  (@constructor integers linux (js "user") (world_refusing (user_db ++ js ".measure"))).2.

(** A stopwatch: [JSON.stringify] takes 1 tick, a synchronous write 3. *)
Definition stopwatch : Stopwatch := {| stringify_ms _ := 1; write_sync_ms _ := 3 |}.

(** An event that has not been answered, and three requests: a synchronous
    one that sets the key 1, a number, to true; one that gets the key [1], a
    string; and a synchronous one for the statistics. *)
Definition fresh_event : @ipc_event integers := {| returnValue := JUndefined; sent := [] |}.

Definition set_request : @jsval integers :=
  JObject Plain [(js "id", @JNumber integers 7%Z); (js "key", @JNumber integers 1%Z);
                 (js "value", JBool true); (js "sync", JBool true)].

Definition get_request : @jsval integers :=
  JObject Plain [(js "id", @JNumber integers 8%Z); (js "key", JString (js "1"))].

Definition stats_request : @jsval integers :=
  JObject Plain [(js "id", @JNumber integers 9%Z); (js "sync", JBool true)].

End Scenario.

(** * Facts about the runtime *)

Section JSON_facts.
Import JS.
Context {NUM : JSNumber}.
Local Open Scope N_scope.

Abbreviation table := (list (jsstring * jsval)).

(** ** Property tables *)

Lemma tbl_get_put_eq (t : table) k v : tbl_get (tbl_put t k v) k = Some v.
Proof.
  induction t as [|[k' v'] t IH]; cbn [tbl_put tbl_get].
  - by rewrite decide_True.
  - destruct (decide (k = k')) as [->|Hne]; cbn [tbl_get].
    + by rewrite decide_True.
    + destruct (key_before k k'); cbn [tbl_get].
      * by rewrite decide_True.
      * by rewrite decide_False.
Qed.


(** An assignment is [tbl_put], or nothing. *)
Lemma tbl_assign_cases (t : table) k v :
  (tbl_assign t k v = tbl_put t k v ∧ (k ≠ js "__proto__" ∨ is_Some (tbl_get t k)))
  ∨ (tbl_assign t k v = t ∧ k = js "__proto__" ∧ tbl_get t k = None).
Proof.
  unfold tbl_assign. destruct (decide (k = js "__proto__")) as [->|Hne].
  - destruct (tbl_get t _) eqn:Hk; [left|right]; by split; [|try right].
  - left. by split; [|left].
Qed.

Lemma tbl_assign_put (t : table) k v : k ≠ js "__proto__" → tbl_assign t k v = tbl_put t k v.
Proof. intros Hne. unfold tbl_assign. by rewrite decide_False. Qed.

Lemma tbl_assign_own (t : table) k v :
  is_Some (tbl_get t k) → tbl_assign t k v = tbl_put t k v.
Proof. intros [x Hx]. unfold tbl_assign. case_decide; [by rewrite Hx|done]. Qed.

Lemma tbl_get_assign_eq (t : table) k v :
  k ≠ js "__proto__" ∨ is_Some (tbl_get t k) → tbl_get (tbl_assign t k v) k = Some v.
Proof.
  intros [Hne|Hown]; [rewrite tbl_assign_put by done|rewrite tbl_assign_own by done];
    apply tbl_get_put_eq.
Qed.



Lemma key_precedes_ne k k' : key_precedes k k' = true → k ≠ k'.
Proof.
  unfold key_precedes. intros H ->.
  destruct (is_index k'); [rewrite N.ltb_irrefl in H; done|].
  by apply bool_decide_eq_true in H.
Qed.

Lemma key_precedes_not_before k k' : key_precedes k' k = true → key_before k k' = false.
Proof.
  unfold key_precedes, key_before.
  destruct (is_index k'), (is_index k); try done.
  intros H%N.ltb_lt. apply N.ltb_ge. lia.
Qed.

(** A key that comes after all the keys of a table is added at its end. *)
Lemma tbl_put_append (t : table) k v :
  forallb (λ k', key_precedes k' k) (map fst t) = true →
  tbl_put t k v = t ++ [(k, v)].
Proof.
  induction t as [|[k' v'] t IH]; [done|].
  cbn [map forallb fst tbl_put app]. intros [Hk Ht]%andb_true_iff.
  destruct (decide (k = k')) as [->|_].
  { by apply key_precedes_ne in Hk. }
  rewrite (key_precedes_not_before _ _ Hk), IH; done.
Qed.

Lemma canonical_app_precedes l1 k l2 :
  canonical (l1 ++ k :: l2) = true → forallb (λ k', key_precedes k' k) l1 = true.
Proof.
  induction l1 as [|a l1 IH]; [done|].
  cbn [app canonical forallb]. intros [Ha Hl]%andb_true_iff.
  rewrite forallb_app in Ha. cbn [forallb] in Ha.
  apply andb_true_iff in Ha as [_ [Hak _]%andb_true_iff].
  rewrite Hak, IH; done.
Qed.

(** Defining the members of a canonical table one after the other, as
    [JSON.parse] does, builds that table. *)
Lemma fold_put_canonical (ms acc : table) :
  canonical (map fst (acc ++ ms)) = true →
  fold_left (λ t m, tbl_put t m.1 m.2) ms acc = acc ++ ms.
Proof.
  revert acc. induction ms as [|[k v] ms IH]; intros acc Hc.
  { by rewrite app_nil_r. }
  cbn [fold_left fst snd].
  rewrite tbl_put_append.
  - rewrite IH; rewrite <- app_assoc; done.
  - rewrite map_app in Hc. cbn [map fst] in Hc.
    by apply canonical_app_precedes in Hc.
Qed.

(** ** String literals *)

Lemma hex4_quote c :
  c < 32 → hex4 48 48 (hex_digit (c / 16)) (hex_digit (c mod 16)) = Some c.
Proof.
  intros Hc.
  destruct c as [|p]; [reflexivity|].
  do 5 (destruct p as [p|p|]; try reflexivity); lia.
Qed.

Lemma parse_quote_char c t :
  parse_string_chars (quote_char c ++ t) = cons_char c <$> parse_string_chars t.
Proof.
  unfold quote_char.
  destruct (N.eqb_spec c 34) as [->|H34]; [reflexivity|].
  destruct (N.eqb_spec c 92) as [->|H92]; [reflexivity|].
  destruct (N.eqb_spec c 8) as [->|H8]; [reflexivity|].
  destruct (N.eqb_spec c 12) as [->|H12]; [reflexivity|].
  destruct (N.eqb_spec c 10) as [->|H10]; [reflexivity|].
  destruct (N.eqb_spec c 13) as [->|H13]; [reflexivity|].
  destruct (N.eqb_spec c 9) as [->|H9]; [reflexivity|].
  destruct (N.ltb_spec c 32) as [Hlt|Hge].
  - cbn [app parse_string_chars].
    change (92 =? 34) with false. change (92 =? 92) with true.
    change (117 =? 117) with true. cbv iota.
    rewrite hex4_quote by done. reflexivity.
  - cbn [app parse_string_chars].
    destruct (N.eqb_spec c 34); [done|]. destruct (N.eqb_spec c 92); [done|].
    destruct (N.ltb_spec c 32); [lia|]. reflexivity.
Qed.

(** Reading back a quoted string gives the string. *)
Lemma parse_string_chars_quote s rest :
  parse_string_chars (flat_map quote_char s ++ 34 :: rest) = Some (s, rest).
Proof.
  induction s as [|c s IH]; [reflexivity|].
  cbn [flat_map]. rewrite <- app_assoc, parse_quote_char, IH. reflexivity.
Qed.

(** ** Objects of strings *)

Lemma stringify_string_table M :
  JSON_stringify (JObject Plain (string_table M))
  = Some (123 :: join_with 44 (map member_text M) ++ [125]).
Proof.
  cbn [JSON_stringify]. do 4 f_equal.
  induction M as [|[k s] M IH]; [done|].
  cbn [string_table map fst snd JSON_stringify].
  rewrite <- IH. reflexivity.
Qed.

Lemma skip_ws_token c r : is_ws c = false → skip_ws (c :: r) = c :: r.
Proof. intros H. cbn. by rewrite H. Qed.

Lemma join_with_cons sep a b l :
  join_with sep (a :: b :: l) = a ++ sep :: join_with sep (b :: l).
Proof. done. Qed.

Lemma parse_value_eq fuel s :
  parse_value (S fuel) s =
  match s with
  | [] => None
  | c :: r =>
      if c =? 123 then
        match expect 125 (skip_ws r) with
        | Some r' => Some (JObject Plain [], r')
        | None => '(ms, r') ← parse_members fuel (skip_ws r); Some (make_object ms, r')
        end
      else if c =? 91 then
        match expect 93 (skip_ws r) with
        | Some r' => Some (make_array [], r')
        | None => '(vs, r') ← parse_elements fuel (skip_ws r); Some (make_array vs, r')
        end
      else if c =? 34 then
        '(str, r') ← parse_string_chars r; Some (JString str, r')
      else if c =? 116 then
        r' ← strip_prefix (js "true") s; Some (JBool true, r')
      else if c =? 102 then
        r' ← strip_prefix (js "false") s; Some (JBool false, r')
      else if c =? 110 then
        r' ← strip_prefix (js "null") s; Some (JNull, r')
      else
        '(lit, r') ← parse_number s; Some (JNumber (num_of_literal lit), r')
  end.
Proof. reflexivity. Qed.

Lemma parse_members_eq fuel s :
  parse_members (S fuel) s =
  r ← expect 34 s;
  '(k, r1) ← parse_string_chars r;
  r2 ← expect 58 (skip_ws r1);
  '(v, r3) ← parse_value fuel (skip_ws r2);
  match expect 44 (skip_ws r3) with
  | Some r4 => '(ms, r5) ← parse_members fuel (skip_ws r4); Some ((k, v) :: ms, r5)
  | None => r4 ← expect 125 (skip_ws r3); Some ([(k, v)], r4)
  end.
Proof. reflexivity. Qed.

Lemma parse_elements_eq fuel s :
  parse_elements (S fuel) s =
  '(v, r1) ← parse_value fuel s;
  match expect 44 (skip_ws r1) with
  | Some r2 => '(vs, r3) ← parse_elements fuel (skip_ws r2); Some (v :: vs, r3)
  | None => r2 ← expect 93 (skip_ws r1); Some ([v], r2)
  end.
Proof. reflexivity. Qed.

(** ** The fuel of the parser *)

Lemma skip_ws_length s : (length (skip_ws s) ≤ length s)%nat.
Proof.
  induction s as [|c s IH]; [done|]. cbn [skip_ws].
  destruct (is_ws c); cbn [length]; lia.
Qed.

Lemma parse_string_chars_length s str r :
  parse_string_chars s = Some (str, r) → (length r < length s)%nat.
Proof.
  remember (length s) as n eqn:Hn. assert (Hle : (length s ≤ n)%nat) by lia. clear Hn.
  revert s str r Hle. induction n as [|n IH]; intros s str r Hle.
  { destruct s; [done|cbn in Hle; lia]. }
  destruct s as [|c s]; [done|]. cbn [parse_string_chars length] in *.
  destruct (c =? 34); [intros [= <- <-]; lia|].
  destruct (c =? 92).
  - destruct s as [|e s]; [done|]. cbn [length] in *.
    destruct (e =? 117).
    + destruct s as [|h1 [|h2 [|h3 [|h4 s]]]]; try done. cbn [length] in *.
      destruct (hex4 h1 h2 h3 h4); [|done].
      destruct (parse_string_chars s) as [[str' r']|] eqn:Hp; [|done].
      intros [= <- <-]. apply IH in Hp; [cbn; lia|lia].
    + destruct (unescape e); [|done].
      destruct (parse_string_chars s) as [[str' r']|] eqn:Hp; [|done].
      intros [= <- <-]. apply IH in Hp; [cbn; lia|lia].
  - destruct (c <? 32); [done|].
    destruct (parse_string_chars s) as [[str' r']|] eqn:Hp; [|done].
    intros [= <- <-]. apply IH in Hp; [cbn; lia|lia].
Qed.

Lemma span_digits_length s : (length (span_digits s).2 ≤ length s)%nat.
Proof.
  induction s as [|c s IH]; [done|]. cbn [span_digits].
  destruct (is_digit c); cbn [cons_char snd length] in *; lia.
Qed.

Lemma digits1_length s ds r : digits1 s = Some (ds, r) → (length r ≤ length s)%nat.
Proof.
  unfold digits1. pose proof (span_digits_length s) as H.
  destruct (span_digits s) as [[|d ds'] r']; [done|]. intros [= <- <-]. done.
Qed.

Lemma parse_number_length s lit r :
  parse_number s = Some (lit, r) → (length r < length s)%nat.
Proof.
  unfold parse_number.
  set (p := match s with 45 :: r0 => ([45], r0) | _ => ([], s) end).
  assert (Hp : (length p.2 ≤ length s)%nat).
  { subst p. destruct s as [|c s]; [done|].
    destruct (N.eq_dec c 45) as [->|Hne]; [cbn; lia|].
    assert (match c :: s with 45 :: r0 => ([45], r0) | _ => ([], c :: s) end = ([], c :: s)) as ->;
      [|done].
    destruct c as [|p]; [done|]. do 6 (destruct p as [p|p|]; try done). }
  destruct p as [sign s1]. cbn [snd] in Hp.
  destruct s1 as [|c s1']; [done|]. cbn [length] in Hp.
  set (int := if c =? 48 then Some ([48], s1') else if is_digit c then Some (cons_char c (span_digits s1')) else None).
  assert (Hint : ∀ i s2, int = Some (i, s2) → (length s2 ≤ length s1')%nat).
  { subst int. intros i s2. destruct (c =? 48); [by intros [= <- <-]|].
    destruct (is_digit c); [|done]. pose proof (span_digits_length s1').
    destruct (span_digits s1'). cbn. by intros [= <- <-]. }
  destruct int as [[i s2]|]; [|done]. specialize (Hint i s2 eq_refl).
  cbn [mbind option_bind].
  set (frac := match s2 with 46 :: r0 => '(ds, r') ← digits1 r0; Some (46 :: ds, r') | _ => Some ([], s2) end).
  assert (Hfrac : ∀ fr s3, frac = Some (fr, s3) → (length s3 ≤ length s2)%nat).
  { subst frac. intros fr s3. destruct s2 as [|c2 s2']; [by intros [= <- <-]|].
    destruct (N.eq_dec c2 46) as [->|Hne].
    - destruct (digits1 s2') as [[ds r']|] eqn:Hd; [|done]. cbn.
      intros [= <- <-]. apply digits1_length in Hd. lia.
    - assert (match c2 :: s2' with 46 :: r0 => '(ds, r') ← digits1 r0; Some (46 :: ds, r') | _ => Some ([], c2 :: s2') end = Some ([], c2 :: s2')) as ->.
      { destruct c2 as [|p]; [done|]. do 6 (destruct p as [p|p|]; try done). }
      by intros [= <- <-]. }
  destruct frac as [[fr s3]|]; [|done]. specialize (Hfrac fr s3 eq_refl).
  cbn [mbind option_bind].
  destruct s3 as [|e s3'].
  { cbn. intros [= <- <-]. cbn in *. lia. }
  destruct ((e =? 101) || (e =? 69)).
  2:{ cbn. intros [= <- <-]. cbn in *. lia. }
  set (q := match s3' with 43 :: r1 => ([43], r1) | 45 :: r1 => ([45], r1) | _ => ([], s3') end).
  assert (Hq : (length q.2 ≤ length s3')%nat).
  { subst q. destruct s3' as [|c3 s3'']; [done|].
    destruct (N.eq_dec c3 43) as [->|H43]; [cbn; lia|].
    destruct (N.eq_dec c3 45) as [->|H45]; [cbn; lia|].
    assert (match c3 :: s3'' with 43 :: r1 => ([43], r1) | 45 :: r1 => ([45], r1) | _ => ([], c3 :: s3'') end = ([], c3 :: s3'')) as ->; [|done].
    destruct c3 as [|p]; [done|]. do 6 (destruct p as [p|p|]; try done). }
  destruct q as [sg r1]. cbn [snd] in Hq.
  destruct (digits1 r1) as [[ds r']|] eqn:Hd; [|done]. cbn.
  intros [= <- <-]. apply digits1_length in Hd. cbn in *. lia.
Qed.

Lemma strip_prefix_length p s r :
  strip_prefix p s = Some r → (length r ≤ length s)%nat.
Proof.
  revert s. induction p as [|a p IH]; intros [|b s]; cbn [strip_prefix length]; try done.
  - by intros [= <-].
  - by intros [= <-].
  - destruct (a =? b); [|done]. intros H%IH. lia.
Qed.

Lemma expect_length c s r : expect c s = Some r → (length s = S (length r))%nat.
Proof.
  destruct s as [|c' s]; [done|]. cbn [expect]. destruct (c' =? c); [|done].
  by intros [= ->].
Qed.

(** Every parse consumes a character. *)
Lemma parse_consumes fuel :
  (∀ s v r, parse_value fuel s = Some (v, r) → (length r < length s)%nat)
  ∧ (∀ s ms r, parse_members fuel s = Some (ms, r) → (length r < length s)%nat)
  ∧ (∀ s vs r, parse_elements fuel s = Some (vs, r) → (length r < length s)%nat).
Proof.
  induction fuel as [|fuel (IHv & IHm & IHe)]; [done|]. split; [|split].
  - intros s v r. rewrite parse_value_eq. destruct s as [|c s]; [done|]. cbn [length].
    pose proof (skip_ws_length s) as Hws.
    destruct (c =? 123).
    { destruct (expect 125 (skip_ws s)) as [r'|] eqn:Hx.
      - intros [= <- <-]. apply expect_length in Hx. lia.
      - destruct (parse_members fuel (skip_ws s)) as [[ms r']|] eqn:Hp; [|done].
        intros [= <- <-]. apply IHm in Hp. lia. }
    destruct (c =? 91).
    { destruct (expect 93 (skip_ws s)) as [r'|] eqn:Hx.
      - intros [= <- <-]. apply expect_length in Hx. lia.
      - destruct (parse_elements fuel (skip_ws s)) as [[vs r']|] eqn:Hp; [|done].
        intros [= <- <-]. apply IHe in Hp. lia. }
    destruct (c =? 34).
    { destruct (parse_string_chars s) as [[str r']|] eqn:Hp; [|done].
      intros [= <- <-]. apply parse_string_chars_length in Hp. lia. }
    assert (Hlit : ∀ p b, (0 < length p)%nat →
              (strip_prefix p (c :: s) ≫= λ r', Some (b, r')) = Some (v, r) →
              (length r < S (length s))%nat).
    { intros p b Hpos. destruct p as [|a p]; [cbn in Hpos; lia|]. cbn [strip_prefix].
      destruct (a =? c); [|done].
      destruct (strip_prefix p s) as [r'|] eqn:Hp; [|done].
      intros [= <- <-]. apply strip_prefix_length in Hp. lia. }
    destruct (c =? 116); [apply Hlit; cbn; lia|].
    destruct (c =? 102); [apply Hlit; cbn; lia|].
    destruct (c =? 110); [apply Hlit; cbn; lia|].
    destruct (parse_number (c :: s)) as [[lit r']|] eqn:Hp; [|done].
    intros [= <- <-]. apply parse_number_length in Hp. cbn in Hp. lia.
  - intros s ms r. rewrite parse_members_eq.
    destruct (expect 34 s) as [r0|] eqn:H0; [|done]. cbn [mbind option_bind].
    destruct (parse_string_chars r0) as [[k r1]|] eqn:H1; [|done]. cbn [mbind option_bind].
    destruct (expect 58 (skip_ws r1)) as [r2|] eqn:H2; [|done]. cbn [mbind option_bind].
    destruct (parse_value fuel (skip_ws r2)) as [[v r3]|] eqn:H3; [|done].
    cbn [mbind option_bind].
    apply expect_length in H0, H2. apply parse_string_chars_length in H1. apply IHv in H3.
    pose proof (skip_ws_length r1) as Wr1. pose proof (skip_ws_length r2) as Wr2.
    pose proof (skip_ws_length r3) as Wr3.
    destruct (expect 44 (skip_ws r3)) as [r4|] eqn:H4.
    + destruct (parse_members fuel (skip_ws r4)) as [[ms' r5]|] eqn:H5; [|done].
      intros [= <- <-]. apply IHm in H5. apply expect_length in H4.
      pose proof (skip_ws_length r4) as Wr4. lia.
    + destruct (expect 125 (skip_ws r3)) as [r4|] eqn:H5; [|done].
      intros [= <- <-]. apply expect_length in H5. lia.
  - intros s vs r. rewrite parse_elements_eq.
    destruct (parse_value fuel s) as [[v r1]|] eqn:H1; [|done]. cbn [mbind option_bind].
    apply IHv in H1. pose proof (skip_ws_length r1) as Wr1.
    destruct (expect 44 (skip_ws r1)) as [r2|] eqn:H2.
    + destruct (parse_elements fuel (skip_ws r2)) as [[vs' r3]|] eqn:H3; [|done].
      intros [= <- <-]. apply IHe in H3. apply expect_length in H2.
      pose proof (skip_ws_length r2) as Wr2. lia.
    + destruct (expect 93 (skip_ws r1)) as [r2|] eqn:H3; [|done].
      intros [= <- <-]. apply expect_length in H3. lia.
Qed.

(** A parse that succeeds needs no more fuel than the characters it consumes:
    each level of nesting costs two units of fuel and at least two characters,
    the opening and the closing one. *)
Lemma parse_fuel_enough fuel :
  (∀ s v r, parse_value fuel s = Some (v, r) →
     ∀ fuel', (length s - length r < fuel')%nat → parse_value fuel' s = Some (v, r))
  ∧ (∀ s ms r, parse_members fuel s = Some (ms, r) →
     ∀ fuel', (length s - length r < fuel')%nat → parse_members fuel' s = Some (ms, r))
  ∧ (∀ s vs r, parse_elements fuel s = Some (vs, r) →
     ∀ fuel', (length s - length r < fuel')%nat → parse_elements fuel' s = Some (vs, r)).
Proof.
  induction fuel as [|fuel (IHv & IHm & IHe)]; [done|].
  destruct (parse_consumes fuel) as (Cv & Cm & Ce).
  split; [|split].
  - intros s v r Hp [|g] Hg; [lia|]. revert Hp. rewrite !parse_value_eq.
    destruct s as [|c s]; [done|]. cbn [length] in Hg.
    pose proof (skip_ws_length s) as Ws.
    destruct (c =? 123).
    { destruct (expect 125 (skip_ws s)) as [r'|] eqn:Hx; [done|].
      destruct (parse_members fuel (skip_ws s)) as [[ms r']|] eqn:Hp; [|done].
      intros [= <- <-]. pose proof (Cm _ _ _ Hp).
      by rewrite (IHm _ _ _ Hp g) by lia. }
    destruct (c =? 91).
    { destruct (expect 93 (skip_ws s)) as [r'|] eqn:Hx; [done|].
      destruct (parse_elements fuel (skip_ws s)) as [[vs r']|] eqn:Hp; [|done].
      intros [= <- <-]. pose proof (Ce _ _ _ Hp).
      by rewrite (IHe _ _ _ Hp g) by lia. }
    done.
  - intros s ms r Hp [|g] Hg; [lia|]. revert Hp. rewrite !parse_members_eq.
    destruct (expect 34 s) as [r0|] eqn:H0; [|done]. cbn [mbind option_bind].
    destruct (parse_string_chars r0) as [[k r1]|] eqn:H1; [|done]. cbn [mbind option_bind].
    destruct (expect 58 (skip_ws r1)) as [r2|] eqn:H2; [|done]. cbn [mbind option_bind].
    destruct (parse_value fuel (skip_ws r2)) as [[v r3]|] eqn:H3; [|done].
    cbn [mbind option_bind].
    apply expect_length in H0, H2. apply parse_string_chars_length in H1.
    pose proof (Cv _ _ _ H3) as C3.
    pose proof (skip_ws_length r1) as W1. pose proof (skip_ws_length r2) as W2.
    pose proof (skip_ws_length r3) as W3.
    destruct (expect 44 (skip_ws r3)) as [r4|] eqn:H4.
    + destruct (parse_members fuel (skip_ws r4)) as [[ms' r5]|] eqn:H5; [|done].
      intros [= <- <-]. pose proof (Cm _ _ _ H5) as C5.
      pose proof (expect_length _ _ _ H4) as L4. pose proof (skip_ws_length r4) as W4.
      rewrite (IHv _ _ _ H3 g) by lia. cbn [mbind option_bind]. rewrite H4.
      by rewrite (IHm _ _ _ H5 g) by lia.
    + destruct (expect 125 (skip_ws r3)) as [r4|] eqn:H5; [|done].
      intros [= <- <-]. pose proof (expect_length _ _ _ H5) as L5.
      rewrite (IHv _ _ _ H3 g) by lia. cbn [mbind option_bind]. by rewrite H4, H5.
  - intros s vs r Hp [|g] Hg; [lia|]. revert Hp. rewrite !parse_elements_eq.
    destruct (parse_value fuel s) as [[v r1]|] eqn:H1; [|done]. cbn [mbind option_bind].
    pose proof (Cv _ _ _ H1) as C1. pose proof (skip_ws_length r1) as W1.
    destruct (expect 44 (skip_ws r1)) as [r2|] eqn:H2.
    + destruct (parse_elements fuel (skip_ws r2)) as [[vs' r3]|] eqn:H3; [|done].
      intros [= <- <-]. pose proof (Ce _ _ _ H3) as C3.
      pose proof (expect_length _ _ _ H2) as L2. pose proof (skip_ws_length r2) as W2.
      rewrite (IHv _ _ _ H1 g) by lia. cbn [mbind option_bind]. rewrite H2.
      by rewrite (IHe _ _ _ H3 g) by lia.
    + destruct (expect 93 (skip_ws r1)) as [r2|] eqn:H3; [|done].
      intros [= <- <-]. pose proof (expect_length _ _ _ H3) as L3.
      rewrite (IHv _ _ _ H1 g) by lia. cbn [mbind option_bind]. by rewrite H2, H3.
Qed.

(** The fuel that [JSON_parse] gives is enough: with more, the parse of a text
    is the same, so a failure is a syntax error and never a lack of fuel. *)
Lemma JSON_parse_fuel text n :
  parse_value (S (length text) + n) (skip_ws text)
  = parse_value (S (length text)) (skip_ws text).
Proof.
  pose proof (skip_ws_length text) as W.
  destruct (parse_fuel_enough (S (length text) + n)) as (A & _).
  destruct (parse_fuel_enough (S (length text))) as (B & _).
  destruct (parse_value (S (length text) + n) (skip_ws text)) as [[v r]|] eqn:H1.
  - symmetry. apply (A _ _ _ H1). lia.
  - destruct (parse_value (S (length text)) (skip_ws text)) as [[v r]|] eqn:H2; [|done].
    rewrite (B _ _ _ H2 (S (length text) + n)%nat) in H1 by lia. done.
Qed.

Lemma parse_value_string fuel s rest :
  parse_value (S fuel) (QuoteJSONString s ++ rest) = Some (JString s, rest).
Proof.
  rewrite parse_value_eq. unfold QuoteJSONString. cbn [app].
  change (34 =? 123) with false. change (34 =? 91) with false.
  change (34 =? 34) with true. cbv beta iota.
  rewrite <- app_assoc. cbn [app]. by rewrite parse_string_chars_quote.
Qed.

Lemma skip_ws_members m M t :
  skip_ws (join_with 44 (map member_text (m :: M)) ++ t)
  = join_with 44 (map member_text (m :: M)) ++ t.
Proof. by destruct M. Qed.

(** One member, followed by a comma. *)
Lemma parse_member_comma fuel k s t :
  parse_members (S (S fuel)) (member_text (k, s) ++ 44 :: t)
  = '(ms, r5) ← parse_members (S fuel) (skip_ws t); Some ((k, JString s) :: ms, r5).
Proof.
  rewrite parse_members_eq.
  unfold member_text, QuoteJSONString at 1. cbn [fst snd].
  rewrite <- !app_assoc. cbn [app expect].
  change (34 =? 34) with true. cbn [mbind option_bind].
  rewrite <- !app_assoc. cbn [app].
  rewrite parse_string_chars_quote. cbn [mbind option_bind].
  rewrite skip_ws_token by done. cbn [expect].
  change (58 =? 58) with true. cbn [mbind option_bind].
  change (skip_ws (QuoteJSONString s ++ 44 :: t)) with (QuoteJSONString s ++ 44 :: t).
  rewrite parse_value_string. cbn [mbind option_bind].
  by rewrite skip_ws_token.
Qed.

(** The last member, followed by the closing brace. *)
Lemma parse_member_last fuel k s t :
  parse_members (S (S fuel)) (member_text (k, s) ++ 125 :: t)
  = Some ([(k, JString s)], t).
Proof.
  rewrite parse_members_eq.
  unfold member_text, QuoteJSONString at 1. cbn [fst snd].
  rewrite <- !app_assoc. cbn [app expect].
  change (34 =? 34) with true. cbn [mbind option_bind].
  rewrite <- !app_assoc. cbn [app].
  rewrite parse_string_chars_quote. cbn [mbind option_bind].
  rewrite skip_ws_token by done. cbn [expect].
  change (58 =? 58) with true. cbn [mbind option_bind].
  change (skip_ws (QuoteJSONString s ++ 125 :: t)) with (QuoteJSONString s ++ 125 :: t).
  rewrite parse_value_string. cbn [mbind option_bind].
  by rewrite skip_ws_token.
Qed.

Lemma parse_members_string_table fuel m M rest :
  (length M < fuel)%nat →
  parse_members (S fuel) (join_with 44 (map member_text (m :: M)) ++ 125 :: rest)
  = Some (string_table (m :: M), rest).
Proof.
  revert fuel m. induction M as [|m' M IH]; intros fuel [k s] Hf.
  - destruct fuel as [|fuel]; [cbn in Hf; lia|].
    cbn [map join_with]. by rewrite parse_member_last.
  - destruct fuel as [|fuel]; [cbn in Hf; lia|].
    cbn [map]. rewrite join_with_cons, <- app_assoc. cbn [app].
    rewrite parse_member_comma.
    change (member_text m' :: map member_text M) with (map member_text (m' :: M)).
    rewrite skip_ws_members, IH by (cbn in Hf; lia). done.
Qed.

Lemma length_members M : (length M ≤ length (join_with 44 (map member_text M)))%nat.
Proof.
  induction M as [|m M IH]; [done|].
  destruct M as [|m' M]; [cbn; lia|].
  cbn [map] in *. rewrite join_with_cons. rewrite length_app. cbn [length] in *.
  unfold member_text at 1, QuoteJSONString. cbn [length]. lia.
Qed.

(** The text of a snapshot of strings parses to the object it was made of. *)
Lemma JSON_parse_snapshot_text (M : list (jsstring * jsstring)) :
  canonical (map fst M) = true →
  JSON_parse (123 :: join_with 44 (map member_text M) ++ [125])
  = Some (JObject Plain (string_table M)).
Proof.
  intros Hc.
  unfold JSON_parse. rewrite skip_ws_token by done. rewrite parse_value_eq.
  change (123 =? 123) with true. cbv beta iota.
  destruct M as [|m M]; [done|].
  rewrite skip_ws_members.
  set (text := join_with 44 (map member_text (m :: M))).
  pose proof (length_members (m :: M)) as Hlen. fold text in Hlen.
  assert (Hm : ∀ t, expect 125 (text ++ t) = None).
  { intros t. subst text. by destruct M. }
  rewrite Hm. cbn [length]. rewrite length_app. cbn [length].
  replace (length text + 1)%nat with (S (length text)) by lia.
  subst text. rewrite parse_members_string_table by (cbn [length] in Hlen; lia).
  cbn [mbind option_bind skip_ws]. unfold make_object.
  rewrite fold_put_canonical; [done|].
  unfold string_table. rewrite app_nil_l, map_map. cbn [fst]. done.
Qed.

(** C3.  Snapshot round trip: for every object [M] of string keys and string
    values, [JSON.parse (JSON.stringify (M))], the parse of the load applied
    to the text that the flush writes, is [M] again.  [canonical] says that
    [M] is an object: its keys are distinct and stand in the order of
    [Object.keys]. *)
Theorem snapshot_round_trip (M : list (jsstring * jsstring)) :
  canonical (map fst M) = true →
  JSON_stringify (JObject Plain (string_table M)) ≫= JSON_parse
  = Some (JObject Plain (string_table M)).
Proof.
  intros Hc. rewrite stringify_string_table. cbn [mbind option_bind].
  by apply JSON_parse_snapshot_text.
Qed.

(** ** The order of the keys *)

Lemma is_index_inj k k' i : is_index k = Some i → is_index k' = Some i → k = k'.
Proof.
  unfold is_index. intros H H'.
  destruct k as [|c k]; [done|]. destruct k' as [|c' k']; [done|].
  destruct (digits_value 0 (c :: k)) as [n|]; [|done].
  destruct (digits_value 0 (c' :: k')) as [n'|]; [|done].
  destruct (n <? 4294967295); [|done]. destruct (n' <? 4294967295); [|done].
  cbn [andb] in *. case_bool_decide as E; [|done]. case_bool_decide as E'; [|done].
  congruence.
Qed.

(** A key that is not put before [k'], and is not [k'], comes after it. *)
Lemma key_not_before_precedes k k' :
  k ≠ k' → key_before k k' = false → key_precedes k' k = true.
Proof.
  unfold key_before, key_precedes. intros Hne.
  destruct (is_index k) as [i|] eqn:Hi, (is_index k') as [j|] eqn:Hj; try done.
  - intros H%N.ltb_ge. apply N.ltb_lt.
    destruct (decide (i = j)) as [->|]; [|lia].
    destruct Hne. by apply (is_index_inj _ _ j).
  - intros _. apply bool_decide_eq_true. congruence.
Qed.

(** A key that is put before [k'] comes before all that [k'] comes before. *)
Lemma key_before_precedes k k' x :
  key_before k k' = true → key_precedes k' x = true → key_precedes k x = true.
Proof.
  unfold key_before, key_precedes.
  destruct (is_index k) as [i|], (is_index k') as [j|], (is_index x) as [n|]; try done.
  intros ?%N.ltb_lt ?%N.ltb_lt. apply N.ltb_lt. lia.
Qed.

Lemma key_before_precedes_same k k' : key_before k k' = true → key_precedes k k' = true.
Proof.
  unfold key_before, key_precedes.
  by destruct (is_index k) as [i|], (is_index k') as [j|].
Qed.

Lemma tbl_put_keys (t : table) k v x :
  x ∈ tbl_keys (tbl_put t k v) → x = k ∨ x ∈ tbl_keys t.
Proof.
  unfold tbl_keys. induction t as [|[k' v'] t IH]; cbn [tbl_put map fst].
  { intros ?%list_elem_of_singleton. by left. }
  destruct (decide (k = k')); cbn [map fst]; [by right|].
  destruct (key_before k k'); cbn [map fst].
  - intros [->|H]%elem_of_cons; [by left|by right].
  - intros [->|H]%elem_of_cons; [right; apply elem_of_cons; by left|].
    destruct (IH H) as [->|?]; [by left|]. right. apply elem_of_cons. by right.
Qed.

Lemma tbl_delete_keys (t : table) k x :
  x ∈ tbl_keys (tbl_delete t k) → x ∈ tbl_keys t.
Proof.
  unfold tbl_keys. induction t as [|[k' v'] t IH]; cbn [tbl_delete map fst]; [done|].
  destruct (decide (k = k')); cbn [map fst].
  - intros ?. apply elem_of_cons. by right.
  - intros [->|H]%elem_of_cons; apply elem_of_cons; [by left|right; by apply IH].
Qed.

Lemma forallb_elem_of {A} (f : A → bool) l :
  forallb f l = true ↔ ∀ x, x ∈ l → f x = true.
Proof.
  rewrite forallb_forall. split; intros H x Hx; apply H; by apply list_elem_of_In.
Qed.

(** Assignment keeps the keys in the order of enumeration. *)
Lemma tbl_put_canonical (t : table) k v :
  canonical (tbl_keys t) = true → canonical (tbl_keys (tbl_put t k v)) = true.
Proof.
  induction t as [|[k' v'] t IH]; [done|].
  cbn [tbl_keys map fst canonical tbl_put]. intros [Hk' Ht]%andb_true_iff.
  destruct (decide (k = k')) as [->|Hne]; cbn [map fst canonical].
  { by rewrite Hk', Ht. }
  destruct (key_before k k') eqn:Hb; cbn [map fst canonical forallb].
  - rewrite Hk', Ht, (key_before_precedes_same _ _ Hb). cbn [andb].
    rewrite !andb_true_r. apply forallb_elem_of. intros x Hx.
    apply (key_before_precedes k k'); [done|].
    by apply (proj1 (forallb_elem_of _ _) Hk').
  - apply andb_true_iff. split; [|by apply IH].
    apply forallb_elem_of. intros x [->|Hx]%tbl_put_keys.
    + by apply key_not_before_precedes.
    + by apply (proj1 (forallb_elem_of _ _) Hk').
Qed.

Lemma tbl_assign_canonical (t : table) k v :
  canonical (tbl_keys t) = true → canonical (tbl_keys (tbl_assign t k v)) = true.
Proof.
  intros Hc. destruct (tbl_assign_cases t k v) as [[-> _]|[-> _]]; [|done].
  by apply tbl_put_canonical.
Qed.

Lemma tbl_delete_canonical (t : table) k :
  canonical (tbl_keys t) = true → canonical (tbl_keys (tbl_delete t k)) = true.
Proof.
  induction t as [|[k' v'] t IH]; [done|].
  cbn [tbl_keys map fst canonical tbl_delete]. intros [Hk' Ht]%andb_true_iff.
  destruct (decide (k = k')) as [->|Hne]; [done|]. cbn [map fst canonical].
  apply andb_true_iff. split; [|by apply IH].
  apply forallb_elem_of. intros x Hx%tbl_delete_keys.
  by apply (proj1 (forallb_elem_of _ _) Hk').
Qed.

Lemma fold_put_keys_canonical (ms acc : table) :
  canonical (tbl_keys acc) = true →
  canonical (tbl_keys (fold_left (λ t m, tbl_put t m.1 m.2) ms acc)) = true.
Proof.
  revert acc. induction ms as [|[k v] ms IH]; intros acc Hc; [done|].
  cbn [fold_left]. apply IH. by apply tbl_put_canonical.
Qed.

(** What [JSON.parse] returns has its keys in the order of enumeration. *)
Lemma parse_value_canonical fuel s v r :
  parse_value fuel s = Some (v, r) → keys_canonical v = true.
Proof.
  destruct fuel as [|fuel]; [done|]. rewrite parse_value_eq.
  destruct s as [|c s]; [done|].
  destruct (c =? 123).
  { destruct (expect 125 (skip_ws s)); [by intros [= <- <-]|].
    destruct (parse_members fuel (skip_ws s)) as [[ms r']|]; [|done].
    intros [= <- <-]. by apply fold_put_keys_canonical. }
  destruct (c =? 91).
  { destruct (expect 93 (skip_ws s)); [by intros [= <- <-]|].
    destruct (parse_elements fuel (skip_ws s)) as [[vs r']|]; [|done].
    by intros [= <- <-]. }
  destruct (c =? 34).
  { destruct (parse_string_chars s) as [[str r']|]; [|done]. by intros [= <- <-]. }
  destruct (c =? 116).
  { destruct (strip_prefix _ _); [|done]. by intros [= <- <-]. }
  destruct (c =? 102).
  { destruct (strip_prefix _ _); [|done]. by intros [= <- <-]. }
  destruct (c =? 110).
  { destruct (strip_prefix _ _); [|done]. by intros [= <- <-]. }
  destruct (parse_number _) as [[lit r']|]; [|done]. by intros [= <- <-].
Qed.

Lemma canonical_NoDup keys : canonical keys = true → NoDup keys.
Proof.
  induction keys as [|k keys IH]; [constructor|].
  cbn [canonical]. intros [Hk Hc]%andb_true_iff. constructor; [|by apply IH].
  intros Hin. apply (proj1 (forallb_elem_of _ _) Hk) in Hin.
  by apply key_precedes_ne in Hin.
Qed.

Lemma tbl_get_absent (t : table) k : k ∉ tbl_keys t → tbl_get t k = None.
Proof.
  unfold tbl_keys. induction t as [|[k' v'] t IH]; [done|]. cbn [map fst tbl_get].
  intros [Hne Hnin]%not_elem_of_cons. destruct (decide (k = k')); [done|]. by apply IH.
Qed.

Lemma tbl_get_delete_eq (t : table) k :
  NoDup (tbl_keys t) → tbl_get (tbl_delete t k) k = None.
Proof.
  unfold tbl_keys. induction t as [|[k' v'] t IH]; [done|]. cbn [map fst tbl_delete].
  intros [Hnin Hnd]%NoDup_cons. destruct (decide (k = k')) as [->|Hne].
  - by apply tbl_get_absent.
  - cbn [tbl_get]. destruct (decide (k = k')); [done|]. by apply IH.
Qed.

Lemma tbl_get_delete_ne (t : table) k k' :
  k' ≠ k → tbl_get (tbl_delete t k) k' = tbl_get t k'.
Proof.
  intros Hne. induction t as [|[k0 v0] t IH]; [done|]. cbn [tbl_delete].
  destruct (decide (k = k0)) as [->|Hk].
  - cbn [tbl_get]. by destruct (decide (k' = k0)).
  - cbn [tbl_get]. by destruct (decide (k' = k0)).
Qed.

End JSON_facts.

(** * Facts about the bucket *)

Section Bucket_facts.
Import JS StorageBucket.
Context {NUM : JSNumber} {HOST : Host}.

Abbreviation table := (list (jsstring * jsval)).

(** Runs the statements of a method on a state that is given by its fields. *)
Ltac step_m :=
  cbv [bind ret gets modify lift throw try_catch mbind M_bind mret M_ret
       with_host with_this set_fs set_console set_clock set_timers set_inflight
       set_emitted set_ipc_channels set_write_log set_writeHold set_writeLock set_data
       this host fs console clock timers next_timer inflight emitted ipc_channels
       write_log __path__ __writeHold__ __writeLock__ __data__ __ipcReplyChannel__
       negb fst snd].

Lemma plain_data_eq s t : plain_data s = Some t → __data__ (this s) = JObject Plain t.
Proof.
  unfold plain_data. destruct (__data__ (this s)) as [| | | | |[] ?]; try done.
  by intros [= ->].
Qed.

(** ** Construction *)

Lemma _loadFromDiskSync_eq s :
  _loadFromDiskSync s
  = (Ok (), with_this (set_data (loaded (fs (host s)) (__path__ (this s)))) s).
Proof.
  unfold _loadFromDiskSync, readFileSync, loaded, file_text.
  cbv [bind ret gets modify lift throw try_catch].
  destruct (bool_decide _); [done|].
  destruct (files _ !! _) as [text|]; [|done].
  by destruct (JSON_parse text).
Qed.

Lemma _migrateFrom3v1v3_eq bucketName s :
  __path__ (this s) = path_join dbPath (db_file bucketName) →
  _migrateFrom3v1v3 bucketName s
  = (Ok (), with_host (λ w, set_console (console w ++ migration_warnings bucketName (fs w))
                              (set_fs (migrated bucketName (fs w)) w)) s).
Proof.
  destruct s as [[pa h l d c] [ck tm nt inf f con em ipc wl]]. cbn [this __path__].
  intros ->.
  unfold _migrateFrom3v1v3, migrated, migration_warnings, existsSync, moveSync, console_warn.
  set (p := path_join dbPath (db_file bucketName)) in *.
  set (old := path_join oldDbPath (db_file bucketName)).
  destruct pkg_major as [v|]; [destruct (4 <=? v)%N|]; step_m.
  all: destruct (decide (platform = js "win32")) as [Hw32|Hw32];
    [ rewrite (bool_decide_eq_false_2 (platform ≠ js "win32")) by (by intros ?);
      rewrite (bool_decide_eq_true_2 (platform = js "win32")) by done
    | rewrite (bool_decide_eq_true_2 (platform ≠ js "win32")) by done;
      rewrite (bool_decide_eq_false_2 (platform = js "win32")) by done;
      by (cbn [app]; rewrite <- ?app_assoc, ?app_nil_r; cbn [app]) ].
  all: step_m.
  all: destruct (files f !! p) as [tp|] eqn:Hfp;
    [ rewrite (bool_decide_eq_true_2 (is_Some (Some tp))) by done; step_m;
      by (cbn [app]; rewrite <- ?app_assoc, ?app_nil_r; cbn [app])
    | rewrite (bool_decide_eq_false_2 (is_Some None)) by (by intros [? ?]); step_m ].
  all: destruct (files f !! old) as [told|] eqn:Hfo;
    [ rewrite (bool_decide_eq_true_2 (is_Some (Some told))) by done; step_m
    | rewrite (bool_decide_eq_false_2 (is_Some None)) by (by intros [? ?]); step_m;
      by (cbn [app]; rewrite <- ?app_assoc, ?app_nil_r; cbn [app]) ].
  all: destruct (bool_decide (old ∈ denied f) || bool_decide (p ∈ denied f));
    step_m; rewrite ?Hfo, ?Hfp; step_m; by (cbn [app]; rewrite <- ?app_assoc, ?app_nil_r; cbn [app]).
Qed.

(** The constructor returns, and this is the bucket it leaves. *)
Lemma constructor_eq bucketName w :
  ∃ ipc,
    constructor bucketName w
    = (Ok (),
       {| this := {| __path__ := path_join dbPath (db_file bucketName);
                     __writeHold__ := None;
                     __writeLock__ := false;
                     __data__ := loaded (migrated bucketName (fs w))
                                        (path_join dbPath (db_file bucketName));
                     __ipcReplyChannel__ := ipc_channel bucketName "reply" |};
          host := {| clock := clock w; timers := timers w; next_timer := next_timer w;
                     inflight := inflight w; fs := migrated bucketName (fs w);
                     console := console w ++ migration_warnings bucketName (fs w);
                     emitted := emitted w; ipc_channels := ipc;
                     write_log := write_log w |} |}).
Proof.
  unfold constructor, ipcMain_on.
  cbv [bind mbind M_bind].
  rewrite _migrateFrom3v1v3_eq by reflexivity.
  rewrite _loadFromDiskSync_eq. destruct w. step_m.
  eexists. reflexivity.
Qed.

Lemma migrated_present bucketName f text :
  files f !! path_join dbPath (db_file bucketName) = Some text →
  migrated bucketName f = f.
Proof. unfold migrated. intros ->. by destruct (bool_decide _). Qed.



(** C9, as amended.  Legacy migration: the constructor always returns.  On
    win32, when the backing file is absent and the previous location has a
    file of the same name, the file is moved into place and the bucket is
    loaded from it; when the move fails, the failure is logged and the disk is
    as it was.  On every other platform the disk is left as it was. *)
Theorem legacy_migration bucketName w :
  ∃ s, constructor bucketName w = (Ok (), s)
       ∧ (platform ≠ js "win32" → fs (host s) = fs w)
       ∧ (platform = js "win32" →
          ∀ text,
            files (fs w) !! path_join dbPath (db_file bucketName) = None →
            files (fs w) !! path_join oldDbPath (db_file bucketName) = Some text →
            if bool_decide (path_join oldDbPath (db_file bucketName) ∈ denied (fs w))
               || bool_decide (path_join dbPath (db_file bucketName) ∈ denied (fs w))
            then fs (host s) = fs w
                 ∧ js "3.1.3 Migration failed" ∈ console (host s)
            else files (fs (host s))
                 = <[path_join dbPath (db_file bucketName) := text]>
                     (delete (path_join oldDbPath (db_file bucketName)) (files (fs w)))
                 ∧ __data__ (this s) = default (JObject Plain []) (JSON_parse text)).
Proof.
  destruct (constructor_eq bucketName w) as [ipc Hc].
  eexists. split; [exact Hc|]. cbn [this host fs __data__ console].
  unfold migrated, migration_warnings, loaded, file_text. split.
  - intros Hp. by rewrite (bool_decide_eq_false_2 (platform = js "win32")).
  - intros Hp text Hnew Hold.
    rewrite !(bool_decide_eq_true_2 (platform = js "win32")) by done.
    rewrite Hnew, Hold.
    destruct (bool_decide (_ ∈ denied (fs w))) eqn:Ho; cbn [orb].
    { split; [done|]. set_solver. }
    destruct (bool_decide (path_join dbPath _ ∈ denied (fs w))) eqn:Hn; cbn [orb files denied].
    { split; [done|]. set_solver. }
    rewrite Hn. by rewrite lookup_insert_eq.
Qed.

(** ** Mutations *)

Lemma _writeToDisk_eq s :
  _writeToDisk s
  = (Ok (),
     {| this := set_writeHold (Some (next_timer (host s))) (this s);
        host := set_timers
                  (match __writeHold__ (this s) with
                   | None => timers (host s)
                   | Some id => List.filter (λ t, negb (t.1 =? id)) (timers (host s))
                   end
                   ++ [(next_timer (host s),
                        clock (host s) + DB_WRITE_DELAY_MS
                        + timer_lateness (next_timer (host s)))])
                  (S (next_timer (host s))) (host s) |}).
Proof.
  unfold _writeToDisk, clearTimeout, setTimeout.
  destruct s as [[pa h l d c] [ck tm nt inf f con em ipc wl]].
  destruct h; reflexivity.
Qed.

Lemma _setItem_eq s t k v :
  plain_data s = Some t →
  _setItem k v s
  = (Ok v,
     mutated (JObject Plain (tbl_assign t k (JString (ToString v))))
             [(js "changed", JObject Plain [(js "type", JString (js "setItem"));
                                            (js "key", JString k)]);
              (js "changed:" ++ k, JObject Plain [])] s).
Proof.
  intros Hp%plain_data_eq. unfold _setItem, emit, mutated.
  cbv [bind ret gets modify lift mbind M_bind].
  rewrite Hp. cbn [js_put_string]. rewrite !_writeToDisk_eq.
  destruct s as [[pa h l d c] [ck tm nt inf f con em ipc wl]]. step_m.
  by rewrite <- app_assoc.
Qed.

Lemma _removeItem_eq s t k :
  plain_data s = Some t →
  _removeItem k s
  = (Ok JUndefined,
     mutated (JObject Plain (tbl_delete t k))
             [(js "changed", JObject Plain [(js "type", JString (js "removeItem"));
                                            (js "key", JString k)]);
              (js "changed:" ++ k, JObject Plain [])] s).
Proof.
  intros Hp%plain_data_eq. unfold _removeItem, emit, mutated.
  cbv [bind ret gets modify lift mbind M_bind].
  rewrite Hp. cbn [js_delete]. rewrite !_writeToDisk_eq.
  destruct s as [[pa h l d c] [ck tm nt inf f con em ipc wl]]. step_m.
  by rewrite <- app_assoc.
Qed.

Lemma mutated_data d ev s : __data__ (this (mutated d ev s)) = d.
Proof. unfold mutated. rewrite _writeToDisk_eq. by destruct s as [[] []]. Qed.

(** A mutation of a map does not throw and leaves a map. *)
Lemma mutate_plain m s t :
  plain_data s = Some t →
  ∃ r ev, mutate m s = (Ok r, mutated (JObject Plain (mutated_table m t)) ev s).
Proof.
  intros Hp. destruct m as [k v|k]; cbn [mutate mutated_table].
  - eexists _, _. by apply _setItem_eq.
  - eexists _, _. by apply _removeItem_eq.
Qed.


Lemma getItem_plain s t k d :
  plain_data s = Some t →
  getItem k d s = (Ok (match tbl_get t k with
                       | Some v => if truthy v then v else d
                       | None => d
                       end), s).
Proof.
  intros Hp%plain_data_eq. unfold getItem. cbv [bind ret gets lift].
  rewrite Hp. cbn [js_get]. unfold js_or. by destruct (tbl_get t k).
Qed.


(** C8, as amended.  The policy of [getJSONItem] on a map: a stored
    non-empty string that does not parse gives the empty object, not the
    default; a falsy value gives the default, and so does an absent key that
    is none of the names that every object inherits; and no error of the
    parse comes out: on a map [getJSONItem] returns. *)
Theorem getJSONItem_policy s t k d :
  plain_data s = Some t →
  (∀ c str, tbl_get t k = Some (JString (c :: str)) →
            JSON_parse (c :: str) = None →
            getJSONItem k d s = (Ok (JObject Plain []), s))
  ∧ (∀ v, tbl_get t k = Some v → truthy v = false → getJSONItem k d s = (Ok d, s))
  ∧ (tbl_get t k = None → inherited k = false → getJSONItem k d s = (Ok d, s))
  ∧ (∃ v, getJSONItem k d s = (Ok v, s)).
Proof.
  intros Hp%plain_data_eq.
  assert (Hg : getJSONItem k d s
               = (Ok (match tbl_get t k with
                      | Some v => if truthy v
                                  then default (JObject Plain []) (JSON_parse (ToString v))
                                  else d
                      | None => d
                      end), s)).
  { unfold getJSONItem, getItem. cbv [bind ret gets lift try_catch throw].
    rewrite Hp. cbn [js_get]. unfold js_or.
    destruct (tbl_get t k) as [v|]; cbn [from_option]; [|done].
    change (id v) with v.
    destruct (truthy v) eqn:Hv; [|done]. rewrite Hv.
    by destruct (JSON_parse (ToString v)). }
  split; [|split; [|split]].
  - intros c str Hk Hparse. rewrite Hg, Hk. cbn [truthy ToString]. by rewrite Hparse.
  - intros v Hk Hv. by rewrite Hg, Hk, Hv.
  - intros Hk _. by rewrite Hg, Hk.
  - rewrite Hg. by eexists.
Qed.

(** ** Statistics *)


Lemma truthy_length v : truthy v = true → ∃ len, js_length v = Ok len.
Proof.
  unfold js_length. destruct v as [| | | |str|[] t]; try done; cbn [js_get]; intros _;
    try case_decide; try done; by eexists.
Qed.



Lemma reduce_key_lengths s t keys acc :
  plain_data s = Some t →
  reduce getKeyLengths_reducer keys acc s
  = (Ok (fold_left (key_lengths_step t) keys acc), s).
Proof.
  intros Hp%plain_data_eq. revert acc. induction keys as [|key keys IH]; intros acc; [done|].
  cbn [reduce fold_left]. unfold getKeyLengths_reducer at 1, getItem at 1.
  cbv [bind ret gets lift]. rewrite Hp. cbn [js_get]. unfold js_or, key_lengths_step.
  destruct (tbl_get t key) as [v|]; cbn [from_option truthy].
  - change (id v) with v. destruct (truthy v) eqn:Hv.
    + rewrite Hv. destruct (truthy_length v Hv) as [len ->]. apply IH.
    + cbn [truthy]. apply IH.
  - apply IH.
Qed.


(** ** Removal *)

(** X3.  Removal: on a map, after [_removeItem (k)], which returns
    undefined, [getItem (k, d)] is the default, for a key [k] that is none of
    the names that every object inherits; and the other keys read as
    before. *)
Theorem _removeItem_then_getItem s t k d :
  plain_data s = Some t →
  NoDup (tbl_keys t) →
  inherited k = false →
  (_removeItem k s).1 = Ok JUndefined
  ∧ (getItem k d (_removeItem k s).2).1 = Ok d
  ∧ ∀ k', k' ≠ k → (getItem k' d (_removeItem k s).2).1 = (getItem k' d s).1.
Proof.
  intros Hp Hnd _. rewrite (_removeItem_eq _ _ _ Hp). cbn [fst snd].
  assert (Hp' : ∀ ev, plain_data (mutated (JObject Plain (tbl_delete t k)) ev s)
                      = Some (tbl_delete t k)).
  { intros ev. unfold plain_data. by rewrite mutated_data. }
  split; [done|]. split.
  - rewrite (getItem_plain _ _ _ _ (Hp' _)). cbn [fst]. by rewrite tbl_get_delete_eq.
  - intros k' Hne. rewrite (getItem_plain _ _ _ _ (Hp' _)), (getItem_plain _ _ _ _ Hp).
    cbn [fst]. by rewrite tbl_get_delete_ne.
Qed.

(** ** The reads *)

Lemma getJSONItem_plain s t k d :
  plain_data s = Some t →
  getJSONItem k d s
  = (Ok (match tbl_get t k with
         | Some v => if truthy v
                     then default (JObject Plain []) (JSON_parse (ToString v))
                     else d
         | None => d
         end), s).
Proof.
  intros Hp%plain_data_eq.
  unfold getJSONItem, getItem. cbv [bind ret gets lift try_catch throw].
  rewrite Hp. cbn [js_get]. unfold js_or.
  destruct (tbl_get t k) as [v|]; cbn [from_option]; [|done].
  change (id v) with v.
  destruct (truthy v) eqn:Hv; [|done]. rewrite Hv.
  by destruct (JSON_parse (ToString v)).
Qed.

(** A reduction whose step reads a value for the key and assigns it. *)
Lemma reduce_assign s (g : jsstring → M jsval) (h : jsstring → jsval) keys acc :
  (∀ k, k ∈ keys → g k s = (Ok (h k), s)) →
  reduce (λ acc key, bind (g key) (λ v, ret (tbl_assign acc key v))) keys acc s
  = (Ok (fold_left (λ t m, tbl_assign t m.1 m.2) (map (λ k, (k, h k)) keys) acc), s).
Proof.
  revert acc. induction keys as [|key keys IH]; intros acc Hg; [done|].
  cbn [reduce map fold_left fst snd]. cbv beta. unfold bind at 1 2.
  rewrite (Hg key) by (apply elem_of_cons; by left). unfold ret at 1.
  apply IH. intros k Hk. apply Hg. apply elem_of_cons. by right.
Qed.

(** Where no key is [__proto__] the assignments define the properties. *)
Lemma fold_assign_put (ms acc : table) :
  js "__proto__" ∉ tbl_keys ms →
  fold_left (λ t m, tbl_assign t m.1 m.2) ms acc = fold_left (λ t m, tbl_put t m.1 m.2) ms acc.
Proof.
  revert acc. induction ms as [|[k v] ms IH]; intros acc Hk; [done|].
  cbn [tbl_keys map fst] in Hk. apply not_elem_of_cons in Hk as [Hne Hk].
  cbn [fold_left fst snd]. rewrite tbl_assign_put by done. by apply IH.
Qed.

Lemma tbl_keys_absent (t : table) k : tbl_get t k = None → k ∉ tbl_keys t.
Proof.
  induction t as [|[k' v'] t IH]; [intros _; apply not_elem_of_nil|].
  cbn [tbl_get tbl_keys map fst]. destruct (decide (k = k')); [done|].
  intros Hk. apply not_elem_of_cons. split; [done|by apply IH].
Qed.

Lemma tbl_get_elem (t : table) k :
  NoDup (tbl_keys t) → ∀ v, (k, v) ∈ t → tbl_get t k = Some v.
Proof.
  unfold tbl_keys. induction t as [|[k' v'] t IH]; intros Hnd v Hin.
  { by apply elem_of_nil in Hin. }
  cbn [map fst] in Hnd. apply NoDup_cons in Hnd as [Hk' Hnd].
  cbn [tbl_get]. apply elem_of_cons in Hin as [[= -> ->]|Hin].
  - by rewrite decide_True.
  - destruct (decide (k = k')) as [->|]; [|by apply IH].
    destruct Hk'. apply list_elem_of_fmap. by exists (k', v).
Qed.

(** The table that a reduction over the keys of a table builds. *)
Lemma map_keys_table (t : table) (f : jsval → jsval) :
  NoDup (tbl_keys t) →
  map (λ k, (k, match tbl_get t k with Some v => f v | None => f JUndefined end)) (tbl_keys t)
  = map (λ p, (p.1, f p.2)) t.
Proof.
  intros Hnd. unfold tbl_keys. rewrite map_map. apply map_ext_in.
  intros [k v] Hin%list_elem_of_In. cbn [fst snd].
  by rewrite (tbl_get_elem t k Hnd v Hin).
Qed.

(** X5.  [allItems ()] on a map that has no key [__proto__]: an object
    with the keys of the store in their order, each with the value that
    [getItem] returns for it, which is the stored value, or undefined when
    that is empty; the bucket is as it was.  When no stored value is empty it
    is a copy of the store. *)
Theorem allItems_copies_the_store s t :
  plain_data s = Some t →
  canonical (tbl_keys t) = true →
  tbl_get t (js "__proto__") = None →
  allItems s = (Ok (JObject Plain (map (λ p, (p.1, item_of p.2)) t)), s)
  ∧ (forallb (λ p, truthy p.2) t = true → allItems s = (Ok (JObject Plain t), s)).
Proof.
  intros Hp Hc Hproto%tbl_keys_absent.
  assert (Hall : allItems s = (Ok (JObject Plain (map (λ p, (p.1, item_of p.2)) t)), s)).
  { unfold allItems, allKeys. cbv [bind gets lift]. rewrite (plain_data_eq _ _ Hp).
    cbn [js_keys].
    rewrite (reduce_assign s (λ key, getItem key JUndefined)
               (λ k, match tbl_get t k with
                     | Some v => item_of v
                     | None => item_of JUndefined
                     end)).
    2:{ intros k _. rewrite (getItem_plain _ _ _ _ Hp). unfold item_of.
        by destruct (tbl_get t k). }
    unfold ret. rewrite (map_keys_table t item_of) by by apply canonical_NoDup.
    rewrite fold_assign_put by (unfold tbl_keys; by rewrite map_map).
    rewrite fold_put_canonical; [done|].
    rewrite app_nil_l, map_map. cbn [fst]. exact Hc. }
  split; [exact Hall|]. intros Htruthy. rewrite Hall. do 3 f_equal.
  clear -Htruthy. induction t as [|[k v] t IH]; [done|].
  cbn [forallb snd] in Htruthy. apply andb_true_iff in Htruthy as [Hv Ht].
  cbn [map fst snd]. unfold item_of at 1. rewrite Hv. by rewrite IH.
Qed.

(** X6.  [allJSONItems ()] never throws on a map of strings that has no
    key [__proto__]: it returns an object with the keys of the store in their
    order, each with what [JSON.parse] makes of the stored string, the empty
    object when that does not parse and undefined when the string is empty;
    the bucket is as it was. *)
Theorem allJSONItems_never_throws s t :
  plain_data s = Some t →
  canonical (tbl_keys t) = true →
  all_strings t = true →
  tbl_get t (js "__proto__") = None →
  allJSONItems s = (Ok (JObject Plain (map (λ p, (p.1, json_item_of p.2)) t)), s).
Proof.
  intros Hp Hc _ Hproto%tbl_keys_absent.
  unfold allJSONItems, allKeys. cbv [bind gets lift]. rewrite (plain_data_eq _ _ Hp).
  cbn [js_keys].
  rewrite (reduce_assign s (λ key, getJSONItem key JUndefined)
             (λ k, match tbl_get t k with
                   | Some v => json_item_of v
                   | None => json_item_of JUndefined
                   end)).
  2:{ intros k _. rewrite (getJSONItem_plain _ _ _ _ Hp). unfold json_item_of.
      by destruct (tbl_get t k). }
  unfold ret. rewrite (map_keys_table t json_item_of) by by apply canonical_NoDup.
  rewrite fold_assign_put by (unfold tbl_keys; by rewrite map_map).
  rewrite fold_put_canonical; [done|].
  rewrite app_nil_l, map_map. cbn [fst]. exact Hc.
Qed.

Lemma getItem_state k d s : (getItem k d s).2 = s.
Proof.
  unfold getItem. cbv [bind ret gets lift]. by destruct (js_get _ _).
Qed.

Lemma getJSONItem_state k d s : (getJSONItem k d s).2 = s.
Proof.
  unfold getJSONItem, getItem. cbv [bind ret gets lift try_catch throw].
  destruct (js_get _ _) as [v|e]; [|done].
  destruct (truthy _); [|done]. by destruct (JSON_parse _).
Qed.

Lemma reduce_state (f : table → jsstring → M table) keys acc s :
  (∀ acc key, (f acc key s).2 = s) → (reduce f keys acc s).2 = s.
Proof.
  intros Hf. revert acc. induction keys as [|key keys IH]; intros acc; [done|].
  cbn [reduce]. unfold bind. specialize (Hf acc key).
  destruct (f acc key s) as [[acc'|e] s']; cbn [snd] in Hf; subst s'; [apply IH|done].
Qed.

Lemma allKeys_state s : (allKeys s).2 = s.
Proof. unfold allKeys. cbv [bind gets lift]. by destruct (js_keys _). Qed.

Lemma bind_keeps_state {A B} (m : M A) (f : A → M B) s :
  (m s).2 = s → (∀ a, (f a s).2 = s) → (bind m f s).2 = s.
Proof.
  intros Hm Hf. unfold bind. destruct (m s) as [[a|e] s']; cbn [snd] in Hm; subst s'; [|done].
  apply Hf.
Qed.

Lemma getFileSize_state s : (getFileSize s).2 = s.
Proof.
  unfold getFileSize, statSync_size. cbv [bind ret gets throw]. by destruct (_ !! _).
Qed.

Lemma getKeyLengths_state s : (getKeyLengths s).2 = s.
Proof.
  unfold getKeyLengths. apply bind_keeps_state; [apply allKeys_state|]. intros keys.
  apply bind_keeps_state; [|done]. apply reduce_state. intros acc key.
  unfold getKeyLengths_reducer. apply bind_keeps_state; [apply getItem_state|]. intros item.
  destruct (truthy item); [|done]. apply bind_keeps_state; [|done].
  unfold lift. done.
Qed.

Lemma allItems_state s : (allItems s).2 = s.
Proof.
  unfold allItems. apply bind_keeps_state; [apply allKeys_state|]. intros keys.
  apply bind_keeps_state; [|done]. apply reduce_state. intros acc key.
  apply bind_keeps_state; [apply getItem_state|done].
Qed.

Lemma allJSONItems_state s : (allJSONItems s).2 = s.
Proof.
  unfold allJSONItems. apply bind_keeps_state; [apply allKeys_state|]. intros keys.
  apply bind_keeps_state; [|done]. apply reduce_state. intros acc key.
  apply bind_keeps_state; [apply getJSONItem_state|done].
Qed.

Lemma getStats_state s : (getStats s).2 = s.
Proof.
  unfold getStats. apply bind_keeps_state; [apply getFileSize_state|]. intros filesize.
  apply bind_keeps_state; [apply getKeyLengths_state|]. intros keyLengths.
  apply bind_keeps_state; [done|]. intros data.
  apply bind_keeps_state; [|done]. by destruct (JSON_stringify data).
Qed.

(** X7.  The reads change nothing: whatever the data and the disk, and
    whether they return or throw, [getItem], [getJSONItem], [allKeys],
    [allItems], [allJSONItems], [getFileSize], [getKeyLengths] and [getStats]
    leave the bucket, the timers, the disk and the events as they were. *)
Theorem reads_change_nothing s k d :
  (getItem k d s).2 = s
  ∧ (getJSONItem k d s).2 = s
  ∧ (allKeys s).2 = s
  ∧ (allItems s).2 = s
  ∧ (allJSONItems s).2 = s
  ∧ (getFileSize s).2 = s
  ∧ (getKeyLengths s).2 = s
  ∧ (getStats s).2 = s.
Proof.
  split; [apply getItem_state|]. split; [apply getJSONItem_state|].
  split; [apply allKeys_state|]. split; [apply allItems_state|].
  split; [apply allJSONItems_state|]. split; [apply getFileSize_state|].
  split; [apply getKeyLengths_state|apply getStats_state].
Qed.

(** ** The statistics *)

Lemma utf8_length_ge s : (N.of_nat (length s) ≤ utf8_length s)%N.
Proof.
  assert (H : ∀ n s, length s ≤ n → (N.of_nat (length s) ≤ utf8_length s)%N);
    [|by apply (H (length s))].
  clear s. induction n as [|n IH]; intros s Hle.
  { destruct s; [cbn [length utf8_length]; lia|cbn [length] in Hle; lia]. }
  destruct s as [|c r]; [cbn [length utf8_length]; lia|]. cbn [length] in Hle.
  assert (Hr : (N.of_nat (length r) ≤ utf8_length r)%N) by (apply IH; lia).
  cbn [utf8_length length]. rewrite Nat2N.inj_succ.
  destruct (c <? 128)%N; [lia|]. destruct (c <? 2048)%N; [lia|].
  destruct (_ && _); [|lia].
  destruct r as [|d r']; [cbn [length]; lia|].
  destruct (_ && _); [|lia].
  cbn [length] in *. rewrite Nat2N.inj_succ.
  assert ((N.of_nat (length r') ≤ utf8_length r')%N) by (apply IH; lia). lia.
Qed.

Lemma utf8_length_ascii s :
  Forall (λ c, (c < 128)%N) s → utf8_length s = N.of_nat (length s).
Proof.
  induction 1 as [|c r Hc _ IH]; [done|]. cbn [utf8_length length].
  rewrite (proj2 (N.ltb_lt _ _) Hc), IH. lia.
Qed.

Lemma getStats_absent s :
  files (fs (host s)) !! __path__ (this s) = None →
  getFileSize s = (Throw ENOENT, s) ∧ getStats s = (Throw ENOENT, s).
Proof.
  intros Hf.
  assert (Hsize : getFileSize s = (Throw ENOENT, s)).
  { unfold getFileSize, statSync_size. cbv [bind ret gets throw]. by rewrite Hf. }
  split; [done|]. unfold getStats. unfold bind at 1. by rewrite Hsize.
Qed.

Lemma getStats_present s t text :
  files (fs (host s)) !! __path__ (this s) = Some text →
  plain_data s = Some t →
  ∃ keyLengths dataText,
    JSON_stringify (JObject Plain t) = Some dataText
    ∧ getStats s
      = (Ok (JObject Plain
               [(js "filesize", JNumber (num_of_N (utf8_length text)));
                (js "keyLengths", keyLengths);
                (js "dataSize", JNumber (num_of_N (N.of_nat (length dataText))))]), s).
Proof.
  intros Hf Hp.
  assert (Hsize : getFileSize s = (Ok (JNumber (num_of_N (utf8_length text))), s)).
  { unfold getFileSize, statSync_size. cbv [bind ret gets throw]. by rewrite Hf. }
  assert (Hlen : ∃ acc, getKeyLengths s = (Ok (JObject Plain acc), s)).
  { unfold getKeyLengths, allKeys. cbv [bind gets lift]. rewrite (plain_data_eq _ _ Hp).
    cbn [js_keys]. rewrite (reduce_key_lengths _ _ _ _ Hp). by eexists. }
  destruct Hlen as [acc Hlen].
  destruct (JSON_stringify (JObject Plain t)) as [dataText|] eqn:Htext; [|done].
  exists (JObject Plain acc), dataText. split; [done|].
  unfold getStats. unfold bind at 1. rewrite Hsize. unfold bind at 1. rewrite Hlen.
  cbv [bind gets ret]. by rewrite (plain_data_eq _ _ Hp), Htext.
Qed.

(** X8.  The statistics need the file: while the backing file is absent
    [getFileSize ()] and [getStats ()] throw.  The constructor creates no
    file on a platform other than win32, so that the statistics of a bucket
    without a file throw from its construction on.  When the file is there
    and the data is a map, [getStats ()] returns. *)
Theorem getStats_needs_the_file s :
  (files (fs (host s)) !! __path__ (this s) = None →
   getFileSize s = (Throw ENOENT, s) ∧ getStats s = (Throw ENOENT, s))
  ∧ (∀ bucketName w,
       s = (constructor bucketName w).2 →
       platform ≠ js "win32" →
       files (fs w) !! path_join dbPath (db_file bucketName) = None →
       getStats s = (Throw ENOENT, s))
  ∧ (∀ t, is_Some (files (fs (host s)) !! __path__ (this s)) →
          plain_data s = Some t →
          ∃ stats, getStats s = (Ok stats, s)).
Proof.
  split; [apply getStats_absent|]. split.
  - intros bucketName w -> Hplat Hfile. apply getStats_absent.
    destruct (constructor_eq bucketName w) as [ipc ->]. cbn [snd this host fs __path__].
    unfold migrated. rewrite (bool_decide_eq_false_2 (platform = js "win32")) by done.
    exact Hfile.
  - intros t [text Hfile] Hp.
    destruct (getStats_present s t text Hfile Hp) as (kl & dt & _ & Hstats).
    by eexists.
Qed.

(** ** The construction and the store *)

(** X9.  A file that is there is kept: on every platform, when the
    backing file exists the constructor leaves the disk as it is, a file of
    the previous location included, and loads the bucket from the backing
    file. *)
Theorem constructor_keeps_the_file bucketName w text :
  files (fs w) !! path_join dbPath (db_file bucketName) = Some text →
  fs (host (constructor bucketName w).2) = fs w
  ∧ __data__ (this (constructor bucketName w).2)
    = loaded (fs w) (path_join dbPath (db_file bucketName))
  ∧ timers (host (constructor bucketName w).2) = timers w
  ∧ write_log (host (constructor bucketName w).2) = write_log w.
Proof.
  intros Hf. destruct (constructor_eq bucketName w) as [ipc ->].
  cbn [snd this host fs __data__ timers write_log].
  by rewrite (migrated_present _ _ _ Hf).
Qed.

(** X10.  Structured data through the store, under a key other than
    [__proto__]: when the caller stores the JSON text of an object of
    strings, [getJSONItem] gives the object back; when it stores an object as
    it is (one that has a string form: no property [toString] of its own),
    what is stored is the string [[object Object]], and [getJSONItem] gives
    the empty object. *)
Theorem json_through_the_store s t k d (M : list (jsstring * jsstring)) :
  plain_data s = Some t →
  canonical (map fst M) = true →
  k ≠ js "__proto__" →
  (∀ text, JSON_stringify (JObject Plain (string_table M)) = Some text →
           (getJSONItem k d (_setItem k (JString text) s).2).1
           = Ok (JObject Plain (string_table M)))
  ∧ (∀ o : table,
       stringable (JObject Plain o) = true →
       (getItem k d (_setItem k (JObject Plain o) s).2).1
       = Ok (JString (js "[object Object]"))
       ∧ (getJSONItem k d (_setItem k (JObject Plain o) s).2).1 = Ok (JObject Plain [])).
Proof.
  intros Hp Hc Hk.
  assert (Hp' : ∀ v, plain_data (_setItem k v s).2
                     = Some (tbl_put t k (JString (ToString v)))).
  { intros v. rewrite (_setItem_eq _ _ _ _ Hp). cbn [snd]. unfold plain_data.
    by rewrite mutated_data, tbl_assign_put. }
  split.
  - intros text Htext. rewrite (getJSONItem_plain _ _ _ _ (Hp' _)). cbn [fst].
    rewrite tbl_get_put_eq. cbn [ToString].
    rewrite stringify_string_table in Htext. injection Htext as <-.
    cbn [truthy]. by rewrite (JSON_parse_snapshot_text M Hc).
  - intros o _. split.
    + rewrite (getItem_plain _ _ _ _ (Hp' _)). cbn [fst]. by rewrite tbl_get_put_eq.
    + rewrite (getJSONItem_plain _ _ _ _ (Hp' _)). cbn [fst]. by rewrite tbl_get_put_eq.
Qed.

(** ** The requests *)

(** On a key that is a string the two forms of a mutation are one. *)
Lemma _setItem_any_string k v : _setItem_any (JString k) v = _setItem k v.
Proof. reflexivity. Qed.

Lemma _removeItem_any_string k : _removeItem_any (JString k) = _removeItem k.
Proof. reflexivity. Qed.

Lemma _setItem_any_eq s t k v :
  plain_data s = Some t →
  _setItem_any k v s
  = (Ok v,
     mutated (JObject Plain (tbl_assign t (ToString k) (JString (ToString v))))
             [(js "changed", JObject Plain [(js "type", JString (js "setItem"));
                                            (js "key", k)]);
              (js "changed:" ++ ToString k, JObject Plain [])] s).
Proof.
  intros Hp%plain_data_eq. unfold _setItem_any, emit, mutated, ToPropertyKey.
  cbv [bind ret gets modify lift mbind M_bind].
  rewrite Hp. cbn [js_put_string]. rewrite !_writeToDisk_eq.
  destruct s as [[pa h l d c] [ck tm nt inf f con em ipc wl]]. step_m.
  by rewrite <- app_assoc.
Qed.

Lemma _removeItem_any_eq s t k :
  plain_data s = Some t →
  _removeItem_any k s
  = (Ok JUndefined,
     mutated (JObject Plain (tbl_delete t (ToString k)))
             [(js "changed", JObject Plain [(js "type", JString (js "removeItem"));
                                            (js "key", k)]);
              (js "changed:" ++ ToString k, JObject Plain [])] s).
Proof.
  intros Hp%plain_data_eq. unfold _removeItem_any, emit, mutated, ToPropertyKey.
  cbv [bind ret gets modify lift mbind M_bind].
  rewrite Hp. cbn [js_delete]. rewrite !_writeToDisk_eq.
  destruct s as [[pa h l d c] [ck tm nt inf f con em ipc wl]]. step_m.
  by rewrite <- app_assoc.
Qed.

Lemma mutated_channel d ev s :
  __ipcReplyChannel__ (this (mutated d ev s)) = __ipcReplyChannel__ (this s).
Proof. unfold mutated. rewrite _writeToDisk_eq. by destruct s as [[] []]. Qed.

Lemma _sendIPCResponse_eq evt response sync s :
  _sendIPCResponse evt response sync s
  = (Ok (answered evt (__ipcReplyChannel__ (this s)) sync response), s).
Proof. unfold _sendIPCResponse, answered. by destruct (truthy sync). Qed.

Lemma allItems_plain s t :
  plain_data s = Some t → ∃ v, allItems s = (Ok v, s).
Proof.
  intros Hp. unfold allItems, allKeys. cbv [bind gets lift]. rewrite (plain_data_eq _ _ Hp).
  cbn [js_keys].
  rewrite (reduce_assign s (λ key, getItem key JUndefined)
             (λ k, match tbl_get t k with
                   | Some v => item_of v
                   | None => item_of JUndefined
                   end)).
  - by eexists.
  - intros k _. rewrite (getItem_plain _ _ _ _ Hp). unfold item_of.
    by destruct (tbl_get t k).
Qed.

(** A value that has one property has them all: only undefined and null
    have none. *)
Lemma js_get_total b k v k' : js_get b k = Ok v → ∃ v', js_get b k' = Ok v'.
Proof.
  destruct b as [| | | |str|[|len] tb]; cbn [js_get]; try done; intros _;
    repeat case_decide; try (by eexists).
  destruct (is_index k'); [|by eexists]. destruct (_ !! _); by eexists.
Qed.

(** What a bucket does whose data is undefined or null. *)
Lemma js_get_throws b k e : js_get b k = Throw e → e = TypeError.
Proof.
  destruct b as [| | | |str|[|len] tb]; cbn [js_get]; try congruence;
    repeat case_decide; try congruence; repeat case_match; congruence.
Qed.

Lemma getItem_null k d s :
  __data__ (this s) = JUndefined ∨ __data__ (this s) = JNull →
  getItem k d s = (Throw TypeError, s).
Proof. unfold getItem. cbv [bind gets lift]. by intros [-> | ->]. Qed.

Lemma allKeys_null s :
  __data__ (this s) = JUndefined ∨ __data__ (this s) = JNull →
  allKeys s = (Throw TypeError, s).
Proof. unfold allKeys. cbv [bind gets lift]. by intros [-> | ->]. Qed.

Lemma _setItem_any_null k v s :
  __data__ (this s) = JUndefined ∨ __data__ (this s) = JNull →
  _setItem_any k v s = (Throw TypeError, s).
Proof. unfold _setItem_any. cbv [bind gets lift]. by intros [-> | ->]. Qed.

Lemma _removeItem_any_null k s :
  __data__ (this s) = JUndefined ∨ __data__ (this s) = JNull →
  _removeItem_any k s = (Throw TypeError, s).
Proof. unfold _removeItem_any. cbv [bind gets lift]. by intros [-> | ->]. Qed.

(** X11.  A request that cannot be served has no effect.  When the body is
    undefined or null every listener throws a TypeError, at the first read
    of the body; and on a bucket whose data is undefined or null (the
    snapshot was [null]) every listener throws, whatever the body: a
    TypeError, or for the statistics the error of the file system when there
    is no file.  In both cases nothing has been stored, no timer has been
    armed and no event has been emitted: the state is the one before the
    request, and the request gets no answer. *)
Theorem failed_request_has_no_effect r evt body s :
  (body = JUndefined ∨ body = JNull → listener r evt body s = (Throw TypeError, s))
  ∧ (__data__ (this s) = JUndefined ∨ __data__ (this s) = JNull →
     ∃ e, listener r evt body s = (Throw e, s)
          ∧ (r ≠ GetStatsRequest → e = TypeError)).
Proof.
  split; [intros [-> | ->]; by destruct r|].
  intros Hd.
  destruct (js_get body (js "id")) as [id|e0] eqn:Hid.
  2:{ (* no property can be read *)
      pose proof (js_get_throws _ _ _ Hid) as ->.
      assert (Hnone : ∀ k, js_get body k = Throw TypeError).
      { intros k. destruct body as [| | | |str|[|len] tb]; cbn [js_get] in *;
          try congruence; repeat case_decide; try congruence;
          repeat case_match; congruence. }
      exists TypeError. split; [|done].
      destruct r; cbn [listener];
        unfold _handleIPCSetItem, _handleIPCRemoveItem, _handleIPCGetItem, _handleIPCAllKeys,
               _handleIPCAllItems, _handleIPCGetStats;
        cbv [bind lift mbind M_bind]; by rewrite !Hnone. }
  destruct (js_get_total _ _ _ (js "key") Hid) as [key Hkey].
  destruct (js_get_total _ _ _ (js "value") Hid) as [value Hvalue].
  destruct r; cbn [listener].
  - exists TypeError. split; [|done].
    unfold _handleIPCSetItem. cbv [bind lift mbind M_bind]. rewrite Hkey, Hvalue.
    by rewrite (_setItem_any_null _ _ _ Hd).
  - exists TypeError. split; [|done].
    unfold _handleIPCRemoveItem. cbv [bind lift mbind M_bind]. rewrite Hkey.
    by rewrite (_removeItem_any_null _ _ Hd).
  - exists TypeError. split; [|done].
    unfold _handleIPCGetItem. cbv [bind lift]. rewrite Hid, Hkey.
    by rewrite (getItem_null _ _ _ Hd).
  - exists TypeError. split; [|done].
    unfold _handleIPCAllKeys. cbv [bind lift]. rewrite Hid.
    by rewrite (allKeys_null _ Hd).
  - exists TypeError. split; [|done].
    unfold _handleIPCAllItems, allItems. cbv [bind lift]. rewrite Hid.
    by rewrite (allKeys_null _ Hd).
  - unfold _handleIPCGetStats, getStats, getKeyLengths. cbv [bind lift]. rewrite Hid.
    pose proof (getFileSize_state s) as Hst.
    destruct (getFileSize s) as [[v|e'] s1]; cbn [snd] in Hst; subst s1.
    + rewrite (allKeys_null _ Hd). by eexists.
    + by eexists.
Qed.

(** X12.  One answer to each request: on a map, a request whose body is
    not undefined or null, and whose key and value have a string form, is
    answered once, by the value of the event when [body.sync] holds and by
    one message on the channel of the replies otherwise, and the answer
    carries [body.id].  The response is null for a mutation, which is carried
    out, and what the read returns for a read, which changes nothing: for
    [getItem] the stored value, or undefined when that is empty or when the
    key is absent and none of the names that every object inherits; the
    statistics need the file. *)
Theorem one_answer_to_each_request r evt body s t id sync key value :
  plain_data s = Some t →
  js_get body (js "id") = Ok id →
  js_get body (js "sync") = Ok sync →
  js_get body (js "key") = Ok key →
  js_get body (js "value") = Ok value →
  stringable key = true →
  stringable value = true →
  (r = GetItemRequest → tbl_get t (ToString key) = None → inherited (ToString key) = false) →
  (r = GetStatsRequest → is_Some (files (fs (host s)) !! __path__ (this s))) →
  ∃ response s',
    listener r evt body s
    = (Ok (answered evt (__ipcReplyChannel__ (this s)) sync
             (JObject Plain [(js "id", id); (js "response", response)])), s')
    ∧ match r with
      | SetItemRequest =>
          response = JNull ∧ s' = (_setItem_any key value s).2
          ∧ plain_data s' = Some (tbl_assign t (ToString key) (JString (ToString value)))
      | RemoveItemRequest =>
          response = JNull ∧ s' = (_removeItem_any key s).2
          ∧ plain_data s' = Some (tbl_delete t (ToString key))
      | GetItemRequest =>
          s' = s ∧ response = match tbl_get t (ToString key) with
                              | Some v => item_of v
                              | None => JUndefined
                              end
      | AllKeysRequest => s' = s ∧ response = make_array (map JString (tbl_keys t))
      | AllItemsRequest => s' = s ∧ allItems s = (Ok response, s)
      | GetStatsRequest => s' = s ∧ getStats s = (Ok response, s)
      end.
Proof.
  intros Hp Hid Hsync Hkey Hvalue _ _ _ Hfile.
  destruct r; cbn [listener].
  - exists JNull, (_setItem_any key value s).2.
    unfold _handleIPCSetItem. cbv [bind lift mbind M_bind]. rewrite Hkey, Hvalue.
    rewrite (_setItem_any_eq _ _ _ _ Hp). cbn [snd]. rewrite Hid, Hsync.
    rewrite _sendIPCResponse_eq, mutated_channel. split; [done|]. split; [done|].
    split; [done|]. unfold plain_data. by rewrite mutated_data.
  - exists JNull, (_removeItem_any key s).2.
    unfold _handleIPCRemoveItem. cbv [bind lift mbind M_bind]. rewrite Hkey.
    rewrite (_removeItem_any_eq _ _ _ Hp). cbn [snd]. rewrite Hid, Hsync.
    rewrite _sendIPCResponse_eq, mutated_channel. split; [done|]. split; [done|].
    split; [done|]. unfold plain_data. by rewrite mutated_data.
  - eexists _, s. unfold _handleIPCGetItem, ToPropertyKey. cbv [bind lift]. rewrite Hid, Hkey.
    rewrite (getItem_plain _ _ _ _ Hp), Hsync, _sendIPCResponse_eq.
    split; [done|]. split; [done|]. unfold item_of. by destruct (tbl_get _ _).
  - eexists _, s. unfold _handleIPCAllKeys, allKeys. cbv [bind lift gets]. rewrite Hid.
    rewrite (plain_data_eq _ _ Hp). cbn [js_keys]. rewrite Hsync, _sendIPCResponse_eq.
    done.
  - destruct (allItems_plain _ _ Hp) as [v Hv]. exists v, s.
    unfold _handleIPCAllItems. cbv [bind lift]. rewrite Hid, Hv, Hsync, _sendIPCResponse_eq.
    done.
  - destruct (Hfile eq_refl) as [text Htext].
    destruct (getStats_present s t text Htext Hp) as (kl & dt & _ & Hv).
    eexists _, s.
    unfold _handleIPCGetStats. cbv [bind lift]. rewrite Hid, Hv, Hsync, _sendIPCResponse_eq.
    done.
Qed.

(** X13.  Set, then get, over IPC: on a map, a request to set an item is
    answered by null, not by the value; a request to get the item, whose key
    has the same string form (the number 1 for the string [1]), is then
    answered by the string form of the value, and by undefined when that is
    empty.  The keys and the value have a string form, which for the key is
    not [__proto__]. *)
Theorem set_then_get_over_ipc s t evt1 evt2 b1 b2 key1 key2 value id1 id2 sync1 sync2 :
  plain_data s = Some t →
  stringable key1 = true →
  stringable key2 = true →
  stringable value = true →
  ToString key1 ≠ js "__proto__" →
  js_get b1 (js "key") = Ok key1 →
  js_get b1 (js "value") = Ok value →
  js_get b1 (js "id") = Ok id1 →
  js_get b1 (js "sync") = Ok sync1 →
  js_get b2 (js "key") = Ok key2 →
  js_get b2 (js "id") = Ok id2 →
  js_get b2 (js "sync") = Ok sync2 →
  ToString key2 = ToString key1 →
  ∃ s1,
    _handleIPCSetItem evt1 b1 s
    = (Ok (answered evt1 (__ipcReplyChannel__ (this s)) sync1
             (JObject Plain [(js "id", id1); (js "response", JNull)])), s1)
    ∧ _handleIPCGetItem evt2 b2 s1
      = (Ok (answered evt2 (__ipcReplyChannel__ (this s)) sync2
               (JObject Plain [(js "id", id2);
                               (js "response", item_of (JString (ToString value)))])), s1).
Proof.
  intros Hp _ _ _ Hproto Hk1 Hv Hi1 Hs1 Hk2 Hi2 Hs2 Hkey.
  exists (_setItem_any key1 value s).2. split.
  - unfold _handleIPCSetItem. cbv [bind lift mbind M_bind]. rewrite Hk1, Hv.
    rewrite (_setItem_any_eq _ _ _ _ Hp). cbn [snd]. rewrite Hi1, Hs1.
    by rewrite _sendIPCResponse_eq, mutated_channel.
  - rewrite (_setItem_any_eq _ _ _ _ Hp). cbn [snd].
    unfold _handleIPCGetItem, ToPropertyKey. cbv [bind lift]. rewrite Hi2, Hk2.
    erewrite getItem_plain; [|unfold plain_data; by rewrite mutated_data].
    rewrite Hs2, _sendIPCResponse_eq, mutated_channel, Hkey.
    rewrite tbl_get_assign_eq; [done|by left].
Qed.

End Bucket_facts.

(** * Facts about the timer and the lock *)

Section Timer_facts.
Import JS StorageBucket.
Context {NUM : JSNumber} {HOST : Host}.

Abbreviation table := (list (jsstring * jsval)).

Ltac step_m :=
  cbv [bind ret gets modify lift throw try_catch mbind M_bind mret M_ret
       with_host with_this set_fs set_console set_clock set_timers set_inflight
       set_emitted set_ipc_channels set_write_log set_writeHold set_writeLock set_data
       this host fs console clock timers next_timer inflight emitted ipc_channels
       write_log __path__ __writeHold__ __writeLock__ __data__ __ipcReplyChannel__
       negb fst snd].

(** Runs one turn of the loop on a state given by its fields; [tac] settles
    the tests that come up. *)
Ltac tick_with tac :=
  unfold tick, turn;
  repeat (step_m;
          cbn [List.filter existsb for_each orb andb app];
          cbv [complete_write run_timer on_written on_timer _writeToDisk clearTimeout
               setTimeout writeFileAtomic];
          rewrite ?Nat.eqb_refl; tac).

Ltac open_state s :=
  destruct s as [[pa h l dat c] [ck tm nt inf f con em ipc wl]];
  unfold well_formed;
  cbn [this host timers inflight clock write_log next_timer
       __writeHold__ __writeLock__ __data__ __path__ fst snd] in *.

(** No timer: nothing is written. *)
Lemma tick_idle s :
  well_formed s = true →
  timers (host s) = [] →
  well_formed (tick s) = true
  ∧ timers (host (tick s)) = []
  ∧ write_log (host (tick s)) = write_log (host s).
Proof.
  open_state s. intros Hwf ->. cbn [andb] in Hwf.
  destruct inf as [|pw [|pw' inf]], l; try done.
  destruct (w_due pw <=? S ck) eqn:Hpw; tick_with ltac:(rewrite ?Hpw); done.
Qed.

(** A timer that is not due stays. *)
Lemma tick_quiet s id due :
  well_formed s = true →
  timers (host s) = [(id, due)] →
  (S (clock (host s)) < due) →
  well_formed (tick s) = true
  ∧ timers (host (tick s)) = [(id, due)]
  ∧ write_log (host (tick s)) = write_log (host s)
  ∧ clock (host (tick s)) = S (clock (host s))
  ∧ __data__ (this (tick s)) = __data__ (this s)
  ∧ __path__ (this (tick s)) = __path__ (this s)
  ∧ inflight (host (tick s))
    = List.filter (λ pw, negb (w_due pw <=? S (clock (host s)))) (inflight (host s)).
Proof.
  open_state s. intros Hwf -> Hdue.
  apply andb_true_iff in Hwf as [Hh%bool_decide_eq_true Hl]. cbn [fst] in Hh. subst h.
  assert (Hnot : (due <=? S ck) = false) by (apply Nat.leb_gt; lia).
  destruct inf as [|pw [|pw' inf]], l; try done.
  - tick_with ltac:(rewrite ?Hnot). by rewrite bool_decide_eq_true_2.
  - destruct (w_due pw <=? S ck) eqn:Hpw; tick_with ltac:(rewrite ?Hpw, ?Hnot);
      by rewrite bool_decide_eq_true_2.
Qed.

(** The timer fires while a write is under way: no write is started, and the
    timer is armed again for the delay. *)
Lemma tick_requeue s id due pw :
  well_formed s = true →
  timers (host s) = [(id, due)] →
  (due ≤ S (clock (host s))) →
  inflight (host s) = [pw] →
  (S (clock (host s)) < w_due pw) →
  well_formed (tick s) = true
  ∧ timers (host (tick s))
    = [(next_timer (host s),
        S (clock (host s)) + DB_WRITE_DELAY_MS + timer_lateness (next_timer (host s)))]
  ∧ __writeHold__ (this (tick s)) = Some (next_timer (host s))
  ∧ inflight (host (tick s)) = [pw]
  ∧ __writeLock__ (this (tick s)) = true
  ∧ write_log (host (tick s)) = write_log (host s)
  ∧ clock (host (tick s)) = S (clock (host s))
  ∧ __data__ (this (tick s)) = __data__ (this s)
  ∧ __path__ (this (tick s)) = __path__ (this s).
Proof.
  open_state s. intros Hwf -> Hdue -> Hpw.
  apply andb_true_iff in Hwf as [Hh%bool_decide_eq_true ->]. cbn [fst] in Hh. subst h.
  assert (Hfire : (due <=? S ck) = true) by (apply Nat.leb_le; lia).
  assert (Hnot : (w_due pw <=? S ck) = false) by (apply Nat.leb_gt; lia).
  tick_with ltac:(rewrite ?Hnot, ?Hfire). by rewrite bool_decide_eq_true_2.
Qed.

(** The timer fires while no write is under way: the write is started. *)
Lemma tick_flush s id due :
  well_formed s = true →
  timers (host s) = [(id, due)] →
  (due ≤ S (clock (host s))) →
  Forall (λ pw, w_due pw ≤ S (clock (host s))) (inflight (host s)) →
  well_formed (tick s) = true
  ∧ timers (host (tick s)) = []
  ∧ write_log (host (tick s))
    = (S (clock (host s)), __path__ (this s), JSON_stringify (__data__ (this s)))
      :: write_log (host s)
  ∧ inflight (host (tick s))
    = [{| w_due := S (clock (host s)) + S (write_duration (length (write_log (host s))));
          w_path := __path__ (this s);
          w_text := JSON_stringify (__data__ (this s)) |}]
  ∧ __writeLock__ (this (tick s)) = true
  ∧ clock (host (tick s)) = S (clock (host s))
  ∧ __data__ (this (tick s)) = __data__ (this s)
  ∧ __path__ (this (tick s)) = __path__ (this s).
Proof.
  open_state s. intros Hwf -> Hdue Hinf.
  apply andb_true_iff in Hwf as [Hh Hl].
  assert (Hfire : (due <=? S ck) = true) by (apply Nat.leb_le; lia).
  destruct inf as [|pw [|pw' inf]], l; try done.
  - tick_with ltac:(rewrite ?Hfire). done.
  - apply Forall_cons in Hinf as [Hpw%Nat.leb_le _].
    tick_with ltac:(rewrite ?Hpw, ?Hfire). done.
Qed.

(** ** Several turns *)

Lemma wf_inflight s :
  well_formed s = true → inflight (host s) = [] ∨ ∃ pw, inflight (host s) = [pw].
Proof.
  unfold well_formed. intros [_ H]%andb_true_iff.
  destruct (inflight (host s)) as [|pw [|pw' inf]]; [by left|right; by eexists|done].
Qed.

Lemma ticks_add n m s : ticks (n + m) s = ticks m (ticks n s).
Proof. revert s. induction n as [|n IH]; intros s; [done|]. apply IH. Qed.

Lemma ticks_idle n s :
  well_formed s = true →
  timers (host s) = [] →
  well_formed (ticks n s) = true
  ∧ timers (host (ticks n s)) = []
  ∧ write_log (host (ticks n s)) = write_log (host s).
Proof.
  revert s. induction n as [|n IH]; intros s Hwf Ht; [done|]. cbn [ticks].
  destruct (tick_idle s Hwf Ht) as (Hwf' & Ht' & Hl').
  destruct (IH _ Hwf' Ht') as (? & ? & ?). repeat split; congruence.
Qed.


Lemma flush_at_after s T : flush_at s T → one_write_after s T.
Proof.
  intros (Hbefore & Hat & Htm & Hwf). split; [done|].
  intros n Hn. replace n with (T + (n - T)) by lia. rewrite ticks_add.
  destruct (ticks_idle (n - T) _ Hwf Htm) as (_ & _ & ->). done.
Qed.

Lemma flush_at_next s T :
  write_log (host (tick s)) = write_log (host s) →
  clock (host (tick s)) = S (clock (host s)) →
  __data__ (this (tick s)) = __data__ (this s) →
  __path__ (this (tick s)) = __path__ (this s) →
  flush_at (tick s) T → flush_at s (S T).
Proof.
  intros Hl Hc Hd Hp (Hbefore & Hat & Htm & Hwf). unfold flush_at. cbn [ticks].
  split; [|split; [|done]].
  - intros [|n] Hn; [done|]. cbn [ticks]. rewrite Hbefore by lia. done.
  - rewrite Hat, Hl, Hc, Hd, Hp. do 3 f_equal. lia.
Qed.

Lemma flush_at_now s id due :
  well_formed s = true →
  timers (host s) = [(id, due)] →
  (due ≤ S (clock (host s))) →
  Forall (λ pw, w_due pw ≤ S (clock (host s))) (inflight (host s)) →
  flush_at s 1.
Proof.
  intros Hwf Ht Hdue Hinf.
  destruct (tick_flush s id due Hwf Ht Hdue Hinf) as (Hwf' & Ht' & Hl' & _).
  unfold flush_at. cbn [ticks]. repeat split; try done.
  - by intros [|n] Hn; [|lia].
  - rewrite Hl'. do 3 f_equal. lia.
Qed.

(** With the lock free, the write starts when the timer fires. *)
Lemma flush_when_free d s id due :
  well_formed s = true →
  timers (host s) = [(id, due)] →
  inflight (host s) = [] →
  (due ≤ S (clock (host s)) + d) →
  ∃ T, 1 ≤ T ∧ due ≤ clock (host s) + T ∧ flush_at s T.
Proof.
  revert s. induction d as [|d IH]; intros s Hwf Ht Hinf Hdue.
  { exists 1. split; [done|]. split; [lia|].
    apply (flush_at_now s id due); try done; [lia|]. rewrite Hinf. constructor. }
  destruct (decide (due ≤ S (clock (host s)))) as [Hnow|Hlater].
  { exists 1. split; [done|]. split; [lia|].
    apply (flush_at_now s id due); try done. rewrite Hinf. constructor. }
  destruct (tick_quiet s id due Hwf Ht) as (Hwf' & Ht' & Hl' & Hc' & Hd' & Hp' & Hi'); [lia|].
  rewrite Hinf in Hi'. cbn [List.filter] in Hi'.
  destruct (IH (tick s) Hwf' Ht' Hi') as (T & HT & Hdue' & Hflush); [lia|].
  exists (S T). split; [lia|]. split; [lia|]. by apply flush_at_next.
Qed.

(** Whatever the lock, the write starts in the end: when the timer finds
    the lock held it is armed again, until the write under way has ended. *)
Lemma flush_eventually e s id due :
  well_formed s = true →
  timers (host s) = [(id, due)] →
  Forall (λ pw, w_due pw ≤ S (clock (host s)) + e) (inflight (host s)) →
  ∃ T, 1 ≤ T ∧ due ≤ clock (host s) + T
       ∧ Forall (λ pw, w_due pw ≤ clock (host s) + T) (inflight (host s))
       ∧ flush_at s T.
Proof.
  revert s id due. induction e as [|e IH]; intros s id due Hwf Ht He.
  - (* every write under way ends at this turn *)
    destruct (decide (due ≤ S (clock (host s)))) as [Hnow|Hlater].
    { exists 1. split; [done|]. split; [lia|]. split.
      - eapply Forall_impl; [exact He|]. intros pw ?. cbn beta in *. lia.
      - apply (flush_at_now s id due); try done.
        eapply Forall_impl; [exact He|]. intros pw ?. cbn beta in *. lia. }
    destruct (tick_quiet s id due Hwf Ht) as (Hwf' & Ht' & Hl' & Hc' & Hd' & Hp' & Hi');
      [lia|].
    assert (Hfree : inflight (host (tick s)) = []).
    { rewrite Hi'. clear -He. induction He as [|pw inf Hpw _ IHl]; [done|].
      cbn [List.filter]. rewrite (proj2 (Nat.leb_le _ _)) by lia. done. }
    destruct (flush_when_free (due - S (clock (host (tick s)))) (tick s) id due Hwf' Ht' Hfree)
      as (T & HT & Hdue' & Hflush); [lia|].
    exists (S T). split; [lia|]. split; [lia|]. split.
    + eapply Forall_impl; [exact He|]. intros pw ?. cbn beta in *. lia.
    + by apply flush_at_next.
  - destruct (wf_inflight s Hwf) as [Hinf|[pw Hinf]].
    { destruct (flush_when_free (due - S (clock (host s))) s id due Hwf Ht Hinf)
        as (T & HT & Hdue' & Hflush); [lia|].
      exists T. split; [done|]. split; [done|]. split; [|done]. rewrite Hinf. constructor. }
    destruct (decide (w_due pw ≤ S (clock (host s)))) as [Hend|Hnot].
    { apply (IH s id due Hwf Ht). rewrite Hinf. rewrite Forall_singleton. lia. }
    destruct (decide (due ≤ S (clock (host s)))) as [Hnow|Hlater].
    + (* the timer fires and finds the lock held *)
      destruct (tick_requeue s id due pw Hwf Ht Hnow Hinf)
        as (Hwf' & Ht' & _ & Hi' & _ & Hl' & Hc' & Hd' & Hp'); [lia|].
      destruct (IH (tick s) _ _ Hwf' Ht') as (T & HT & Hdue' & Hpw' & Hflush).
      { rewrite Hi', Hc'. rewrite Hinf in He. rewrite Forall_singleton in He.
        rewrite Forall_singleton. lia. }
      exists (S T). split; [lia|]. split; [lia|]. split.
      * rewrite Hi', Hc' in Hpw'. rewrite Forall_singleton in Hpw'.
        rewrite Hinf. rewrite Forall_singleton. lia.
      * by apply flush_at_next.
    + destruct (tick_quiet s id due Hwf Ht) as (Hwf' & Ht' & Hl' & Hc' & Hd' & Hp' & Hi');
        [lia|].
      assert (Hsame : inflight (host (tick s)) = [pw]).
      { rewrite Hi', Hinf. cbn [List.filter]. rewrite (proj2 (Nat.leb_gt _ _)) by lia. done. }
      destruct (IH (tick s) _ _ Hwf' Ht') as (T & HT & Hdue' & Hpw' & Hflush).
      { rewrite Hsame, Hc'. rewrite Hinf in He. rewrite Forall_singleton in He.
        rewrite Forall_singleton. lia. }
      exists (S T). split; [lia|]. split; [lia|]. split.
      * rewrite Hsame, Hc' in Hpw'. rewrite Forall_singleton in Hpw'.
        rewrite Hinf. rewrite Forall_singleton. lia.
      * by apply flush_at_next.
Qed.

(** Some bound on the writes under way, to start the induction from. *)
Lemma inflight_bound s :
  ∃ e, Forall (λ pw, w_due pw ≤ S (clock (host s)) + e) (inflight (host s)).
Proof.
  induction (inflight (host s)) as [|pw inf [e IH]]; [by exists 0|].
  exists (e + w_due pw). constructor; [lia|].
  eapply Forall_impl; [exact IH|]. intros ? ?. cbn beta in *. lia.
Qed.

(** ** Mutations and the timer *)

Lemma mutated_facts d ev s :
  well_formed s = true →
  well_formed (mutated d ev s) = true
  ∧ timers (host (mutated d ev s))
    = [(next_timer (host s),
        clock (host s) + DB_WRITE_DELAY_MS + timer_lateness (next_timer (host s)))]
  ∧ __writeHold__ (this (mutated d ev s)) = Some (next_timer (host s))
  ∧ write_log (host (mutated d ev s)) = write_log (host s)
  ∧ clock (host (mutated d ev s)) = clock (host s)
  ∧ __data__ (this (mutated d ev s)) = d
  ∧ __path__ (this (mutated d ev s)) = __path__ (this s)
  ∧ inflight (host (mutated d ev s)) = inflight (host s).
Proof.
  unfold mutated. rewrite _writeToDisk_eq. open_state s. intros Hwf.
  apply andb_true_iff in Hwf as [Hh Hl].
  destruct tm as [|[id due] [|t' tm]]; [| |done].
  - destruct h, inf as [|pw [|pw' inf]], l; try done; step_m;
      cbn [List.filter app andb]; by rewrite bool_decide_eq_true_2.
  - apply bool_decide_eq_true in Hh. cbn [fst] in Hh. subst h.
    destruct inf as [|pw [|pw' inf]], l; try done; step_m;
      cbn [List.filter app andb]; rewrite Nat.eqb_refl; cbn [app andb];
      by rewrite bool_decide_eq_true_2.
Qed.

(** A mutation either throws before it changes anything, or stores some data
    and arms the timer. *)
Lemma mutate_cases m s :
  (mutate m s).2 = s ∨ ∃ d ev, (mutate m s).2 = mutated d ev s.
Proof.
  destruct m as [k v|k]; cbn [mutate]; unfold _setItem, _removeItem, emit, mutated;
    cbv [bind ret gets modify lift mbind M_bind].
  - destruct (js_put_string _ _ _) as [d|e]; [|by left].
    right. exists d. rewrite !_writeToDisk_eq. eexists.
    destruct s as [[pa h l d0 c] [ck tm nt inf f con em ipc wl]]. step_m.
    by rewrite <- app_assoc.
  - destruct (js_delete _ _) as [d|e]; [|by left].
    right. exists d. rewrite !_writeToDisk_eq. eexists.
    destruct s as [[pa h l d0 c] [ck tm nt inf f con em ipc wl]]. step_m.
    by rewrite <- app_assoc.
Qed.

(** ** The invariant *)

Lemma well_formed_tick s : well_formed s = true → well_formed (tick s) = true.
Proof.
  intros Hwf.
  destruct (timers (host s)) as [|[id due] [|t' tm]] eqn:Ht.
  - by destruct (tick_idle s Hwf Ht) as (? & _).
  - destruct (decide (due ≤ S (clock (host s)))) as [Hnow|Hlater].
    + destruct (wf_inflight s Hwf) as [Hinf|[pw Hinf]].
      * destruct (tick_flush s id due Hwf Ht Hnow) as (? & _); [|done].
        rewrite Hinf. constructor.
      * destruct (decide (w_due pw ≤ S (clock (host s)))) as [Hend|Hnot].
        -- destruct (tick_flush s id due Hwf Ht Hnow) as (? & _); [|done].
           rewrite Hinf. by rewrite Forall_singleton.
        -- destruct (tick_requeue s id due pw Hwf Ht Hnow Hinf) as (? & _); [lia|done].
    + destruct (tick_quiet s id due Hwf Ht) as (? & _); [lia|done].
  - unfold well_formed in Hwf. by rewrite Ht in Hwf.
Qed.

Lemma well_formed_react e s : well_formed s = true → well_formed (react e s) = true.
Proof.
  intros Hwf. destruct e as [m|]; cbn [react]; [|by apply well_formed_tick].
  destruct (mutate_cases m s) as [->|(d & ev & ->)]; [done|].
  by destruct (mutated_facts d ev s Hwf) as (? & _).
Qed.

(** In every state that a history reaches, at most one timer is armed, and
    at most one write is under way, which holds the lock. *)
Lemma well_formed_run l s : well_formed s = true → well_formed (run l s) = true.
Proof.
  revert s. induction l as [|e l IH]; intros s Hwf; [done|].
  cbn [run fold_left]. apply IH. by apply well_formed_react.
Qed.

(** The bucket that the constructor leaves in a world at rest. *)
Lemma well_formed_constructor bucketName w :
  timers w = [] → inflight w = [] →
  well_formed (constructor bucketName w).2 = true.
Proof.
  intros Ht Hi. destruct (constructor_eq bucketName w) as [ipc ->].
  unfold well_formed. cbn. by rewrite Ht, Hi.
Qed.

(** ** Events leave the data alone, mutations apart *)

Lemma preserves_bind {A B} P (m : M A) (f : A → M B) :
  preserves P m → (∀ a, preserves P (f a)) → preserves P (bind m f).
Proof.
  intros Hm Hf s Hs. unfold bind. specialize (Hm s Hs).
  destruct (m s) as [[a|e] s']; [by apply Hf|done].
Qed.

Lemma preserves_modify P (f : sys → sys) :
  (∀ s, P s → P (f s)) → preserves P (modify f).
Proof. intros Hf s Hs. by apply Hf. Qed.

Lemma preserves_for_each {A} P (f : A → M unit) l :
  (∀ a, preserves P (f a)) → preserves P (for_each f l).
Proof.
  intros Hf. induction l as [|a l IH]; [by intros s|].
  cbn [for_each]. by apply preserves_bind.
Qed.

Lemma turn_preserves_data d :
  preserves (λ s, __data__ (this s) = d) turn.
Proof.
  assert (Hwrite : preserves (λ s, __data__ (this s) = d) _writeToDisk).
  { intros s Hs. rewrite _writeToDisk_eq. by destruct s as [[] []]. }
  unfold turn, mbind, M_bind.
  apply preserves_bind; [apply preserves_modify; by intros [[] []]|]. intros _.
  apply preserves_bind; [by intros s|]. intros w.
  apply preserves_bind; [apply preserves_modify; by intros [[] []]|]. intros _.
  apply preserves_bind.
  { apply preserves_for_each. intros pw. unfold complete_write, on_written, mbind, M_bind.
    apply preserves_bind; [apply preserves_modify; by intros [[] []]|]. intros _.
    apply preserves_modify. by intros [[] []]. }
  intros _. apply preserves_bind; [by intros s|]. intros w'.
  apply preserves_for_each. intros t. unfold run_timer, on_timer, mbind, M_bind.
  apply preserves_bind; [by intros s|]. intros w''.
  destruct (_ && _); [|by intros s].
  apply preserves_bind; [apply preserves_modify; by intros [[] []]|]. intros _.
  apply preserves_bind; [by intros s|]. intros [|]; [done|].
  apply preserves_bind; [apply preserves_modify; by intros [[] []]|]. intros _.
  apply preserves_bind; [by intros s|]. intros b.
  unfold writeFileAtomic. apply preserves_modify. by intros [[] []].
Qed.

Lemma tick_data s : __data__ (this (tick s)) = __data__ (this s).
Proof. by apply (turn_preserves_data (__data__ (this s))). Qed.

Lemma all_strings_put (t : list (jsstring * jsval)) k v :
  all_strings t = true → is_string v = true → all_strings (tbl_put t k v) = true.
Proof.
  intros Ht Hv. induction t as [|[k' v'] t IH]; cbn [tbl_put all_strings forallb snd].
  { by rewrite Hv. }
  cbn [all_strings forallb snd] in Ht. apply andb_true_iff in Ht as [Hv' Ht].
  destruct (decide (k = k')); cbn [forallb snd].
  { by rewrite Hv, Ht. }
  destruct (key_before k k'); cbn [forallb snd].
  - by rewrite Hv, Hv', Ht.
  - rewrite Hv'. by apply IH.
Qed.

Lemma all_strings_assign (t : list (jsstring * jsval)) k v :
  all_strings t = true → is_string v = true → all_strings (tbl_assign t k v) = true.
Proof.
  intros Ht Hv. destruct (tbl_assign_cases t k v) as [[-> _]|[-> _]]; [|done].
  by apply all_strings_put.
Qed.

Lemma all_strings_delete (t : list (jsstring * jsval)) k :
  all_strings t = true → all_strings (tbl_delete t k) = true.
Proof.
  intros Ht. induction t as [|[k' v'] t IH]; [done|]. cbn [tbl_delete].
  cbn [all_strings forallb snd] in Ht. apply andb_true_iff in Ht as [Hv' Ht].
  destruct (decide (k = k')); [done|]. cbn [all_strings forallb snd].
  rewrite Hv'. by apply IH.
Qed.

Lemma strings_only_react e s :
  strings_only (__data__ (this s)) = true →
  strings_only (__data__ (this (react e s))) = true.
Proof.
  intros Hs. destruct e as [m|]; cbn [react]; [|by rewrite tick_data].
  destruct (__data__ (this s)) as [| | | | |[] t] eqn:Hd; try done.
  assert (Hp : plain_data s = Some t) by (unfold plain_data; by rewrite Hd).
  destruct (mutate_plain m s t Hp) as (r & ev & ->). cbn [snd].
  rewrite mutated_data. cbn [strings_only] in *.
  destruct m as [k v|k]; cbn [mutated_table].
  - by apply all_strings_assign.
  - by apply all_strings_delete.
Qed.

(** C5, as amended.  Only strings: [_setItem], [_removeItem] and the turns of
    the event loop keep the values of the map strings, and the map is one of
    strings after a construction whose snapshot, as the load finds it, is
    absent, does not parse, or is an object whose values are all strings.
    The load itself checks nothing: it stores the value that the snapshot
    denotes. *)
Theorem strings_only_invariant bucketName w l :
  match file_text (fs (host (constructor bucketName w).2))
                  (__path__ (this (constructor bucketName w).2)) with
  | Some text => match JSON_parse text with
                 | Some v => strings_only v = true
                 | None => True
                 end
  | None => True
  end →
  strings_only (__data__ (this (run l (constructor bucketName w).2))) = true.
Proof.
  destruct (constructor_eq bucketName w) as [ipc ->].
  cbn [snd this host fs __path__]. intros Hfile.
  match goal with |- context [run l ?s0] => set (s := s0) end.
  assert (Hstr : strings_only (__data__ (this s)) = true).
  { subst s. cbn [this __data__]. unfold loaded.
    destruct (file_text _ _) as [text|]; [|done].
    by destruct (JSON_parse text). }
  clearbody s. clear Hfile. revert s Hstr.
  induction l as [|e l IH]; intros s Hstr; [done|].
  cbn [run fold_left]. apply IH. by apply strings_only_react.
Qed.


(** C2.  No concurrent flush: when the timer fires while a write is under
    way, no write is started and the timer is armed again for the delay; and
    the flush that was put off takes place in the end, [T] ticks later, when
    the write under way has ended. *)
Theorem no_concurrent_flush s id due pw :
  well_formed s = true →
  timers (host s) = [(id, due)] →
  (due ≤ S (clock (host s))) →
  inflight (host s) = [pw] →
  (S (clock (host s)) < w_due pw) →
  write_log (host (tick s)) = write_log (host s)
  ∧ inflight (host (tick s)) = [pw]
  ∧ timers (host (tick s))
    = [(next_timer (host s),
        S (clock (host s)) + DB_WRITE_DELAY_MS + timer_lateness (next_timer (host s)))]
  ∧ __writeHold__ (this (tick s)) = Some (next_timer (host s))
  ∧ ∃ T, w_due pw ≤ clock (host (tick s)) + T
         ∧ clock (host (tick s)) + DB_WRITE_DELAY_MS ≤ clock (host (tick s)) + T
         ∧ one_write_after (tick s) T.
Proof.
  intros Hwf Ht Hdue Hinf Hpw.
  destruct (tick_requeue s id due pw Hwf Ht Hdue Hinf Hpw)
    as (Hwf' & Ht' & Hh' & Hi' & _ & Hl' & Hc' & _).
  do 4 (split; [done|]).
  destruct (inflight_bound (tick s)) as [e He].
  destruct (flush_eventually e (tick s) _ _ Hwf' Ht' He) as (T & _ & HT & Hend & Hflush).
  exists T. rewrite Hi', Forall_singleton in Hend.
  split; [done|]. split; [lia|]. by apply flush_at_after.
Qed.

(** ** The write lands *)

Lemma written_denied pw f : denied (written pw f) = denied f.
Proof. unfold written. destruct (w_text pw); [|done]. by case_bool_decide. Qed.

(** A turn of the loop moves no bucket and changes no permission. *)
Lemma turn_preserves_place p D :
  preserves (λ s, __path__ (this s) = p ∧ denied (fs (host s)) = D) turn.
Proof.
  set (P := λ s : sys, __path__ (this s) = p ∧ denied (fs (host s)) = D).
  assert (Hwrite : preserves P _writeToDisk).
  { intros s Hs. rewrite _writeToDisk_eq. by destruct s as [[] []]. }
  unfold turn, mbind, M_bind.
  apply preserves_bind; [apply preserves_modify; by intros [[] []]|]. intros _.
  apply preserves_bind; [by intros s|]. intros w.
  apply preserves_bind; [apply preserves_modify; by intros [[] []]|]. intros _.
  apply preserves_bind.
  { apply preserves_for_each. intros pw. unfold complete_write, on_written, mbind, M_bind.
    apply preserves_bind.
    - apply preserves_modify. intros [[] []] [? ?]. split; [done|].
      cbn. by rewrite written_denied.
    - intros _. apply preserves_modify. by intros [[] []]. }
  intros _. apply preserves_bind; [by intros s|]. intros w'.
  apply preserves_for_each. intros t. unfold run_timer, on_timer, mbind, M_bind.
  apply preserves_bind; [by intros s|]. intros w''.
  destruct (_ && _); [|by intros s].
  apply preserves_bind; [apply preserves_modify; by intros [[] []]|]. intros _.
  apply preserves_bind; [by intros s|]. intros [|]; [done|].
  apply preserves_bind; [apply preserves_modify; by intros [[] []]|]. intros _.
  apply preserves_bind; [by intros s|]. intros b.
  unfold writeFileAtomic. apply preserves_modify. by intros [[] []].
Qed.

Lemma ticks_frame n s :
  well_formed s = true →
  well_formed (ticks n s) = true
  ∧ __data__ (this (ticks n s)) = __data__ (this s)
  ∧ __path__ (this (ticks n s)) = __path__ (this s)
  ∧ denied (fs (host (ticks n s))) = denied (fs (host s)).
Proof.
  revert s. induction n as [|n IH]; intros s Hwf; [done|]. cbn [ticks].
  destruct (IH (tick s) (well_formed_tick s Hwf)) as (? & Hd & Hp & Hden).
  destruct (turn_preserves_place (__path__ (this s)) (denied (fs (host s))) s) as [Hp' Hden'];
    [done|].
  fold (tick s) in Hp', Hden'.
  split; [done|]. rewrite Hd, Hp, Hden, tick_data. done.
Qed.

(** The turn at which the log of the writes grows is the one that starts the
    write of the data. *)
Lemma tick_started s :
  well_formed s = true →
  write_log (host (tick s)) ≠ write_log (host s) →
  timers (host (tick s)) = []
  ∧ ∃ due, inflight (host (tick s))
           = [{| w_due := due; w_path := __path__ (this s);
                 w_text := JSON_stringify (__data__ (this s)) |}].
Proof.
  intros Hwf Hlog.
  destruct (timers (host s)) as [|[id due] [|t' tm]] eqn:Ht.
  - by destruct (tick_idle s Hwf Ht) as (_ & _ & ?).
  - destruct (decide (due ≤ S (clock (host s)))) as [Hnow|Hlater].
    + assert (Hflush : Forall (λ pw, w_due pw ≤ S (clock (host s))) (inflight (host s)) →
                       timers (host (tick s)) = []
                       ∧ ∃ due, inflight (host (tick s))
                                = [{| w_due := due; w_path := __path__ (this s);
                                      w_text := JSON_stringify (__data__ (this s)) |}]).
      { intros Hall.
        destruct (tick_flush s id due Hwf Ht Hnow Hall) as (_ & ? & _ & Hi & _).
        split; [done|]. by eexists. }
      destruct (wf_inflight s Hwf) as [Hinf|[pw Hinf]].
      * apply Hflush. rewrite Hinf. constructor.
      * destruct (decide (w_due pw ≤ S (clock (host s)))) as [Hend|Hnot].
        -- apply Hflush. rewrite Hinf. by rewrite Forall_singleton.
        -- destruct (tick_requeue s id due pw Hwf Ht Hnow Hinf)
             as (_ & _ & _ & _ & _ & ? & _); [lia|done].
    + destruct (tick_quiet s id due Hwf Ht) as (_ & _ & ? & _); [lia|done].
  - unfold well_formed in Hwf. by rewrite Ht in Hwf.
Qed.

(** With no timer armed, a turn lets the write under way end, or waits. *)
Lemma tick_landing s pw :
  well_formed s = true →
  timers (host s) = [] →
  inflight (host s) = [pw] →
  well_formed (tick s) = true
  ∧ timers (host (tick s)) = []
  ∧ clock (host (tick s)) = S (clock (host s))
  ∧ (if w_due pw <=? S (clock (host s))
     then inflight (host (tick s)) = [] ∧ fs (host (tick s)) = written pw (fs (host s))
     else inflight (host (tick s)) = [pw] ∧ fs (host (tick s)) = fs (host s)).
Proof.
  open_state s. cbn [fs]. intros Hwf -> ->. cbn [andb] in Hwf. subst l.
  destruct (w_due pw <=? S ck) eqn:Hpw; tick_with ltac:(rewrite ?Hpw); done.
Qed.

(** With no timer armed and no write under way, nothing happens. *)
Lemma tick_rest s :
  well_formed s = true →
  timers (host s) = [] →
  inflight (host s) = [] →
  well_formed (tick s) = true
  ∧ timers (host (tick s)) = []
  ∧ inflight (host (tick s)) = []
  ∧ fs (host (tick s)) = fs (host s).
Proof.
  open_state s. cbn [fs]. intros Hwf -> ->. cbn [andb] in Hwf.
  destruct l; [done|]. tick_with idtac. done.
Qed.

Lemma ticks_rest n s :
  well_formed s = true →
  timers (host s) = [] →
  inflight (host s) = [] →
  timers (host (ticks n s)) = []
  ∧ inflight (host (ticks n s)) = []
  ∧ fs (host (ticks n s)) = fs (host s).
Proof.
  revert s. induction n as [|n IH]; intros s Hwf Ht Hi; [done|]. cbn [ticks].
  destruct (tick_rest s Hwf Ht Hi) as (Hwf' & Ht' & Hi' & Hf').
  destruct (IH _ Hwf' Ht' Hi') as (? & ? & ?). repeat split; congruence.
Qed.

(** The write under way ends, and from then on the file is as it left it. *)
Lemma ticks_landing n s pw :
  well_formed s = true →
  timers (host s) = [] →
  inflight (host s) = [pw] →
  0 < n →
  w_due pw ≤ clock (host s) + n →
  timers (host (ticks n s)) = []
  ∧ inflight (host (ticks n s)) = []
  ∧ fs (host (ticks n s)) = written pw (fs (host s)).
Proof.
  revert s. induction n as [|n IH]; intros s Hwf Ht Hi Hn Hdue; [lia|]. cbn [ticks].
  destruct (tick_landing s pw Hwf Ht Hi) as (Hwf' & Ht' & Hc' & Hcase).
  destruct (w_due pw <=? S (clock (host s))) eqn:Hpw.
  - destruct Hcase as [Hi' Hf'].
    destruct (ticks_rest n _ Hwf' Ht' Hi') as (? & ? & ?). repeat split; congruence.
  - destruct Hcase as [Hi' Hf']. apply Nat.leb_gt in Hpw.
    destruct (IH _ Hwf' Ht' Hi') as (? & ? & ?); [lia|lia|]. repeat split; congruence.
Qed.

Lemma written_present f p due text :
  p ∉ denied f →
  files (written {| w_due := due; w_path := p; w_text := Some text |} f) !! p = Some text.
Proof.
  intros Hp. unfold written. cbn [w_text w_path].
  rewrite (bool_decide_eq_false_2 (p ∈ denied f)) by done. cbn [files].
  by rewrite lookup_insert_eq.
Qed.

(** The write of the data ends: from some turn on the bucket is at rest and
    the backing file has the text of the data. *)
Lemma flush_lands s id due text :
  well_formed s = true →
  timers (host s) = [(id, due)] →
  JSON_stringify (__data__ (this s)) = Some text →
  __path__ (this s) ∉ denied (fs (host s)) →
  ∃ N, ∀ n, N ≤ n →
    timers (host (ticks n s)) = []
    ∧ inflight (host (ticks n s)) = []
    ∧ files (fs (host (ticks n s))) !! __path__ (this s) = Some text
    ∧ denied (fs (host (ticks n s))) = denied (fs (host s))
    ∧ __data__ (this (ticks n s)) = __data__ (this s)
    ∧ __path__ (this (ticks n s)) = __path__ (this s).
Proof.
  intros Hwf Ht Htext Hp.
  destruct (inflight_bound s) as [e He].
  destruct (flush_eventually e s id due Hwf Ht He) as (T & HT & _ & _ & Hflush).
  destruct Hflush as (Hbefore & Hat & Htimers & HwfT).
  destruct T as [|T]; [lia|].
  destruct (ticks_frame T s Hwf) as (Hwf' & Hd' & Hp' & Hden').
  assert (Hstep : ticks (S T) s = tick (ticks T s)).
  { replace (S T) with (T + 1) by lia. by rewrite ticks_add. }
  destruct (tick_started (ticks T s) Hwf') as (_ & wdue & Hi).
  { rewrite <- Hstep, Hat, (Hbefore T) by lia.
    intros Heq. apply (f_equal length) in Heq. cbn [length] in Heq. lia. }
  rewrite <- Hstep, Hd', Hp', Htext in Hi.
  destruct (ticks_frame (S T) s Hwf) as (_ & _ & _ & HdenT).
  exists (S T + S (wdue - clock (host (ticks (S T) s)))). intros n Hn.
  destruct (ticks_frame n s Hwf) as (_ & Hdn & Hpn & Hdenn).
  replace n with (S T + (n - S T)) by lia. rewrite ticks_add.
  destruct (ticks_landing (n - S T) (ticks (S T) s) _ HwfT Htimers Hi) as (? & ? & Hfs);
    [lia|cbn [w_due]; lia|].
  split; [done|]. split; [done|]. split.
  { rewrite Hfs. apply written_present. by rewrite HdenT. }
  rewrite <- ticks_add. replace (S T + (n - S T)) with n by lia. done.
Qed.

(** X1.  The data reach the disk: when the timer is armed on a map of
    strings, none of which has a surrogate that stands alone, and no other
    mutation comes, then from some turn on the timer is idle, no write is
    under way, and the backing file, if it can be written, holds a snapshot
    that a load gives back as the same map; so that a bucket of the same
    name, constructed then, starts with this map. *)
Theorem flushed_data_loads_back s id due M :
  well_formed s = true →
  timers (host s) = [(id, due)] →
  __data__ (this s) = JObject Plain (string_table M) →
  canonical (map fst M) = true →
  forallb (λ p, well_formed_utf16 p.1 && well_formed_utf16 p.2) M = true →
  __path__ (this s) ∉ denied (fs (host s)) →
  ∃ N, ∀ n, N ≤ n →
    timers (host (ticks n s)) = []
    ∧ inflight (host (ticks n s)) = []
    ∧ loaded (fs (host (ticks n s))) (__path__ (this s)) = JObject Plain (string_table M)
    ∧ ∀ bucketName,
        __path__ (this s) = path_join dbPath (db_file bucketName) →
        __data__ (this (constructor bucketName (host (ticks n s))).2)
        = JObject Plain (string_table M).
Proof.
  intros Hwf Ht Hd Hc _ Hp.
  destruct (flush_lands s id due (123 :: join_with 44 (map member_text M) ++ [125])%N Hwf Ht)
    as [N HN]; [rewrite Hd; apply stringify_string_table|done|].
  exists N. intros n Hn. destruct (HN n Hn) as (Htm & Hinf & Hfile & Hden & _).
  split; [done|]. split; [done|].
  assert (Hload : loaded (fs (host (ticks n s))) (__path__ (this s))
                  = JObject Plain (string_table M)).
  { unfold loaded, file_text. rewrite Hden.
    rewrite (bool_decide_eq_false_2 _ Hp), Hfile.
    by rewrite (JSON_parse_snapshot_text M Hc). }
  split; [done|].
  intros bucketName Hname.
  destruct (constructor_eq bucketName (host (ticks n s))) as [ipc ->].
  cbn [snd this __data__]. rewrite <- Hname.
  erewrite migrated_present; [exact Hload|]. rewrite <- Hname. exact Hfile.
Qed.

(** ** The keys and the lock, over every history *)

Lemma loaded_canonical f p : keys_canonical (loaded f p) = true.
Proof.
  unfold loaded. destruct (file_text f p) as [text|]; [|done].
  unfold JSON_parse.
  destruct (parse_value _ _) as [[v r]|] eqn:Hp; [|done].
  destruct (skip_ws r); [|done]. by apply parse_value_canonical in Hp.
Qed.

(** The data after a mutation. *)
Lemma mutate_data m s :
  __data__ (this (mutate m s).2)
  = match match m with
          | SetItem k v => js_put_string (__data__ (this s)) k (ToString v)
          | RemoveItem k => js_delete (__data__ (this s)) k
          end with
    | Ok d => d
    | Throw _ => __data__ (this s)
    end.
Proof.
  destruct m as [k v|k]; cbn [mutate]; unfold _setItem, _removeItem, emit;
    cbv [bind ret gets modify lift mbind M_bind].
  - destruct (js_put_string _ _ _) as [d|e]; [|done].
    rewrite !_writeToDisk_eq. by destruct s as [[] []].
  - destruct (js_delete _ _) as [d|e]; [|done].
    rewrite !_writeToDisk_eq. by destruct s as [[] []].
Qed.

Lemma keys_canonical_react e s :
  keys_canonical (__data__ (this s)) = true →
  keys_canonical (__data__ (this (react e s))) = true.
Proof.
  intros Hs. destruct e as [m|]; cbn [react]; [|by rewrite tick_data].
  rewrite mutate_data.
  destruct (__data__ (this s)) as [| | | | |[|len] t] eqn:Hd, m as [k v|k];
    cbn [js_put_string js_delete]; try done;
    repeat match goal with
           | |- context [decide ?P] => destruct (decide P)
           | |- context [is_index ?k] => destruct (is_index k)
           | |- context [array_length_of_string ?x] => destruct (array_length_of_string x)
           | |- context [(?a <? ?b)%N] => destruct (a <? b)%N
           end; try done; cbn [keys_canonical] in *.
  - by apply tbl_assign_canonical.
  - by apply tbl_delete_canonical.
Qed.

Lemma keys_canonical_run l s :
  keys_canonical (__data__ (this s)) = true →
  keys_canonical (__data__ (this (run l s))) = true.
Proof.
  revert s. induction l as [|e l IH]; intros s Hs; [done|].
  cbn [run fold_left]. apply IH. by apply keys_canonical_react.
Qed.

(** The tables of the model are objects all along: whatever the disk holds
    and whatever mutations and turns follow the construction, the keys of a
    table are distinct and stand in the order of [Object.keys], as the
    theorems on a map assume. *)
Lemma keys_canonical_reachable bucketName w l :
  keys_canonical (__data__ (this (run l (constructor bucketName w).2))) = true
  ∧ ∀ t, plain_data (run l (constructor bucketName w).2) = Some t →
         allKeys (run l (constructor bucketName w).2)
         = (Ok (tbl_keys t), run l (constructor bucketName w).2)
         ∧ NoDup (tbl_keys t).
Proof.
  assert (Hc : keys_canonical (__data__ (this (run l (constructor bucketName w).2))) = true).
  { apply keys_canonical_run. destruct (constructor_eq bucketName w) as [ipc ->].
    cbn [snd this __data__]. apply loaded_canonical. }
  split; [done|]. intros t Hp%plain_data_eq. rewrite Hp in Hc. cbn [keys_canonical] in Hc.
  split; [|by apply canonical_NoDup].
  unfold allKeys. cbv [bind gets lift]. by rewrite Hp.
Qed.

(** X4.  One write at a time: after the construction in a world where no
    timer is armed and no write is under way, and whatever mutations and turns
    follow, at most one timer is armed, at most one write is under way, and
    the lock is held exactly when one is. *)
Theorem writes_never_overlap bucketName w l :
  timers w = [] →
  inflight w = [] →
  (length (timers (host (run l (constructor bucketName w).2))) ≤ 1)%nat
  ∧ (length (inflight (host (run l (constructor bucketName w).2))) ≤ 1)%nat
  ∧ (__writeLock__ (this (run l (constructor bucketName w).2)) = true
     ↔ length (inflight (host (run l (constructor bucketName w).2))) = 1%nat).
Proof.
  intros Ht Hi.
  pose proof (well_formed_run l _ (well_formed_constructor bucketName w Ht Hi)) as Hwf.
  set (s := run l (constructor bucketName w).2) in *. clearbody s.
  unfold well_formed in Hwf. apply andb_true_iff in Hwf as [Htm Hinf].
  split.
  { destruct (timers (host s)) as [|t0 [|t1 tm]]; [cbn [length]; lia..|done]. }
  destruct (inflight (host s)) as [|pw [|pw' inf]]; [| |done];
    destruct (__writeLock__ (this s)); try done; cbn [length]; (split; [lia|]); split; done.
Qed.

(** ** The disk *)

(** What a turn does to the disk: the write that ends is the only change;
    the console and the events are as they were, and a write that starts is
    a write of the backing file. *)
Lemma tick_disk s :
  well_formed s = true →
  fs (host (tick s))
  = match inflight (host s) with
    | [pw] => if w_due pw <=? S (clock (host s)) then written pw (fs (host s))
              else fs (host s)
    | _ => fs (host s)
    end
  ∧ console (host (tick s)) = console (host s)
  ∧ emitted (host (tick s)) = emitted (host s)
  ∧ Forall (λ pw, pw ∈ inflight (host s) ∨ w_path pw = __path__ (this s))
           (inflight (host (tick s))).
Proof.
  open_state s. cbn [fs console emitted]. intros Hwf.
  apply andb_true_iff in Hwf as [Hh Hl].
  assert (Hfin : ∀ (pw : pending_write) P, P pw → Forall P [pw]).
  { intros pw P HP. by apply Forall_singleton. }
  destruct tm as [|[id due] [|t' tm]]; [| |done].
  - destruct inf as [|pw [|pw' inf]], l; try done.
    destruct (w_due pw <=? S ck) eqn:Hpw; tick_with ltac:(rewrite ?Hpw);
      repeat split; try done;
      first [by constructor | apply Hfin; left; apply elem_of_cons; by left].
  - apply bool_decide_eq_true in Hh. cbn [fst] in Hh. subst h.
    destruct inf as [|pw [|pw' inf]], l; try done.
    + destruct (due <=? S ck) eqn:Hdue; tick_with ltac:(rewrite ?Hdue);
        repeat split; try done; first [by constructor | apply Hfin; by right].
    + destruct (w_due pw <=? S ck) eqn:Hpw, (due <=? S ck) eqn:Hdue;
        tick_with ltac:(rewrite ?Hpw, ?Hdue); repeat split; try done;
        first [by constructor | apply Hfin; by right
              | apply Hfin; left; apply elem_of_cons; by left].
Qed.


Lemma mutated_frame d ev s :
  fs (host (mutated d ev s)) = fs (host s)
  ∧ console (host (mutated d ev s)) = console (host s)
  ∧ emitted (host (mutated d ev s)) = emitted (host s) ++ ev.
Proof. unfold mutated. rewrite _writeToDisk_eq. by destruct s as [[] []]. Qed.

(** A mutation of a map adds its two events, and no other. *)
Lemma mutate_events m s t :
  plain_data s = Some t →
  (mutate m s).2 = mutated (JObject Plain (mutated_table m t)) (changed_events m) s.
Proof.
  intros Hp. destruct m as [k v|k]; cbn [mutate mutated_table changed_events].
  - by rewrite (_setItem_eq _ _ _ _ Hp).
  - by rewrite (_removeItem_eq _ _ _ Hp).
Qed.




Lemma written_unwritable pw f : w_path pw ∈ denied f → written pw f = f.
Proof.
  intros Hd. unfold written. destruct (w_text pw); [|done].
  by rewrite bool_decide_eq_true_2.
Qed.

(** What holds all along of a bucket whose path cannot be written. *)
Lemma unwritable_react e s f con :
  well_formed s = true
  ∧ fs (host s) = f ∧ console (host s) = con
  ∧ __path__ (this s) ∈ denied f
  ∧ Forall (λ pw, w_path pw = __path__ (this s)) (inflight (host s)) →
  well_formed (react e s) = true
  ∧ fs (host (react e s)) = f ∧ console (host (react e s)) = con
  ∧ __path__ (this (react e s)) ∈ denied f
  ∧ Forall (λ pw, w_path pw = __path__ (this (react e s))) (inflight (host (react e s))).
Proof.
  intros (Hwf & Hf & Hcon & Hp & Hi).
  split; [by apply well_formed_react|].
  destruct e as [m|]; cbn [react].
  - destruct (mutate_cases m s) as [->|(d & ev & ->)]; [done|].
    destruct (mutated_frame d ev s) as (H1 & H2 & _).
    destruct (mutated_facts d ev s Hwf) as (_ & _ & _ & _ & _ & _ & H3 & H4).
    by rewrite H1, H2, H3, H4.
  - destruct (tick_disk s Hwf) as (Hfs & Hc' & _ & Hnew). rewrite Hc'.
    destruct (turn_preserves_place (__path__ (this s)) (denied (fs (host s))) s)
      as [Hpath _]; [done|]. fold (tick s) in Hpath. rewrite Hpath.
    assert (Hsame : fs (host (tick s)) = f).
    { rewrite Hfs. destruct (inflight (host s)) as [|pw [|pw' inf]]; try done.
      destruct (_ <=? _); [|done]. rewrite Hf. apply written_unwritable.
      rewrite Forall_singleton in Hi. by rewrite Hi. }
    split; [done|]. split; [done|]. split; [done|].
    eapply Forall_impl; [exact Hnew|]. intros pw [Hin|Hpw]; [|done].
    by apply (proj1 (Forall_forall _ _) Hi).
Qed.

(** X15.  A write that fails is silent: while the path of the bucket cannot
    be written, whatever mutations and turns come, the disk is as it was and
    nothing is written to the console: the data stay in memory alone. *)
Theorem failed_writes_are_silent l s :
  well_formed s = true →
  __path__ (this s) ∈ denied (fs (host s)) →
  Forall (λ pw, w_path pw = __path__ (this s)) (inflight (host s)) →
  fs (host (run l s)) = fs (host s)
  ∧ console (host (run l s)) = console (host s)
  ∧ well_formed (run l s) = true.
Proof.
  intros Hwf Hp Hi.
  assert (H : well_formed (run l s) = true
              ∧ fs (host (run l s)) = fs (host s) ∧ console (host (run l s)) = console (host s)
              ∧ __path__ (this (run l s)) ∈ denied (fs (host s))
              ∧ Forall (λ pw, w_path pw = __path__ (this (run l s)))
                       (inflight (host (run l s)))).
  { generalize (eq_refl (fs (host s))) (eq_refl (console (host s))).
    generalize (fs (host s)) at 2 3 4 as f. generalize (console (host s)) at 2 3 as con.
    intros con f Hf Hcon. rewrite Hf in Hp. clear -Hwf Hf Hcon Hp Hi.
    revert s Hwf Hf Hcon Hp Hi. induction l as [|e l IH]; intros s Hwf Hf Hcon Hp Hi; [done|].
    cbn [run fold_left].
    destruct (unwritable_react e s f con) as (? & ? & ? & ? & ?); [done|].
    by apply IH. }
  destruct H as (? & ? & ? & _). done.
Qed.

(** X16.  The two sizes of the statistics: when the timer is armed on a
    map whose JSON text has no surrogate that stands alone, and no other
    mutation comes, then from some turn on [getStats ()] returns, [dataSize]
    is the number of code units of the JSON text of the data and [filesize]
    the number of bytes of the same text in the file, so that [dataSize] is
    at most [filesize], and equal to it when the text is ASCII. *)
Theorem sizes_after_the_flush s id due t text :
  well_formed s = true →
  timers (host s) = [(id, due)] →
  plain_data s = Some t →
  (__path__ (this s) ∉ denied (fs (host s))) →
  JSON_stringify (JObject Plain t) = Some text →
  well_formed_utf16 text = true →
  (N.of_nat (length text) ≤ utf8_length text)%N
  ∧ (Forall (λ c, (c < 128)%N) text → utf8_length text = N.of_nat (length text))
  ∧ ∃ N, ∀ n, N ≤ n →
      ∃ keyLengths,
        getStats (ticks n s)
        = (Ok (JObject Plain
                 [(js "filesize", JNumber (num_of_N (utf8_length text)));
                  (js "keyLengths", keyLengths);
                  (js "dataSize", JNumber (num_of_N (N.of_nat (length text))))]),
           ticks n s).
Proof.
  intros Hwf Ht Hp Hden Htext _.
  pose proof (plain_data_eq _ _ Hp) as Hd.
  destruct (flush_lands s id due text Hwf Ht) as [N HN]; [by rewrite Hd|done|].
  split; [apply utf8_length_ge|].
  split; [apply utf8_length_ascii|]. exists N. intros n Hn.
  destruct (HN n Hn) as (_ & _ & Hfile & _ & Hdn & Hpn).
  destruct (getStats_present (ticks n s) t text) as (kl & dt & Hdt & Hstats).
  { by rewrite Hpn. }
  { unfold plain_data. by rewrite Hdn, Hd. }
  rewrite Htext in Hdt. injection Hdt as <-. by exists kl.
Qed.

(** ** The data over a history *)

Lemma plain_data_react e s t :
  plain_data s = Some t →
  plain_data (react e s) = Some (replay [e] t).
Proof.
  intros Hp. destruct e as [m|]; cbn [react replay fold_left].
  - destruct (mutate_plain m s t Hp) as (r & ev & ->). cbn [snd].
    unfold plain_data. by rewrite mutated_data.
  - unfold plain_data. rewrite tick_data. exact Hp.
Qed.

Lemma plain_data_run l s t :
  plain_data s = Some t → plain_data (run l s) = Some (replay l t).
Proof.
  revert s t. induction l as [|e l IH]; intros s t Hp; [done|].
  change (run (e :: l) s) with (run l (react e s)).
  change (replay (e :: l) t) with (replay l (replay [e] t)).
  apply IH. by apply plain_data_react.
Qed.

Lemma replay_canonical l (t : table) :
  canonical (tbl_keys t) = true → canonical (tbl_keys (replay l t)) = true.
Proof.
  revert t. induction l as [|e l IH]; intros t Hc; [done|].
  cbn [replay fold_left]. apply IH. destruct e as [[k v|k]|]; cbn [mutated_table].
  - by apply tbl_assign_canonical.
  - by apply tbl_delete_canonical.
  - done.
Qed.

Lemma emitted_run l s t :
  well_formed s = true →
  plain_data s = Some t →
  emitted (host (run l s))
  = emitted (host s)
    ++ flat_map (λ e, match e with
                      | Mutate m => changed_events m
                      | Turn => []
                      end) l.
Proof.
  revert s t. induction l as [|e l IH]; intros s t Hwf Hp.
  { by rewrite app_nil_r. }
  change (run (e :: l) s) with (run l (react e s)).
  rewrite (IH (react e s) (replay [e] t));
    [|by apply well_formed_react|by apply plain_data_react].
  cbn [flat_map]. rewrite app_assoc. f_equal.
  destruct e as [m|]; cbn [react].
  - rewrite (mutate_events m s t Hp).
    by destruct (mutated_frame (JObject Plain (mutated_table m t)) (changed_events m) s)
      as (_ & _ & ->).
  - destruct (tick_disk s Hwf) as (_ & _ & -> & _). by rewrite app_nil_r.
Qed.

(** X19.  The data and the events follow the mutations: on a map, after
    any history of turns of the loop and of mutations whose values have a
    string form, the data are the table that the mutations make, in their
    order, whatever the timers and the writes have done in between, and the
    events emitted are the two events of each mutation, in their order: a
    turn of the loop, and so a write, emits none.  So the last mutation of a
    key decides what is read: after a history that ends in [_setItem (k, v)],
    for a key other than [__proto__], [getItem (k, d)] is the string form of
    [v], or [d] when that is empty; after one that ends in [_removeItem (k)],
    for a key that is none of the names that every object inherits, it is
    [d]. *)
Theorem data_follow_the_mutations l s t :
  well_formed s = true →
  plain_data s = Some t →
  canonical (tbl_keys t) = true →
  forallb stringable_event l = true →
  plain_data (run l s) = Some (replay l t)
  ∧ emitted (host (run l s))
    = emitted (host s)
      ++ flat_map (λ e, match e with
                        | Mutate m => changed_events m
                        | Turn => []
                        end) l
  ∧ (∀ k v d, stringable v = true → k ≠ js "__proto__" →
              (getItem k d (run (l ++ [Mutate (SetItem k v)]) s)).1
              = Ok (js_or (JString (ToString v)) d))
  ∧ (∀ k d, inherited k = false →
            (getItem k d (run (l ++ [Mutate (RemoveItem k)]) s)).1 = Ok d).
Proof.
  intros Hwf Hp Hc _. split; [by apply plain_data_run|].
  split; [by apply (emitted_run l s t)|].
  assert (Hlast : ∀ m, plain_data (run (l ++ [Mutate m]) s)
                       = Some (mutated_table m (replay l t))).
  { intros m. rewrite (plain_data_run _ _ _ Hp). unfold replay.
    by rewrite fold_left_app. }
  split.
  - intros k v d _ Hk. rewrite (getItem_plain _ _ _ _ (Hlast _)). cbn [fst mutated_table].
    rewrite tbl_get_assign_eq; [done|by left].
  - intros k d _. rewrite (getItem_plain _ _ _ _ (Hlast _)). cbn [fst mutated_table].
    rewrite tbl_get_delete_eq; [done|].
    apply canonical_NoDup. by apply replay_canonical.
Qed.

(** ** A snapshot that is not an object *)

(** What holds all along of a bucket whose snapshot is [null]. *)
Lemma null_react e s :
  well_formed s = true ∧ __data__ (this s) = JNull
  ∧ timers (host s) = [] ∧ inflight (host s) = [] →
  (well_formed (react e s) = true ∧ __data__ (this (react e s)) = JNull
   ∧ timers (host (react e s)) = [] ∧ inflight (host (react e s)) = [])
  ∧ fs (host (react e s)) = fs (host s)
  ∧ write_log (host (react e s)) = write_log (host s).
Proof.
  intros (Hwf & Hd & Ht & Hi). destruct e as [m|]; cbn [react].
  - assert (Hm : (mutate m s).2 = s).
    { destruct m as [k v|k]; cbn [mutate]; unfold _setItem, _removeItem;
        cbv [bind gets lift]; by rewrite Hd. }
    by rewrite Hm.
  - destruct (tick_rest s Hwf Ht Hi) as (? & ? & ? & ?).
    destruct (tick_idle s Hwf Ht) as (_ & _ & ?).
    by rewrite tick_data.
Qed.

(** X20.  A snapshot that is [null] is never repaired: [null] is JSON, so
    the load stores it as the data; from then on, whatever mutations and
    turns come, the reads and the mutations throw a TypeError, no timer is
    armed and no write is started, so that the file keeps its text. *)
Theorem null_snapshot_is_never_repaired bucketName w text l :
  timers w = [] →
  inflight w = [] →
  file_text (fs w) (path_join dbPath (db_file bucketName)) = Some text →
  JSON_parse text = Some JNull →
  __data__ (this (run l (constructor bucketName w).2)) = JNull
  ∧ fs (host (run l (constructor bucketName w).2)) = fs w
  ∧ write_log (host (run l (constructor bucketName w).2)) = write_log w
  ∧ timers (host (run l (constructor bucketName w).2)) = []
  ∧ (∀ k d, getItem k d (run l (constructor bucketName w).2)
            = (Throw TypeError, run l (constructor bucketName w).2))
  ∧ (∀ k d, getJSONItem k d (run l (constructor bucketName w).2)
            = (Throw TypeError, run l (constructor bucketName w).2))
  ∧ allKeys (run l (constructor bucketName w).2)
    = (Throw TypeError, run l (constructor bucketName w).2)
  ∧ (∀ m, mutate m (run l (constructor bucketName w).2)
          = (Throw TypeError, run l (constructor bucketName w).2)).
Proof.
  intros Ht Hi Hfile Hparse.
  pose proof (well_formed_constructor bucketName w Ht Hi) as Hwf.
  assert (Hpresent : files (fs w) !! path_join dbPath (db_file bucketName) = Some text).
  { unfold file_text in Hfile. by destruct (bool_decide _). }
  destruct (constructor_eq bucketName w) as [ipc Hc]. rewrite Hc in *. cbn [snd] in *.
  rewrite (migrated_present _ _ _ Hpresent) in *.
  match goal with |- context [run l ?s0] => set (s := s0) in * end.
  assert (H0 : (well_formed s = true ∧ __data__ (this s) = JNull
                ∧ timers (host s) = [] ∧ inflight (host s) = [])
               ∧ fs (host s) = fs w ∧ write_log (host s) = write_log w).
  { subst s. cbn [this host __data__ timers inflight fs write_log].
    unfold loaded. rewrite Hfile, Hparse. done. }
  clearbody s. clear Hwf Hc.
  assert (H : (well_formed (run l s) = true ∧ __data__ (this (run l s)) = JNull
               ∧ timers (host (run l s)) = [] ∧ inflight (host (run l s)) = [])
              ∧ fs (host (run l s)) = fs w ∧ write_log (host (run l s)) = write_log w).
  { revert s H0. induction l as [|e l IH]; intros s (Hinv & Hfs & Hlog); [done|].
    change (run (e :: l) s) with (run l (react e s)). apply IH.
    destruct (null_react e s Hinv) as (? & ? & ?). split; [done|]. split; congruence. }
  destruct H as ((_ & Hd & Htm & _) & Hfs & Hlog).
  split; [done|]. split; [done|]. split; [done|]. split; [done|].
  split; [|split; [|split]].
  - intros k d. unfold getItem. cbv [bind gets lift]. by rewrite Hd.
  - intros k d. unfold getJSONItem, getItem. cbv [bind gets lift]. by rewrite Hd.
  - unfold allKeys. cbv [bind gets lift]. by rewrite Hd.
  - intros [k v|k]; cbn [mutate]; unfold _setItem, _removeItem; cbv [bind gets lift];
      by rewrite Hd.
Qed.

End Timer_facts.


(** * Facts about the measures *)

Section Measure_facts.
Import JS StorageBucket.
Context {NUM : JSNumber} {HOST : Host} {WATCH : Stopwatch}.

Abbreviation table := (list (jsstring * jsval)).

Ltac step_m :=
  cbv [bind ret gets modify lift throw try_catch mbind M_bind mret M_ret
       with_host with_this set_fs set_console set_clock set_timers set_inflight
       set_emitted set_ipc_channels set_write_log set_writeHold set_writeLock set_data
       this host fs console clock timers next_timer inflight emitted ipc_channels
       write_log __path__ __writeHold__ __writeLock__ __data__ __ipcReplyChannel__
       negb fst snd].

(** ** The measures *)

Lemma same_but_clock_and_files_refl s : same_but_clock_and_files s s.
Proof. by repeat split. Qed.

Lemma same_but_clock_and_files_trans s1 s2 s3 :
  same_but_clock_and_files s1 s2 → same_but_clock_and_files s2 s3 →
  same_but_clock_and_files s1 s3.
Proof.
  unfold same_but_clock_and_files.
  intros (?&?&?&?&?&?&?&?&?) (?&?&?&?&?&?&?&?&?). repeat split; congruence.
Qed.

(** A loop whose body keeps [I] and returns runs to its end. *)
Lemma collect_returns (I J : sys → Prop) body n s1 :
  I s1 →
  (∀ s, I s → ∃ v s', body s = (Ok v, s') ∧ J s') →
  (∀ s, J s → I s) →
  ∃ vs s2, collect n body s1 = (Ok vs, s2) ∧ length vs = n
           ∧ match n with O => s2 = s1 | S _ => J s2 end.
Proof.
  intros HI Hbody HJI. revert s1 HI. induction n as [|n IH]; intros s1 HI.
  { by exists [], s1. }
  destruct (Hbody s1 HI) as (v & s' & Hv & HJ).
  destruct (IH s' (HJI _ HJ)) as (vs & s2 & Hvs & Hlen & Hend).
  exists (v :: vs), s2. cbn [collect]. unfold bind at 1. rewrite Hv.
  unfold bind at 1. rewrite Hvs. split; [done|]. split; [cbn [length]; by rewrite Hlen|].
  destruct n; [by subst s2|done].
Qed.

Lemma measure_serialize_returns s :
  ∃ v s', measure_serialize s = (Ok v, s')
          ∧ same_but_clock_and_files s s' ∧ files (fs (host s')) = files (fs (host s)).
Proof.
  destruct s as [[pa h l d c] [ck tm nt inf f con em ipc wl]].
  unfold measure_serialize, timed_stringify, Date_getTime, elapse. step_m.
  eexists _, _. split; [reflexivity|]. by repeat split.
Qed.

Lemma measure_flush_returns s t text :
  plain_data s = Some t →
  JSON_stringify (JObject Plain t) = Some text →
  __path__ (this s) ++ js ".measure" ∉ denied (fs (host s)) →
  ∃ v s', measure_flush s = (Ok v, s')
          ∧ same_but_clock_and_files s s'
          ∧ files (fs (host s'))
            = <[__path__ (this s) ++ js ".measure" := QuoteJSONString text]>
                (files (fs (host s))).
Proof.
  intros Hp%plain_data_eq Htext Hden.
  destruct s as [[pa h l d c] [ck tm nt inf f con em ipc wl]].
  cbn [this host __data__ __path__ fs] in *. subst d.
  unfold measure_flush, timed_stringify, writeFileAtomic_sync, Date_getTime, elapse. step_m.
  rewrite Htext. cbn [text_value JSON_stringify].
  rewrite (bool_decide_eq_false_2 _ Hden).
  eexists _, _. split; [reflexivity|]. by repeat split.
Qed.

Lemma measure_both_returns s t text :
  plain_data s = Some t →
  JSON_stringify (JObject Plain t) = Some text →
  __path__ (this s) ++ js ".measure" ∉ denied (fs (host s)) →
  ∃ v s', measure_both s = (Ok v, s')
          ∧ same_but_clock_and_files s s'
          ∧ files (fs (host s'))
            = <[__path__ (this s) ++ js ".measure" := text]> (files (fs (host s))).
Proof.
  intros Hp%plain_data_eq Htext Hden.
  destruct s as [[pa h l d c] [ck tm nt inf f con em ipc wl]].
  cbn [this host __data__ __path__ fs] in *. subst d.
  unfold measure_both, timed_stringify, writeFileAtomic_sync, Date_getTime, elapse. step_m.
  rewrite Htext. rewrite (bool_decide_eq_false_2 _ Hden).
  eexists _, _. split; [reflexivity|]. by repeat split.
Qed.

Lemma measure_flush_throws s t :
  plain_data s = Some t →
  __path__ (this s) ++ js ".measure" ∈ denied (fs (host s)) →
  ∃ s', measure_flush s = (Throw EACCES, s')
        ∧ same_but_clock_and_files s s' ∧ files (fs (host s')) = files (fs (host s)).
Proof.
  intros Hp%plain_data_eq Hden.
  destruct s as [[pa h l d c] [ck tm nt inf f con em ipc wl]].
  cbn [this host __data__ __path__ fs] in *. subst d.
  unfold measure_flush, timed_stringify, writeFileAtomic_sync, Date_getTime, elapse. step_m.
  cbn [text_value JSON_stringify].
  rewrite (bool_decide_eq_true_2 _ Hden).
  eexists. split; [reflexivity|]. by repeat split.
Qed.

(** The file of the measures is not the backing file. *)
Lemma measure_path_ne (p : jsstring) : p ++ js ".measure" ≠ p.
Proof.
  intros H. apply (f_equal length) in H. rewrite length_app in H. cbn in H. lia.
Qed.


(** The loops of [measurePerformance] on a map, when the file of the
    measures can be written. *)
Lemma measure_loops s t n (body : M jsval) (x : jsstring) s1 :
  plain_data s = Some t →
  __path__ (this s) ++ js ".measure" ∉ denied (fs (host s)) →
  (∀ s0, plain_data s0 = Some t →
         __path__ (this s0) ++ js ".measure" ∉ denied (fs (host s0)) →
         ∃ v s', body s0 = (Ok v, s')
                 ∧ same_but_clock_and_files s0 s'
                 ∧ files (fs (host s'))
                   = <[__path__ (this s0) ++ js ".measure" := x]> (files (fs (host s0)))) →
  same_but_clock_and_files s s1 →
  (files (fs (host s1)) = files (fs (host s))
   ∨ ∃ y, files (fs (host s1))
          = <[__path__ (this s) ++ js ".measure" := y]> (files (fs (host s)))) →
  ∃ vs s2, collect n body s1 = (Ok vs, s2) ∧ length vs = n
           ∧ same_but_clock_and_files s s2
           ∧ files (fs (host s2))
             = match n with
               | O => files (fs (host s1))
               | S _ => <[__path__ (this s) ++ js ".measure" := x]> (files (fs (host s)))
               end.
Proof.
  intros Hp Hden Hbody Hframe Hfiles.
  destruct (collect_returns
              (λ s0, same_but_clock_and_files s s0
                     ∧ (files (fs (host s0)) = files (fs (host s))
                        ∨ ∃ y, files (fs (host s0))
                               = <[__path__ (this s) ++ js ".measure" := y]>
                                   (files (fs (host s)))))
              (λ s0, same_but_clock_and_files s s0
                     ∧ files (fs (host s0))
                       = <[__path__ (this s) ++ js ".measure" := x]> (files (fs (host s))))
              body n s1) as (vs & s2 & Hvs & Hlen & Hend).
  - done.
  - intros s0 [Hf0 Hfiles0].
    assert (Hthis : this s0 = this s) by apply Hf0.
    assert (Hden0 : denied (fs (host s0)) = denied (fs (host s))) by apply Hf0.
    destruct (Hbody s0) as (v & s' & Hv & Hf' & Hfiles').
    { unfold plain_data. rewrite Hthis. exact Hp. }
    { by rewrite Hthis, Hden0. }
    exists v, s'. split; [done|]. split.
    { by apply (same_but_clock_and_files_trans s s0 s'). }
    rewrite Hfiles', Hthis. destruct Hfiles0 as [->|[y ->]]; [done|].
    by rewrite insert_insert_eq.
  - intros s0 [Hf0 Hfiles0]. split; [done|]. right. by eexists.
  - exists vs, s2. split; [done|]. split; [done|].
    destruct n; [by subst s2|]. by destruct Hend.
Qed.

(** X17.  The measures leave the store alone: on a map, when the file of
    the measures can be written, [measurePerformance (runs)] returns three
    arrays of [runs] numbers each, 20 when [runs] is undefined.  The bucket,
    the timers, the writes under way, the events and the backing file are as
    they were; the file of the measures, [.measure] after the path of the
    bucket, holds the JSON text of the data, and stays on the disk. *)
Theorem measurePerformance_leaves_the_store s t runs :
  plain_data s = Some t →
  (__path__ (this s) ++ js ".measure" ∉ denied (fs (host s))) →
  ∃ text serialize flush both s',
    JSON_stringify (JObject Plain t) = Some text
    ∧ measurePerformance runs s
      = (Ok (JObject Plain [(js "serialize", make_array serialize);
                            (js "flush", make_array flush);
                            (js "both", make_array both)]), s')
    ∧ length serialize = default 20 runs
    ∧ length flush = default 20 runs
    ∧ length both = default 20 runs
    ∧ same_but_clock_and_files s s'
    ∧ files (fs (host s'))
      = match default 20 runs with
        | O => files (fs (host s))
        | S _ => <[__path__ (this s) ++ js ".measure" := text]> (files (fs (host s)))
        end
    ∧ files (fs (host s')) !! __path__ (this s) = files (fs (host s)) !! __path__ (this s).
Proof.
  intros Hp Hden.
  destruct (JSON_stringify (JObject Plain t)) as [text|] eqn:Htext; [|done].
  set (n := default 20 runs).
  destruct (collect_returns
              (λ s0, same_but_clock_and_files s s0
                     ∧ files (fs (host s0)) = files (fs (host s)))
              (λ s0, same_but_clock_and_files s s0
                     ∧ files (fs (host s0)) = files (fs (host s)))
              measure_serialize n s) as (v1 & s1 & Hv1 & Hl1 & Hend1).
  { split; [apply same_but_clock_and_files_refl|done]. }
  { intros s0 [Hf0 Hfiles0]. destruct (measure_serialize_returns s0) as (v & s' & ? & ? & Hs').
    exists v, s'. split; [done|]. split.
    - by apply (same_but_clock_and_files_trans s s0 s').
    - by rewrite Hs'. }
  { done. }
  assert (Hs1 : same_but_clock_and_files s s1 ∧ files (fs (host s1)) = files (fs (host s))).
  { destruct n; [subst s1; split; [apply same_but_clock_and_files_refl|done]|done]. }
  destruct Hs1 as [Hf1 Hfiles1].
  destruct (measure_loops s t n measure_flush (QuoteJSONString text) s1 Hp Hden)
    as (v2 & s2 & Hv2 & Hl2 & Hf2 & Hfiles2); [|done|by left|].
  { intros s0 Hp0 Hden0. by apply (measure_flush_returns s0 t text). }
  destruct (measure_loops s t n measure_both text s2 Hp Hden)
    as (v3 & s3 & Hv3 & Hl3 & Hf3 & Hfiles3); [|done| |].
  { intros s0 Hp0 Hden0. by apply (measure_both_returns s0 t text). }
  { rewrite Hfiles2. destruct n; [by left|right; by eexists]. }
  exists text, v1, v2, v3, s3. split; [done|].
  assert (Hfinal : files (fs (host s3))
                   = match n with
                     | O => files (fs (host s))
                     | S _ => <[__path__ (this s) ++ js ".measure" := text]>
                                (files (fs (host s)))
                     end).
  { rewrite Hfiles3. destruct n; [|done]. by rewrite Hfiles2. }
  split.
  { unfold measurePerformance. fold n. unfold bind at 1. rewrite Hv1.
    unfold bind at 1. rewrite Hv2. unfold bind at 1. by rewrite Hv3. }
  do 4 (split; [done|]). split; [done|].
  rewrite Hfinal. destruct n; [done|].
  apply lookup_insert_ne. apply measure_path_ne.
Qed.

(** X18.  The measures need their file: on a map, when the file of the
    measures cannot be written and [runs] is not 0, [measurePerformance]
    throws at its first write; the bucket and the disk are as they were. *)
Theorem measurePerformance_needs_its_file s t runs :
  plain_data s = Some t →
  __path__ (this s) ++ js ".measure" ∈ denied (fs (host s)) →
  0 < default 20 runs →
  ∃ s', measurePerformance runs s = (Throw EACCES, s')
        ∧ same_but_clock_and_files s s'
        ∧ files (fs (host s')) = files (fs (host s)).
Proof.
  intros Hp Hden Hruns.
  remember (default 20 runs) as n eqn:Hn.
  destruct (collect_returns
              (λ s0, same_but_clock_and_files s s0
                     ∧ files (fs (host s0)) = files (fs (host s)))
              (λ s0, same_but_clock_and_files s s0
                     ∧ files (fs (host s0)) = files (fs (host s)))
              measure_serialize n s) as (v1 & s1 & Hv1 & Hl1 & Hend1).
  { split; [apply same_but_clock_and_files_refl|done]. }
  { intros s0 [Hf0 Hfiles0]. destruct (measure_serialize_returns s0) as (v & s' & ? & ? & Hs').
    exists v, s'. split; [done|]. split.
    - by apply (same_but_clock_and_files_trans s s0 s').
    - by rewrite Hs'. }
  { done. }
  destruct n as [|n]; [lia|]. destruct Hend1 as [Hf1 Hfiles1].
  assert (Hthis : this s1 = this s) by apply Hf1.
  assert (Hden1 : denied (fs (host s1)) = denied (fs (host s))) by apply Hf1.
  destruct (measure_flush_throws s1 t) as (s2 & Hv2 & Hf2 & Hfiles2).
  { unfold plain_data. by rewrite Hthis. }
  { by rewrite Hthis, Hden1. }
  exists s2. split.
  { unfold measurePerformance. rewrite <- Hn. unfold bind at 1. rewrite Hv1.
    cbn [collect]. unfold bind at 1 2. by rewrite Hv2. }
  split; [by apply (same_but_clock_and_files_trans s s1 s2)|]. by rewrite Hfiles2.
Qed.

End Measure_facts.


(** * The scenarios, checked *)

Section Scenarios_on_linux.
Import JS StorageBucket Scenario.
#[local] Existing Instance integers.
#[local] Existing Instance linux.


(** The burst ends at time 7, and the one write is started at time 12. *)
Example burst_writes_once :
  map (λ e, e.1.1)
      (write_log (host (ticks 40 (burst ((0, first_mutation) :: later_mutations)
                                        (user_bucket "{}")))))
  = [12].
Proof. vm_compute. reflexivity. Qed.

(** Witness of C2: the timer of [b] fires at time 10, during the write of [a]. *)
Lemma no_concurrent_flush_witness :
  well_formed busy_state = true
  ∧ timers (host busy_state) = [(2, 10)]
  ∧ 10 ≤ S (clock (host busy_state))
  ∧ inflight (host busy_state) = [write_under_way]
  ∧ S (clock (host busy_state)) < w_due write_under_way
  ∧ (write_log (host (tick busy_state)) = write_log (host busy_state)
     ∧ inflight (host (tick busy_state)) = [write_under_way]
     ∧ timers (host (tick busy_state))
       = [(next_timer (host busy_state),
           S (clock (host busy_state)) + DB_WRITE_DELAY_MS
           + timer_lateness (next_timer (host busy_state)))]
     ∧ __writeHold__ (this (tick busy_state)) = Some (next_timer (host busy_state))
     ∧ ∃ T, w_due write_under_way ≤ clock (host (tick busy_state)) + T
            ∧ clock (host (tick busy_state)) + DB_WRITE_DELAY_MS
              ≤ clock (host (tick busy_state)) + T
            ∧ one_write_after (tick busy_state) T).
Proof.
  assert (H1 : well_formed busy_state = true) by (vm_compute; reflexivity).
  assert (H2 : timers (host busy_state) = [(2, 10)]) by (vm_compute; reflexivity).
  assert (H3 : 10 ≤ S (clock (host busy_state))) by (vm_compute; lia).
  assert (H4 : inflight (host busy_state) = [write_under_way]) by (vm_compute; reflexivity).
  assert (H5 : S (clock (host busy_state)) < w_due write_under_way) by (vm_compute; lia).
  split; [exact H1|]. split; [exact H2|]. split; [exact H3|]. split; [exact H4|].
  split; [exact H5|].
  exact (no_concurrent_flush busy_state 2 10 write_under_way H1 H2 H3 H4 H5).
Defined.

(** The write of [a] starts at time 5; the timer of [b] finds the lock held at
    times 10 and 15, and the write of [b] starts at time 20, after the write
    of [a] has ended at time 18. *)
Example deferred_write_starts_later :
  map (λ e, e.1.1) (write_log (host (ticks 30 busy_state))) = [20; 5].
Proof. vm_compute. reflexivity. Qed.

(** Witness of C3: the object of the statistics scenario. *)
Lemma snapshot_round_trip_witness :
  canonical (map fst [(js "a", js "1"); (js "bb", js "22")]) = true
  ∧ JSON_stringify (JObject Plain (string_table [(js "a", js "1"); (js "bb", js "22")]))
    ≫= JSON_parse
    = Some (JObject Plain (string_table [(js "a", js "1"); (js "bb", js "22")])).
Proof.
  split; [reflexivity|].
  apply (snapshot_round_trip [(js "a", js "1"); (js "bb", js "22")]). reflexivity.
Defined.

(** C4 on a file of garbage: the bucket is constructed, and is empty. *)
Example garbage_gives_an_empty_store :
  ((constructor (js "user") (world_with user_db (json "{oops"))).1,
   (allKeys (user_bucket "{oops")).1)
  = (Ok (), Ok []).
Proof. vm_compute. reflexivity. Qed.


(** Counterexample to C5 as stated: a snapshot that holds [null] under [a]
    is loaded as it is, and [a] then maps to a value that is not a string. *)
Lemma loaded_value_is_not_a_string :
  (__data__ (this (user_bucket "{'a':null}")),
   strings_only (__data__ (this (user_bucket "{'a':null}"))))
  = (JObject Plain [(js "a", JNull)], false).
Proof. vm_compute. reflexivity. Qed.

(** Witness of C5 as amended: a snapshot of strings, then a history. *)
Lemma strings_only_invariant_witness :
  match file_text (fs (host (constructor (js "user")
                               (world_with user_db (json "{'a':'1'}"))).2))
                  (__path__ (this (constructor (js "user")
                                     (world_with user_db (json "{'a':'1'}"))).2)) with
  | Some text => match JSON_parse text with
                 | Some v => strings_only v = true
                 | None => True
                 end
  | None => True
  end
  ∧ strings_only
      (__data__ (this (run [Mutate (SetItem (js "k") (JBool true)); Turn;
                            Mutate (RemoveItem (js "a"))]
                           (constructor (js "user")
                              (world_with user_db (json "{'a':'1'}"))).2)))
    = true.
Proof.
  assert (H : match file_text (fs (host (constructor (js "user")
                                          (world_with user_db (json "{'a':'1'}"))).2))
                              (__path__ (this (constructor (js "user")
                                                 (world_with user_db (json "{'a':'1'}"))).2))
              with
              | Some text => match JSON_parse text with
                             | Some v => strings_only v = true
                             | None => True
                             end
              | None => True
              end) by (vm_compute; reflexivity).
  split; [exact H|].
  exact (strings_only_invariant (js "user") (world_with user_db (json "{'a':'1'}"))
           [Mutate (SetItem (js "k") (JBool true)); Turn; Mutate (RemoveItem (js "a"))] H).
Defined.



(** The assignment to [__proto__] is lost in a map that has no such key,
    and the two events are emitted all the same; in a map that has the key,
    as a snapshot can give it, the string is stored. *)
Example assignment_to_proto :
  (plain_data (_setItem (js "__proto__") (JString (js "x")) (user_bucket "{'a':'1'}")).2,
   map fst (emitted (host (_setItem (js "__proto__") (JString (js "x"))
                             (user_bucket "{'a':'1'}")).2)),
   plain_data (_setItem (js "__proto__") (JString (js "x"))
                 (user_bucket "{'__proto__':'y'}")).2)
  = (Some [(js "a", JString (js "1"))],
     [js "changed"; js "changed:__proto__"],
     Some [(js "__proto__", JString (js "x"))]).
Proof. vm_compute. reflexivity. Qed.



(** The two cases of the specification. *)
Example get_missing_and_get_after_set :
  ((getItem (js "missing") (JString (js "d")) (user_bucket "{}")).1,
   (getItem (js "k") JUndefined
      (_setItem (js "k") (JString (js "v")) (user_bucket "{}")).2).1)
  = (Ok (JString (js "d")), Ok (JString (js "v"))).
Proof. vm_compute. reflexivity. Qed.

(** Counterexample to C8 as stated: after the snapshot [null] no key is
    there, and [getJSONItem] does not return the default: it throws the
    TypeError of [getItem], which it calls before its [try]. *)
Lemma getJSONItem_throws_after_a_null_snapshot :
  (__data__ (this (user_bucket "null")),
   getJSONItem (js "missing") (JString (js "d")) (user_bucket "null"))
  = (JNull, (Throw TypeError, user_bucket "null")).
Proof. vm_compute. reflexivity. Qed.

(** Witness of C8 as amended: an entry that does not parse. *)
Lemma getJSONItem_policy_witness :
  plain_data (user_bucket "{'bad':'{oops'}") = Some [(js "bad", JString (js "{oops"))]
  ∧ (∀ c str, tbl_get [(js "bad", JString (js "{oops"))] (js "bad")
              = Some (JString (c :: str)) →
              JSON_parse (c :: str) = None →
              getJSONItem (js "bad") (JString (js "d")) (user_bucket "{'bad':'{oops'}")
              = (Ok (JObject Plain []), user_bucket "{'bad':'{oops'}"))
  ∧ (∀ v, tbl_get [(js "bad", JString (js "{oops"))] (js "bad") = Some v →
          truthy v = false →
          getJSONItem (js "bad") (JString (js "d")) (user_bucket "{'bad':'{oops'}")
          = (Ok (JString (js "d")), user_bucket "{'bad':'{oops'}"))
  ∧ (tbl_get [(js "bad", @JString integers (js "{oops"))] (js "bad") = None →
     inherited (js "bad") = false →
     getJSONItem (js "bad") (JString (js "d")) (user_bucket "{'bad':'{oops'}")
     = (Ok (JString (js "d")), user_bucket "{'bad':'{oops'}"))
  ∧ (∃ v, getJSONItem (js "bad") (JString (js "d")) (user_bucket "{'bad':'{oops'}")
          = (Ok v, user_bucket "{'bad':'{oops'}")).
Proof.
  assert (H : plain_data (user_bucket "{'bad':'{oops'}")
              = Some [(js "bad", JString (js "{oops"))]) by (vm_compute; reflexivity).
  split; [exact H|].
  exact (getJSONItem_policy (user_bucket "{'bad':'{oops'}")
           [(js "bad", JString (js "{oops"))] (js "bad") (JString (js "d")) H).
Defined.

(** The entry that does not parse gives [{}], a missing one the default. *)
Example corrupt_entry_gives_empty_object :
  ((getJSONItem (js "bad") (JString (js "d")) (user_bucket "{'bad':'{oops'}")).1,
   (getJSONItem (js "none") (JString (js "d")) (user_bucket "{'bad':'{oops'}")).1)
  = (Ok (JObject Plain []), Ok (JString (js "d"))).
Proof. vm_compute. reflexivity. Qed.

(** Counterexample to C9 as stated: on linux the backing file is absent and
    the previous location has a file of the same name; after the construction
    the file is where it was, the backing file is still absent, and the
    bucket is empty. *)
Lemma no_migration_on_linux :
  (files (fs (host (constructor (js "user")
                      (world_with old_user_db (json "{'a':'1'}"))).2)) !! user_db,
   files (fs (host (constructor (js "user")
                      (world_with old_user_db (json "{'a':'1'}"))).2)) !! old_user_db,
   __data__ (this (constructor (js "user")
                     (world_with old_user_db (json "{'a':'1'}"))).2))
  = (None, Some (json "{'a':'1'}"), JObject Plain []).
Proof. vm_compute. reflexivity. Qed.



(** The lengths of the scenario: [e] is in the keys and not in the lengths. *)
Example lengths_leave_out_the_empty_string :
  ((getKeyLengths (user_bucket "{'a':'1','bb':'22','e':''}")).1,
   (allKeys (user_bucket "{'a':'1','bb':'22','e':''}")).1)
  = (Ok (JObject Plain [(js "a", @JNumber integers 1%Z);
                        (js "bb", @JNumber integers 2%Z)]),
     Ok [js "a"; js "bb"; js "e"]).
Proof. vm_compute. reflexivity. Qed.

(** Witness of X1: [theme] is set in the empty bucket; the file is writable. *)
Lemma flushed_data_loads_back_witness :
  well_formed theme_set = true
  ∧ timers (host theme_set) = [(1, 5)]
  ∧ __data__ (this theme_set) = JObject Plain (string_table [(js "theme", js "dark")])
  ∧ canonical (map fst [(js "theme", js "dark")]) = true
  ∧ forallb (λ p, well_formed_utf16 p.1 && well_formed_utf16 p.2) [(js "theme", js "dark")]
    = true
  ∧ (__path__ (this theme_set) ∉ denied (fs (host theme_set)))
  ∧ ∃ N, ∀ n, N ≤ n →
      timers (host (ticks n theme_set)) = []
      ∧ inflight (host (ticks n theme_set)) = []
      ∧ loaded (fs (host (ticks n theme_set))) (__path__ (this theme_set))
        = JObject Plain (string_table [(js "theme", js "dark")])
      ∧ ∀ bucketName,
          __path__ (this theme_set) = path_join dbPath (db_file bucketName) →
          __data__ (this (constructor bucketName (host (ticks n theme_set))).2)
          = JObject Plain (string_table [(js "theme", js "dark")]).
Proof.
  assert (H1 : well_formed theme_set = true) by (vm_compute; reflexivity).
  assert (H2 : timers (host theme_set) = [(1, 5)]) by (vm_compute; reflexivity).
  assert (H3 : __data__ (this theme_set)
               = JObject Plain (string_table [(js "theme", js "dark")]))
    by (vm_compute; reflexivity).
  assert (H4 : canonical (map fst [(js "theme", js "dark")]) = true)
    by (vm_compute; reflexivity).
  assert (H5 : forallb (λ p, well_formed_utf16 p.1 && well_formed_utf16 p.2)
                       [(js "theme", js "dark")] = true)
    by (vm_compute; reflexivity).
  assert (H6 : __path__ (this theme_set) ∉ denied (fs (host theme_set)))
    by (apply (bool_decide_unpack _); vm_compute; reflexivity).
  split; [exact H1|]. split; [exact H2|]. split; [exact H3|]. split; [exact H4|].
  split; [exact H5|]. split; [exact H6|].
  exact (flushed_data_loads_back theme_set 1 5 [(js "theme", js "dark")] H1 H2 H3 H4 H5 H6).
Defined.

(** The write starts at time 5 and ends at time 18: a bucket constructed at
    time 17 is empty, one constructed at time 18 has the theme. *)
Example restart_after_the_write :
  (__data__ (this (constructor (js "user") (host (ticks 17 theme_set))).2),
   __data__ (this (constructor (js "user") (host (ticks 18 theme_set))).2))
  = (JObject Plain [], JObject Plain [(js "theme", JString (js "dark"))]).
Proof. vm_compute. reflexivity. Qed.

(** The keys of a snapshot in which a key comes twice and an index comes
    last: [allKeys ()] has the index first and each key once. *)
Example keys_in_the_order_of_enumeration :
  (allKeys (user_bucket "{'b':'1','a':'2','b':'3','7':'4'}")).1
  = Ok [js "7"; js "b"; js "a"].
Proof. vm_compute. reflexivity. Qed.

(** Witness of X3: [a] is removed from a bucket of two keys. *)
Lemma _removeItem_then_getItem_witness :
  plain_data (user_bucket "{'a':'1','bb':'22'}")
  = Some [(js "a", JString (js "1")); (js "bb", JString (js "22"))]
  ∧ NoDup (tbl_keys [(js "a", JString (js "1")); (js "bb", @JString integers (js "22"))])
  ∧ inherited (js "a") = false
  ∧ (_removeItem (js "a") (user_bucket "{'a':'1','bb':'22'}")).1 = Ok JUndefined
  ∧ (getItem (js "a") JNull
       (_removeItem (js "a") (user_bucket "{'a':'1','bb':'22'}")).2).1 = Ok JNull
  ∧ ∀ k', k' ≠ js "a" →
          (getItem k' JNull (_removeItem (js "a") (user_bucket "{'a':'1','bb':'22'}")).2).1
          = (getItem k' JNull (user_bucket "{'a':'1','bb':'22'}")).1.
Proof.
  assert (H1 : plain_data (user_bucket "{'a':'1','bb':'22'}")
               = Some [(js "a", JString (js "1")); (js "bb", JString (js "22"))])
    by (vm_compute; reflexivity).
  assert (H2 : NoDup (tbl_keys [(js "a", JString (js "1"));
                                (js "bb", @JString integers (js "22"))]))
    by (apply (bool_decide_unpack _); vm_compute; reflexivity).
  assert (H3 : inherited (js "a") = false) by (vm_compute; reflexivity).
  split; [exact H1|]. split; [exact H2|]. split; [exact H3|].
  exact (_removeItem_then_getItem (user_bucket "{'a':'1','bb':'22'}") _ (js "a") JNull
           H1 H2 H3).
Defined.

(** Witness of X4: the history of [Scenario], from a world at rest. *)
Lemma writes_never_overlap_witness :
  timers (world_with user_db (json "{}")) = []
  ∧ inflight (world_with user_db (json "{}")) = []
  ∧ (length (timers (host (run history
               (constructor (js "user") (world_with user_db (json "{}"))).2))) ≤ 1
     ∧ length (inflight (host (run history
                 (constructor (js "user") (world_with user_db (json "{}"))).2))) ≤ 1
     ∧ (__writeLock__ (this (run history
                         (constructor (js "user") (world_with user_db (json "{}"))).2))
        = true
        ↔ length (inflight (host (run history
                    (constructor (js "user") (world_with user_db (json "{}"))).2))) = 1)).
Proof.
  split; [reflexivity|]. split; [reflexivity|].
  exact (writes_never_overlap (js "user") (world_with user_db (json "{}")) history
           eq_refl eq_refl).
Defined.

(** At the end of the history the write of the first snapshot is under way
    and the timer of the removal is armed. *)
Example history_ends_during_a_write :
  (map (λ e, e.1.1)
       (write_log (host (run history
                    (constructor (js "user") (world_with user_db (json "{}"))).2))),
   inflight (host (run history
               (constructor (js "user") (world_with user_db (json "{}"))).2)),
   timers (host (run history
             (constructor (js "user") (world_with user_db (json "{}"))).2)))
  = ([5], [{| w_due := 18; w_path := user_db; w_text := Some (json "{'theme':'dark'}") |}],
     [(3, 16)]).
Proof. vm_compute. reflexivity. Qed.

(** Witness of X5: the bucket of the statistics; the empty string of [e]
    shows as undefined. *)
Lemma allItems_copies_the_store_witness :
  plain_data stats_bucket = Some stats_table
  ∧ canonical (tbl_keys stats_table) = true
  ∧ tbl_get stats_table (js "__proto__") = None
  ∧ allItems stats_bucket
    = (Ok (JObject Plain [(js "a", JString (js "1")); (js "bb", JString (js "22"));
                          (js "e", JUndefined)]), stats_bucket).
Proof.
  assert (H1 : plain_data stats_bucket = Some stats_table) by (vm_compute; reflexivity).
  assert (H2 : canonical (tbl_keys stats_table) = true) by (vm_compute; reflexivity).
  assert (H3 : tbl_get stats_table (js "__proto__") = None) by (vm_compute; reflexivity).
  split; [exact H1|]. split; [exact H2|]. split; [exact H3|].
  exact (proj1 (allItems_copies_the_store stats_bucket stats_table H1 H2 H3)).
Defined.

(** Witness of X6: a JSON text, a text that is not JSON, an empty string. *)
Lemma allJSONItems_never_throws_witness :
  plain_data texts_bucket = Some texts_table
  ∧ canonical (tbl_keys texts_table) = true
  ∧ all_strings texts_table = true
  ∧ tbl_get texts_table (js "__proto__") = None
  ∧ allJSONItems texts_bucket
    = (Ok (JObject Plain [(js "a", make_array [@JNumber integers 1%Z]);
                          (js "b", JObject Plain []);
                          (js "e", JUndefined)]), texts_bucket).
Proof.
  assert (H1 : plain_data texts_bucket = Some texts_table) by (vm_compute; reflexivity).
  assert (H2 : canonical (tbl_keys texts_table) = true) by (vm_compute; reflexivity).
  assert (H3 : all_strings texts_table = true) by (vm_compute; reflexivity).
  assert (H4 : tbl_get texts_table (js "__proto__") = None) by (vm_compute; reflexivity).
  split; [exact H1|]. split; [exact H2|]. split; [exact H3|]. split; [exact H4|].
  exact (allJSONItems_never_throws texts_bucket texts_table H1 H2 H3 H4).
Defined.

(** X8 on a bucket whose file is elsewhere: the statistics throw. *)
Example statistics_without_a_file :
  (getStats (constructor (js "user") (world_with old_user_db (json "{}"))).2).1
  = Throw ENOENT.
Proof. vm_compute. reflexivity. Qed.

(** The statistics of the bucket [a], [bb], [e]: 26 bytes, 26 code units. *)
Example statistics_of_a_bucket :
  (getStats stats_bucket).1
  = Ok (JObject Plain
          [(js "filesize", @JNumber integers 26%Z);
           (js "keyLengths", JObject Plain [(js "a", @JNumber integers 1%Z);
                                            (js "bb", @JNumber integers 2%Z)]);
           (js "dataSize", @JNumber integers 26%Z)]).
Proof. vm_compute. reflexivity. Qed.

(** Witness of X10: an object of strings, stored as its JSON text. *)
Lemma json_through_the_store_witness :
  plain_data (user_bucket "{'a':'1'}") = Some [(js "a", JString (js "1"))]
  ∧ canonical (map fst [(js "theme", js "dark")]) = true
  ∧ js "prefs" ≠ js "__proto__"
  ∧ (getJSONItem (js "prefs") JNull
       (_setItem (js "prefs") (JString (json "{'theme':'dark'}"))
          (user_bucket "{'a':'1'}")).2).1
    = Ok (JObject Plain [(js "theme", JString (js "dark"))])
  ∧ (stringable (JObject Plain [(js "theme", @JString integers (js "dark"))]) = true →
     (getJSONItem (js "prefs") JNull
        (_setItem (js "prefs") (JObject Plain [(js "theme", JString (js "dark"))])
           (user_bucket "{'a':'1'}")).2).1
     = Ok (JObject Plain [])).
Proof.
  assert (H1 : plain_data (user_bucket "{'a':'1'}") = Some [(js "a", JString (js "1"))])
    by (vm_compute; reflexivity).
  assert (H2 : canonical (map fst [(js "theme", js "dark")]) = true)
    by (vm_compute; reflexivity).
  assert (H3 : js "prefs" ≠ js "__proto__") by (apply (bool_decide_unpack _); vm_compute; reflexivity).
  split; [exact H1|]. split; [exact H2|]. split; [exact H3|].
  destruct (json_through_the_store (user_bucket "{'a':'1'}") _ (js "prefs") JNull
              [(js "theme", js "dark")] H1 H2 H3) as [Htext Hobject].
  split.
  - exact (Htext (json "{'theme':'dark'}") eq_refl).
  - exact (λ H, proj2 (Hobject [(js "theme", JString (js "dark"))] H)).
Defined.

(** Witness of X11: a request whose body is null, and a request to get an
    item after the snapshot [null]. *)
Lemma failed_request_has_no_effect_witness :
  listener SetItemRequest fresh_event JNull stats_bucket = (Throw TypeError, stats_bucket)
  ∧ (__data__ (this (user_bucket "null")) = JUndefined
     ∨ __data__ (this (user_bucket "null")) = JNull)
  ∧ ∃ e, listener GetItemRequest fresh_event get_request (user_bucket "null")
         = (Throw e, user_bucket "null")
         ∧ (GetItemRequest ≠ GetStatsRequest → e = TypeError).
Proof.
  assert (H : __data__ (this (user_bucket "null")) = JUndefined
              ∨ __data__ (this (user_bucket "null")) = JNull)
    by (right; vm_compute; reflexivity).
  split; [|split; [exact H|]].
  - exact (proj1 (failed_request_has_no_effect SetItemRequest fresh_event JNull stats_bucket)
             (or_intror eq_refl)).
  - exact (proj2 (failed_request_has_no_effect GetItemRequest fresh_event get_request
                    (user_bucket "null")) H).
Defined.

(** A request to set an item in a bucket whose data is a string throws,
    and the data are the string still. *)
Example request_on_a_string :
  (listener SetItemRequest fresh_event set_request (user_bucket "'text'")).1
  = Throw TypeError
  ∧ __data__ (this (listener SetItemRequest fresh_event set_request
                      (user_bucket "'text'")).2)
    = JString (js "text").
Proof. vm_compute. split; reflexivity. Qed.

(** Witness of X12: a synchronous request for the statistics. *)
Lemma one_answer_to_each_request_witness :
  plain_data stats_bucket = Some stats_table
  ∧ js_get stats_request (js "id") = Ok (@JNumber integers 9%Z)
  ∧ js_get stats_request (js "sync") = Ok (JBool true)
  ∧ js_get stats_request (js "key") = Ok JUndefined
  ∧ js_get stats_request (js "value") = Ok JUndefined
  ∧ stringable (@JUndefined integers) = true
  ∧ (GetStatsRequest = GetItemRequest →
     tbl_get stats_table (ToString (@JUndefined integers)) = None →
     inherited (ToString (@JUndefined integers)) = false)
  ∧ (GetStatsRequest = GetStatsRequest →
     is_Some (files (fs (host stats_bucket)) !! __path__ (this stats_bucket)))
  ∧ ∃ response,
      listener GetStatsRequest fresh_event stats_request stats_bucket
      = (Ok {| returnValue := JObject Plain [(js "id", @JNumber integers 9%Z);
                                             (js "response", response)];
               sent := [] |}, stats_bucket)
      ∧ getStats stats_bucket = (Ok response, stats_bucket).
Proof.
  assert (H1 : plain_data stats_bucket = Some stats_table) by (vm_compute; reflexivity).
  assert (H2 : js_get stats_request (js "id") = Ok (@JNumber integers 9%Z))
    by (vm_compute; reflexivity).
  assert (H3 : js_get stats_request (js "sync") = Ok (@JBool integers true))
    by (vm_compute; reflexivity).
  assert (H4 : js_get stats_request (js "key") = Ok (@JUndefined integers))
    by (vm_compute; reflexivity).
  assert (H5 : js_get stats_request (js "value") = Ok (@JUndefined integers))
    by (vm_compute; reflexivity).
  assert (H6 : stringable (@JUndefined integers) = true) by reflexivity.
  assert (H7 : GetStatsRequest = GetItemRequest →
               tbl_get stats_table (ToString (@JUndefined integers)) = None →
               inherited (ToString (@JUndefined integers)) = false).
  { intros _ _. vm_compute. reflexivity. }
  assert (H8 : GetStatsRequest = GetStatsRequest →
               is_Some (files (fs (host stats_bucket)) !! __path__ (this stats_bucket))).
  { intros _. apply (bool_decide_unpack _). vm_compute. reflexivity. }
  split; [exact H1|]. split; [exact H2|]. split; [exact H3|]. split; [exact H4|].
  split; [exact H5|]. split; [exact H6|]. split; [exact H7|]. split; [exact H8|].
  destruct (one_answer_to_each_request GetStatsRequest fresh_event stats_request
              stats_bucket stats_table _ _ _ _ H1 H2 H3 H4 H5 H6 H6 H7 H8)
    as (response & s' & Hanswer & Hs' & Hstats).
  exists response. rewrite Hs' in Hanswer. split; [exact Hanswer|exact Hstats].
Defined.

(** A request to get an item of the bucket of the statistics: the answer is
    a message with the stored string. *)
Example answer_to_a_read :
  (listener GetItemRequest fresh_event
     (JObject Plain [(js "id", @JNumber integers 8%Z); (js "key", JString (js "bb"))])
     stats_bucket).1
  = Ok {| returnValue := JUndefined;
          sent := [(js "storageBucket:user:reply",
                    JObject Plain [(js "id", @JNumber integers 8%Z);
                                   (js "response", JString (js "22"))])] |}.
Proof. vm_compute. reflexivity. Qed.

(** Witness of X13: the key 1, a number, is set to true, and the key [1], a
    string, is got; the first answer is the value of the event, the second is
    a message. *)
Lemma set_then_get_over_ipc_witness :
  plain_data stats_bucket = Some stats_table
  ∧ stringable (@JNumber integers 1%Z) = true
  ∧ stringable (@JString integers (js "1")) = true
  ∧ stringable (@JBool integers true) = true
  ∧ ToString (@JNumber integers 1%Z) ≠ js "__proto__"
  ∧ js_get set_request (js "key") = Ok (@JNumber integers 1%Z)
  ∧ js_get set_request (js "value") = Ok (JBool true)
  ∧ js_get set_request (js "id") = Ok (@JNumber integers 7%Z)
  ∧ js_get set_request (js "sync") = Ok (JBool true)
  ∧ js_get get_request (js "key") = Ok (JString (js "1"))
  ∧ js_get get_request (js "id") = Ok (@JNumber integers 8%Z)
  ∧ js_get get_request (js "sync") = Ok JUndefined
  ∧ ToString (JString (js "1")) = ToString (@JNumber integers 1%Z)
  ∧ ∃ s1,
      _handleIPCSetItem fresh_event set_request stats_bucket
      = (Ok {| returnValue := JObject Plain [(js "id", @JNumber integers 7%Z);
                                             (js "response", JNull)];
               sent := [] |}, s1)
      ∧ _handleIPCGetItem fresh_event get_request s1
        = (Ok {| returnValue := JUndefined;
                 sent := [(js "storageBucket:user:reply",
                           JObject Plain [(js "id", @JNumber integers 8%Z);
                                          (js "response", JString (js "true"))])] |}, s1).
Proof.
  assert (H1 : plain_data stats_bucket = Some stats_table) by (vm_compute; reflexivity).
  assert (G1 : stringable (@JNumber integers 1%Z) = true) by reflexivity.
  assert (G2 : stringable (@JString integers (js "1")) = true) by reflexivity.
  assert (G3 : stringable (@JBool integers true) = true) by reflexivity.
  assert (G4 : ToString (@JNumber integers 1%Z) ≠ js "__proto__")
    by (apply (bool_decide_unpack _); vm_compute; reflexivity).
  assert (H2 : js_get set_request (js "key") = Ok (@JNumber integers 1%Z))
    by (vm_compute; reflexivity).
  assert (H3 : js_get set_request (js "value") = Ok (@JBool integers true))
    by (vm_compute; reflexivity).
  assert (H4 : js_get set_request (js "id") = Ok (@JNumber integers 7%Z))
    by (vm_compute; reflexivity).
  assert (H5 : js_get set_request (js "sync") = Ok (@JBool integers true))
    by (vm_compute; reflexivity).
  assert (H6 : js_get get_request (js "key") = Ok (@JString integers (js "1")))
    by (vm_compute; reflexivity).
  assert (H7 : js_get get_request (js "id") = Ok (@JNumber integers 8%Z))
    by (vm_compute; reflexivity).
  assert (H8 : js_get get_request (js "sync") = Ok (@JUndefined integers))
    by (vm_compute; reflexivity).
  assert (H9 : ToString (JString (js "1")) = ToString (@JNumber integers 1%Z))
    by (vm_compute; reflexivity).
  split; [exact H1|]. split; [exact G1|]. split; [exact G2|]. split; [exact G3|].
  split; [exact G4|]. split; [exact H2|]. split; [exact H3|]. split; [exact H4|].
  split; [exact H5|]. split; [exact H6|]. split; [exact H7|]. split; [exact H8|].
  split; [exact H9|].
  exact (set_then_get_over_ipc stats_bucket stats_table fresh_event fresh_event
           set_request get_request _ _ _ _ _ _ _ H1 G1 G2 G3 G4 H2 H3 H4 H5 H6 H7 H8 H9).
Defined.

(** The events of the request that sets the key 1: the event [changed] has
    the key as it came, a number. *)
Example events_of_a_request :
  emitted (host (_handleIPCSetItem fresh_event set_request stats_bucket).2)
  = [(js "changed", JObject Plain [(js "type", JString (js "setItem"));
                                   (js "key", @JNumber integers 1%Z)]);
     (js "changed:1", JObject Plain [])].
Proof. vm_compute. reflexivity. Qed.


(** The write of the data that the removal left unchanged starts at time 5. *)
Example unchanged_data_are_written :
  write_log (host (ticks 5 (mutate (RemoveItem (js "zoom")) stats_bucket).2))
  = [(5, user_db, Some (json "{'a':'1','bb':'22','e':''}"))].
Proof. vm_compute. reflexivity. Qed.

(** Witness of X15: the history of [Scenario] on a path that cannot be
    written. *)
Lemma failed_writes_are_silent_witness :
  well_formed refused_bucket = true
  ∧ (__path__ (this refused_bucket) ∈ denied (fs (host refused_bucket)))
  ∧ Forall (λ pw, w_path pw = __path__ (this refused_bucket))
           (inflight (host refused_bucket))
  ∧ (fs (host (run history refused_bucket)) = fs (host refused_bucket)
     ∧ console (host (run history refused_bucket)) = console (host refused_bucket)
     ∧ well_formed (run history refused_bucket) = true).
Proof.
  assert (H1 : well_formed refused_bucket = true) by (vm_compute; reflexivity).
  assert (H2 : __path__ (this refused_bucket) ∈ denied (fs (host refused_bucket)))
    by (apply (bool_decide_unpack _); vm_compute; reflexivity).
  assert (Hinf : inflight (host refused_bucket) = []) by (vm_compute; reflexivity).
  assert (H3 : Forall (λ pw, w_path pw = __path__ (this refused_bucket))
                      (inflight (host refused_bucket))).
  { rewrite Hinf. constructor. }
  split; [exact H1|]. split; [exact H2|]. split; [exact H3|].
  exact (failed_writes_are_silent history refused_bucket H1 H2 H3).
Defined.

(** In that history one write is started, at time 5, and the disk has no
    file at the end. *)
Example refused_write_leaves_no_file :
  (map (λ e, e.1.1) (write_log (host (run history refused_bucket))),
   files (fs (host (run history refused_bucket))) !! user_db,
   console (host (run history refused_bucket)))
  = ([5], None, []).
Proof. vm_compute. reflexivity. Qed.

(** Witness of X16: [theme] is set in the empty bucket. *)
Lemma sizes_after_the_flush_witness :
  well_formed theme_set = true
  ∧ timers (host theme_set) = [(1, 5)]
  ∧ plain_data theme_set = Some [(js "theme", JString (js "dark"))]
  ∧ (__path__ (this theme_set) ∉ denied (fs (host theme_set)))
  ∧ JSON_stringify (JObject Plain [(js "theme", @JString integers (js "dark"))])
    = Some (json "{'theme':'dark'}")
  ∧ well_formed_utf16 (json "{'theme':'dark'}") = true
  ∧ (N.of_nat (length (json "{'theme':'dark'}")) ≤ utf8_length (json "{'theme':'dark'}"))%N
  ∧ (Forall (λ c, (c < 128)%N) (json "{'theme':'dark'}") →
     utf8_length (json "{'theme':'dark'}") = N.of_nat (length (json "{'theme':'dark'}")))
  ∧ ∃ N, ∀ n, N ≤ n →
      ∃ keyLengths,
        getStats (ticks n theme_set)
        = (Ok (JObject Plain
                 [(js "filesize", JNumber (num_of_N (utf8_length (json "{'theme':'dark'}"))));
                  (js "keyLengths", keyLengths);
                  (js "dataSize",
                   JNumber (num_of_N (N.of_nat (length (json "{'theme':'dark'}")))))]),
           ticks n theme_set).
Proof.
  assert (H1 : well_formed theme_set = true) by (vm_compute; reflexivity).
  assert (H2 : timers (host theme_set) = [(1, 5)]) by (vm_compute; reflexivity).
  assert (H3 : plain_data theme_set = Some [(js "theme", JString (js "dark"))])
    by (vm_compute; reflexivity).
  assert (H4 : __path__ (this theme_set) ∉ denied (fs (host theme_set)))
    by (apply (bool_decide_unpack _); vm_compute; reflexivity).
  assert (H5 : JSON_stringify (JObject Plain [(js "theme", @JString integers (js "dark"))])
               = Some (json "{'theme':'dark'}")) by (vm_compute; reflexivity).
  assert (H6 : well_formed_utf16 (json "{'theme':'dark'}") = true)
    by (vm_compute; reflexivity).
  split; [exact H1|]. split; [exact H2|]. split; [exact H3|]. split; [exact H4|].
  split; [exact H5|]. split; [exact H6|].
  exact (sizes_after_the_flush theme_set 1 5 _ _ H1 H2 H3 H4 H5 H6).
Defined.

(** Before the write has ended, at time 17, the file is the one of the
    construction, of 2 bytes, and the data have 16 code units; at time 18
    the two sizes are 16. *)
Example sizes_before_and_after :
  ((getStats (ticks 17 theme_set)).1, (getStats (ticks 18 theme_set)).1)
  = (Ok (JObject Plain
           [(js "filesize", @JNumber integers 2%Z);
            (js "keyLengths", JObject Plain [(js "theme", @JNumber integers 4%Z)]);
            (js "dataSize", @JNumber integers 16%Z)]),
     Ok (JObject Plain
           [(js "filesize", @JNumber integers 16%Z);
            (js "keyLengths", JObject Plain [(js "theme", @JNumber integers 4%Z)]);
            (js "dataSize", @JNumber integers 16%Z)])).
Proof. vm_compute. reflexivity. Qed.

(** Witness of X19: the history of [Scenario] on the bucket of the
    statistics. *)
Lemma data_follow_the_mutations_witness :
  well_formed stats_bucket = true
  ∧ plain_data stats_bucket = Some stats_table
  ∧ canonical (tbl_keys stats_table) = true
  ∧ forallb stringable_event history = true
  ∧ (plain_data (run history stats_bucket) = Some (replay history stats_table)
     ∧ emitted (host (run history stats_bucket))
       = emitted (host stats_bucket)
         ++ flat_map (λ e, match e with
                           | Mutate m => changed_events m
                           | Turn => []
                           end) history
     ∧ (∀ k v d, stringable v = true → k ≠ js "__proto__" →
                 (getItem k d (run (history ++ [Mutate (SetItem k v)]) stats_bucket)).1
                 = Ok (js_or (JString (ToString v)) d))
     ∧ (∀ k d, inherited k = false →
               (getItem k d (run (history ++ [Mutate (RemoveItem k)]) stats_bucket)).1
               = Ok d)).
Proof.
  assert (H0 : well_formed stats_bucket = true) by (vm_compute; reflexivity).
  assert (H1 : plain_data stats_bucket = Some stats_table) by (vm_compute; reflexivity).
  assert (H2 : canonical (tbl_keys stats_table) = true) by (vm_compute; reflexivity).
  assert (H3 : forallb stringable_event history = true) by (vm_compute; reflexivity).
  split; [exact H0|]. split; [exact H1|]. split; [exact H2|]. split; [exact H3|].
  exact (data_follow_the_mutations history stats_bucket stats_table H0 H1 H2 H3).
Defined.

(** The history sets [theme] and removes it: the table is the one of the
    bucket again. *)
Example replay_of_the_history : replay history stats_table = stats_table.
Proof. vm_compute. reflexivity. Qed.

(** Witness of X20: the file of the bucket holds [null]. *)
Lemma null_snapshot_is_never_repaired_witness :
  timers (world_with user_db (json "null")) = []
  ∧ inflight (world_with user_db (json "null")) = []
  ∧ file_text (fs (world_with user_db (json "null")))
              (path_join dbPath (db_file (js "user"))) = Some (json "null")
  ∧ JSON_parse (json "null") = Some (@JNull integers)
  ∧ (__data__ (this (run history (user_bucket "null"))) = JNull
     ∧ fs (host (run history (user_bucket "null"))) = fs (world_with user_db (json "null"))
     ∧ write_log (host (run history (user_bucket "null")))
       = write_log (world_with user_db (json "null"))
     ∧ timers (host (run history (user_bucket "null"))) = []
     ∧ (∀ k d, getItem k d (run history (user_bucket "null"))
               = (Throw TypeError, run history (user_bucket "null")))
     ∧ (∀ k d, getJSONItem k d (run history (user_bucket "null"))
               = (Throw TypeError, run history (user_bucket "null")))
     ∧ allKeys (run history (user_bucket "null"))
       = (Throw TypeError, run history (user_bucket "null"))
     ∧ (∀ m, mutate m (run history (user_bucket "null"))
             = (Throw TypeError, run history (user_bucket "null")))).
Proof.
  assert (H3 : file_text (fs (world_with user_db (json "null")))
                         (path_join dbPath (db_file (js "user"))) = Some (json "null"))
    by (vm_compute; reflexivity).
  assert (H4 : JSON_parse (json "null") = Some (@JNull integers))
    by (vm_compute; reflexivity).
  split; [reflexivity|]. split; [reflexivity|]. split; [exact H3|]. split; [exact H4|].
  exact (null_snapshot_is_never_repaired (js "user") (world_with user_db (json "null"))
           (json "null") history eq_refl eq_refl H3 H4).
Defined.

(** The same with a snapshot that is a number: a removal returns, and the
    number is written again. *)
Example number_snapshot_is_written_again :
  ((mutate (RemoveItem (js "a")) (user_bucket "5")).1,
   map (λ e, e.2)
       (write_log (host (ticks 5 (mutate (RemoveItem (js "a")) (user_bucket "5")).2))))
  = (Ok JUndefined, [Some (json "5")]).
Proof. vm_compute. reflexivity. Qed.

End Scenarios_on_linux.

Section Scenarios_on_windows.
Import JS StorageBucket Scenario.
#[local] Existing Instance integers.
#[local] Existing Instance windows.

(** C9 as amended, on win32: the file of the previous location is moved into
    place and the bucket is loaded from it. *)
Example migration_on_windows :
  (files (fs (host (constructor (js "user")
                      (world_with local_db (json "{'a':'1'}"))).2)) !! roaming_db,
   files (fs (host (constructor (js "user")
                      (world_with local_db (json "{'a':'1'}"))).2)) !! local_db,
   __data__ (this (constructor (js "user")
                     (world_with local_db (json "{'a':'1'}"))).2))
  = (Some (json "{'a':'1'}"), None, JObject Plain [(js "a", JString (js "1"))]).
Proof. vm_compute. reflexivity. Qed.

(** Witness of X9: the current file and the one of the previous location are
    both there; the disk is left as it is and the current file is loaded. *)
Lemma constructor_keeps_the_file_witness :
  files (fs (world_with_both roaming_db (json "{'a':'new'}") local_db (json "{'a':'old'}")))
    !! path_join dbPath (db_file (js "user")) = Some (json "{'a':'new'}")
  ∧ (fs (host (constructor (js "user")
                 (world_with_both roaming_db (json "{'a':'new'}")
                                  local_db (json "{'a':'old'}"))).2)
     = fs (world_with_both roaming_db (json "{'a':'new'}") local_db (json "{'a':'old'}"))
     ∧ __data__ (this (constructor (js "user")
                         (world_with_both roaming_db (json "{'a':'new'}")
                                          local_db (json "{'a':'old'}"))).2)
       = loaded (fs (world_with_both roaming_db (json "{'a':'new'}")
                                     local_db (json "{'a':'old'}")))
                (path_join dbPath (db_file (js "user")))
     ∧ timers (host (constructor (js "user")
                       (world_with_both roaming_db (json "{'a':'new'}")
                                        local_db (json "{'a':'old'}"))).2)
       = timers (world_with_both roaming_db (json "{'a':'new'}")
                                 local_db (json "{'a':'old'}"))
     ∧ write_log (host (constructor (js "user")
                          (world_with_both roaming_db (json "{'a':'new'}")
                                           local_db (json "{'a':'old'}"))).2)
       = write_log (world_with_both roaming_db (json "{'a':'new'}")
                                    local_db (json "{'a':'old'}"))).
Proof.
  assert (H : files (fs (world_with_both roaming_db (json "{'a':'new'}")
                                         local_db (json "{'a':'old'}")))
                !! path_join dbPath (db_file (js "user")) = Some (json "{'a':'new'}"))
    by (vm_compute; reflexivity).
  split; [exact H|].
  exact (constructor_keeps_the_file (js "user")
           (world_with_both roaming_db (json "{'a':'new'}") local_db (json "{'a':'old'}"))
           (json "{'a':'new'}") H).
Defined.

(** The bucket has the value of the current file, and the file of the
    previous location is still there. *)
Example current_file_wins :
  (__data__ (this (constructor (js "user")
                     (world_with_both roaming_db (json "{'a':'new'}")
                                      local_db (json "{'a':'old'}"))).2),
   files (fs (host (constructor (js "user")
                      (world_with_both roaming_db (json "{'a':'new'}")
                                       local_db (json "{'a':'old'}"))).2)) !! local_db)
  = (JObject Plain [(js "a", JString (js "new"))], Some (json "{'a':'old'}")).
Proof. vm_compute. reflexivity. Qed.

End Scenarios_on_windows.


Section Scenarios_of_the_measures.
Import JS StorageBucket Scenario.
#[local] Existing Instance integers.
#[local] Existing Instance linux.
#[local] Existing Instance stopwatch.

(** Witness of X17: two runs on the bucket of the statistics. *)
Lemma measurePerformance_leaves_the_store_witness :
  plain_data stats_bucket = Some stats_table
  ∧ (__path__ (this stats_bucket) ++ js ".measure" ∉ denied (fs (host stats_bucket)))
  ∧ ∃ text serialize flush both s',
      JSON_stringify (JObject Plain stats_table) = Some text
      ∧ measurePerformance (Some 2) stats_bucket
        = (Ok (JObject Plain [(js "serialize", make_array serialize);
                              (js "flush", make_array flush);
                              (js "both", make_array both)]), s')
      ∧ length serialize = 2
      ∧ length flush = 2
      ∧ length both = 2
      ∧ same_but_clock_and_files stats_bucket s'
      ∧ files (fs (host s'))
        = <[__path__ (this stats_bucket) ++ js ".measure" := text]>
            (files (fs (host stats_bucket)))
      ∧ files (fs (host s')) !! __path__ (this stats_bucket)
        = files (fs (host stats_bucket)) !! __path__ (this stats_bucket).
Proof.
  assert (H1 : plain_data stats_bucket = Some stats_table) by (vm_compute; reflexivity).
  assert (H2 : __path__ (this stats_bucket) ++ js ".measure"
               ∉ denied (fs (host stats_bucket)))
    by (apply (bool_decide_unpack _); vm_compute; reflexivity).
  split; [exact H1|]. split; [exact H2|].
  exact (measurePerformance_leaves_the_store stats_bucket stats_table (Some 2) H1 H2).
Defined.

(** The measures of the two runs, with the stopwatch of [Scenario], and the
    file that they leave. *)
Example measures_of_two_runs :
  ((measurePerformance (Some 2) stats_bucket).1,
   files (fs (host (measurePerformance (Some 2) stats_bucket).2))
     !! (user_db ++ js ".measure"))
  = (Ok (JObject Plain
           [(js "serialize", make_array [@JNumber integers 1%Z; JNumber 1%Z]);
            (js "flush", make_array [@JNumber integers 4%Z; JNumber 4%Z]);
            (js "both", make_array [@JNumber integers 4%Z; JNumber 4%Z])]),
     Some (json "{'a':'1','bb':'22','e':''}")).
Proof. vm_compute. reflexivity. Qed.

(** Witness of X18: the file of the measures cannot be written. *)
Lemma measurePerformance_needs_its_file_witness :
  plain_data unmeasured_bucket = Some []
  ∧ (__path__ (this unmeasured_bucket) ++ js ".measure"
     ∈ denied (fs (host unmeasured_bucket)))
  ∧ 0 < default 20 (@None nat)
  ∧ ∃ s', measurePerformance None unmeasured_bucket = (Throw EACCES, s')
          ∧ same_but_clock_and_files unmeasured_bucket s'
          ∧ files (fs (host s')) = files (fs (host unmeasured_bucket)).
Proof.
  assert (H1 : plain_data unmeasured_bucket = Some []) by (vm_compute; reflexivity).
  assert (H2 : __path__ (this unmeasured_bucket) ++ js ".measure"
               ∈ denied (fs (host unmeasured_bucket)))
    by (apply (bool_decide_unpack _); vm_compute; reflexivity).
  assert (H3 : 0 < default 20 (@None nat)) by (cbn; lia).
  split; [exact H1|]. split; [exact H2|]. split; [exact H3|].
  exact (measurePerformance_needs_its_file unmeasured_bucket [] None H1 H2 H3).
Defined.

(** With no run nothing is written, and nothing is thrown. *)
Example no_run_no_write :
  (measurePerformance (Some 0) unmeasured_bucket).1
  = Ok (JObject Plain [(js "serialize", make_array []); (js "flush", make_array []);
                       (js "both", make_array [])]).
Proof. vm_compute. reflexivity. Qed.

End Scenarios_of_the_measures.
